(** * Verification of the set-data aggregation pipeline

    Shallow embedding of [build-sets-data.py] (the local-file variant) and
    [fetch-sets.py] (the remote-API variant), followed by the properties of
    the two scripts and their proofs.

    Conventions of the embedding.
    - A Python [str] is a Rocq [string]; each [ascii] is read as the Unicode
      code point of the same number (0..255), so that ["233"%char] is U+00E9.
      The built-ins [str.lower], [str.strip], [str.split] and [int] are
      written out for that range.
    - A Python [int] is a [Z].
    - A [dict] whose iteration order is observable is an association list in
      insertion order; a [set] is a [gset].
    - A key read with [d.get(k, default)] is an [option] field of a record;
      a key read with [d[k]] is a plain field. *)

From Stdlib Require Import ZArith String Ascii DecimalString DecimalZ Lia.
From stdpp Require Import base option list sets gmap strings sorting.

Local Open Scope string_scope.
Local Open Scope Z_scope.
Local Open Scope list_scope.

(** ** Python built-ins used by the two scripts *)

Module Py.

(** Exceptions: the class decides which [except] clause catches it, the
    message is what [str(e)] returns. *)
Inductive ExcClass :=
| Timeout | HTTPError | ConnectionError
| FileNotFoundError | OSError
| ValueError | AttributeError | IndexError | KeyError | TypeError.

Record Exception := Exc { exc_class : ExcClass; exc_msg : string }.

Definition str_of_exception (e : Exception) : string := exc_msg e.

(** [str.isspace] of one character, for code points below 256. *)
Definition isspace (c : ascii) : bool :=
  let n := N_of_ascii c in
  ((9 <=? n) && (n <=? 13) || (28 <=? n) && (n <=? 32)
   || (n =? 133) || (n =? 160))%N.

(** [str.lower] of one character: A-Z, and U+00C0..U+00DE except U+00D7. *)
Definition lower_char (c : ascii) : ascii :=
  let n := N_of_ascii c in
  if ((65 <=? n) && (n <=? 90)
      || (192 <=? n) && (n <=? 222) && negb (n =? 215))%N
  then ascii_of_N (n + 32) else c.

Fixpoint lower (s : string) : string :=
  match s with
  | EmptyString => EmptyString
  | String c s' => String (lower_char c) (lower s')
  end.

Fixpoint lstrip (s : string) : string :=
  match s with
  | EmptyString => EmptyString
  | String c s' => if isspace c then lstrip s' else s
  end.

Fixpoint rstrip (s : string) : string :=
  match s with
  | EmptyString => EmptyString
  | String c s' =>
      match rstrip s' with
      | EmptyString => if isspace c then EmptyString else String c EmptyString
      | r => String c r
      end
  end.

(** [s.strip()] *)
Definition strip (s : string) : string := rstrip (lstrip s).

(** Prepends a word to a word list unless the word is empty. *)
Definition push_word (w : string) (ws : list string) : list string :=
  match w with
  | EmptyString => ws
  | _ => w :: ws
  end.

(** Scans [s] from the right: the word that is still open at the left
    end, and the words completed to its right. *)
Fixpoint words (s : string) : string * list string :=
  match s with
  | EmptyString => (EmptyString, [])
  | String c s' =>
      let '(w, ws) := words s' in
      if isspace c then (EmptyString, push_word w ws)
      else (String c w, ws)
  end.

(** [s.split()]: the maximal runs of non-whitespace characters. *)
Definition split (s : string) : list string :=
  let '(w, ws) := words s in push_word w ws.

(** Scan for [s.split(sep)] with a one-character separator: the piece
    open at the left end and the pieces to its right. *)
Fixpoint pieces (sep : ascii) (s : string) : string * list string :=
  match s with
  | EmptyString => (EmptyString, [])
  | String c s' =>
      let '(p, ps) := pieces sep s' in
      if Ascii.eqb c sep then (EmptyString, p :: ps)
      else (String c p, ps)
  end.

(** [s.split(sep)] for a one-character [sep]; never empty. *)
Definition split_on (sep : ascii) (s : string) : list string :=
  let '(p, ps) := pieces sep s in p :: ps.

(** [sep.join(l)] *)
Definition join (sep : string) (l : list string) : string :=
  String.concat sep l.

(** [s.startswith(p)] *)
Definition startswith (p s : string) : bool := String.prefix p s.

(** [l.count(x)] *)
Definition count (l : list string) (x : string) : nat :=
  length (List.filter (String.eqb x) l).

(** [str(n)] for an [int]. *)
Definition str_of_int (n : Z) : string :=
  NilZero.string_of_int (Z.to_int n).

(** Removes the digit-group underscores of an integer literal; [None]
    when an underscore is leading, trailing or doubled. [after_digit]
    tells whether the previous character was not an underscore. *)
Fixpoint ungroup (after_digit : bool) (s : string) : option string :=
  match s with
  | EmptyString => if after_digit then Some EmptyString else None
  | String c s' =>
      if Ascii.eqb c "_" then
        if after_digit then ungroup false s' else None
      else option_map (String c) (ungroup true s')
  end.

(** The digits of an integer literal without sign, base 10. *)
Definition parse_digits (s : string) : option Z :=
  match s with
  | EmptyString => None
  | String c _ =>
      if Ascii.eqb c "_" then None
      else match ungroup true s with
           | Some ds => option_map Z.of_uint (NilEmpty.uint_of_string ds)
           | None => None
           end
  end.

(** [int(s)] for a [str]; [None] stands for [ValueError]. *)
Definition int_of_str (s : string) : option Z :=
  match strip s with
  | String "-" r => option_map Z.opp (parse_digits r)
  | String "+" r => parse_digits r
  | r => parse_digits r
  end.

(** The running maximum of [max(iterable, key=...)]: a later element
    replaces the current one only when its key is strictly larger. *)
Fixpoint max_from {A} (key : A -> nat) (best : A) (xs : list A) : A :=
  match xs with
  | [] => best
  | x :: xs' => max_from key (if (key best <? key x)%nat then x else best) xs'
  end.

(** [max(xs, key=key)]; [None] stands for the [ValueError] on an empty
    argument. *)
Definition max_key {A} (key : A -> nat) (xs : list A) : option A :=
  match xs with
  | [] => None
  | x :: xs' => Some (max_from key x xs')
  end.

(** [iter(set(l))] for a list of strings. CPython fixes no order (it
    depends on the string hashes of the process and on the insertions),
    so the order is left open: any enumeration of the elements of the set,
    each once. *)
Class SetOrder := {
  iter_set : list string -> list string;
  iter_set_perm : forall l, iter_set l ≡ₚ elements (list_to_set l : gset string)
}.

(** Truth value of an optional string ([None] and [''] are false). *)
Definition truthy (o : option string) : bool :=
  match o with
  | Some (String _ _) => true
  | _ => false
  end.

End Py.

(** ** Data model *)

(** The supertype string of creature cards: "Pok", U+00E9, "mon". *)
Definition POKEMON : string := "Pok" +:+ String "233" "mon".

(** The [images] object of a raw card. *)
Record CardImages := { img_small : option string }.

(** A raw card record, as read by [card.get(...)]: every key may be absent. *)
Record RawCard := {
  raw_supertype : option string;
  raw_name : option string;
  raw_number : option string;
  raw_rarity : option string;
  raw_types : option (list string);
  raw_images : option CardImages;
  raw_subtypes : option (list string);
  raw_nationalPokedexNumbers : option (list Z)
}.

(** The [images] object of a set descriptor. *)
Record SetImages := { img_logo : option string; img_symbol : option string }.

(** A set descriptor: [id] and [name] are read with [set_info[...]], the
    other keys with [set_info.get(...)]. *)
Record SetInfo := {
  si_id : string;
  si_name : string;
  si_series : option string;
  si_releaseDate : option string;
  si_total : option Z;
  si_images : option SetImages
}.

(** The [card_info] dict. The key [dex_numbers] exists only in the local
    variant; [None] is the absent key. *)
Record CardInfo := {
  ci_card_name : string;
  ci_number : string;
  ci_rarity : string;
  ci_types : list string;
  ci_image_small : string;
  ci_subtypes : list string;
  ci_dex_numbers : option (list Z)
}.

(** An entry of [set_data['pokemon']] in the local variant. *)
Record PokemonEntry := {
  pe_name : string;
  pe_dex_number : option Z;
  pe_dex_numbers : list Z;
  pe_rarity : string;
  pe_card_count : nat;
  pe_cards : list CardInfo
}.

(** An entry of [set_data['pokemon']] in the remote variant. *)
Record RemoteEntry := {
  re_name : string;
  re_rarity : string;
  re_card_count : nat;
  re_cards : list CardInfo
}.

(** The [set_data] dict, over the entry type of the variant. *)
Record SetRecord (E : Type) := {
  sr_id : string;
  sr_name : string;
  sr_series : string;
  sr_release_date : string;
  sr_total_cards : Z;
  sr_logo : string;
  sr_symbol : string;
  sr_pokemon : list E
}.
Arguments sr_id {E}.
Arguments sr_name {E}.
Arguments sr_series {E}.
Arguments sr_release_date {E}.
Arguments sr_total_cards {E}.
Arguments sr_logo {E}.
Arguments sr_symbol {E}.
Arguments sr_pokemon {E}.

(** The caller's series filter: [None], a single name, or a list of names. *)
Inductive SeriesFilter :=
| NoFilter
| OneSeries (name : string)
| SeriesList (names : list string).

(** Truth value of the filter in [if series_filter:]. *)
Definition filter_given (f : SeriesFilter) : bool :=
  match f with
  | NoFilter => false
  | OneSeries EmptyString => false
  | OneSeries _ => true
  | SeriesList [] => false
  | SeriesList _ => true
  end.

(** The fields both variants copy from the set descriptor into [set_data]. *)
Definition set_data_of {E} (set_info : SetInfo) (pokemon : list E) : SetRecord E :=
  {| sr_id := si_id set_info;
     sr_name := si_name set_info;
     sr_series := default "" (si_series set_info);
     sr_release_date := default "" (si_releaseDate set_info);
     sr_total_cards := default 0 (si_total set_info);
     sr_logo := default "" (si_images set_info ≫= img_logo);
     sr_symbol := default "" (si_images set_info ≫= img_symbol);
     sr_pokemon := pokemon |}.

(** The [defaultdict(list)] update [d[key].append(x)]: appends to the list
    of an existing key, or adds the key at the end. *)
Fixpoint dict_append {A} (key : string) (x : A) (d : list (string * list A))
  : list (string * list A) :=
  match d with
  | [] => [(key, [x])]
  | (k, xs) :: d' =>
      if decide (k = key) then (k, xs ++ [x]) :: d'
      else (k, xs) :: dict_append key x d'
  end.

(** Pure computations that may raise. *)
Definition Result (A : Type) : Type := Py.Exception + A.

Definition rbind {A B} (m : Result A) (f : A -> Result B) : Result B :=
  match m with
  | inl e => inl e
  | inr a => f a
  end.

Notation "'let+' x ':=' m 'in' k" := (rbind m (fun x => k))
  (at level 10, x pattern, m at level 100, k at level 200).

(** [[f(x) for x in l]], stopping at the first exception. *)
Fixpoint rmap {A B} (f : A -> Result B) (l : list A) : Result (list B) :=
  match l with
  | [] => inr []
  | x :: l' =>
      let+ y := f x in
      let+ ys := rmap f l' in
      inr (y :: ys)
  end.

(** [l[0]] *)
Definition first_item {A} (l : list A) : Result A :=
  match l with
  | x :: _ => inr x
  | [] => inl (Py.Exc Py.IndexError "list index out of range")
  end.

(** [for x in l: st = step(st, x)], stopping at the first exception. *)
Fixpoint rfold {A S} (step : S -> A -> Result S) (st : S) (l : list A) : Result S :=
  match l with
  | [] => inr st
  | x :: l' => let+ st' := step st x in rfold step st' l'
  end.

(** ** [build-sets-data.py]: the local-file variant *)

Module BuildSetsData.
Import Py.

(** The cloned data directory: [sets/en.json] ([None] when the file does
    not exist) and [cards/en/{set_id}.json] per set id. *)
Record Files := {
  sets_file : option (list SetInfo);
  cards_file : string -> option (list RawCard)
}.

Definition load_sets (fs : Files) (series_filter : SeriesFilter)
  : Result (list SetInfo) :=
  match sets_file fs with
  | None => inl (Exc FileNotFoundError "Sets file not found")
  | Some sets =>
      if filter_given series_filter then
        match series_filter with
        | SeriesList names =>
            inr (filter (fun s => (default "" (si_series s)) ∈ names) sets)
        | OneSeries name =>
            inr (filter (fun s => lower (default "" (si_series s)) = lower name) sets)
        | NoFilter => inr sets
        end
      else inr sets
  end.

Definition load_cards_for_set (fs : Files) (set_id : string)
  : option (list RawCard) :=
  cards_file fs set_id.

Definition suffixes : list string := ["ex"; "gx"; "v"; "vmax"; "vstar"; "vunion"].
Definition prefixes : list string :=
  ["team"; "rockets"; "rocket"; "dark"; "light"; "shining"; "radiant"].

(** The argument and the result are [None] for Python's [None]. *)
Definition normalize_pokemon_name (name : option string) : option string :=
  if negb (truthy name) then None
  else
    let name := strip (lower (default "" name)) in
    let parts := split name in
    let filtered := filter (fun p => (p ∉ suffixes) /\ (p ∉ prefixes)) parts in
    match filtered with
    | [] => None
    | _ => Some (join " " filtered)
    end.

(** The grouping key of a creature card; [None] is the [continue] of a
    card whose name normalizes to nothing. *)
Definition card_key (card : RawCard) : option string :=
  match default [] (raw_nationalPokedexNumbers card) with
  | d :: _ => Some ("dex_" +:+ str_of_int d)
  | [] =>
      let key := normalize_pokemon_name (Some (default "" (raw_name card))) in
      if negb (truthy key) then None else key
  end.

Definition card_info_of (card : RawCard) : CardInfo :=
  {| ci_card_name := default "" (raw_name card);
     ci_number := default "" (raw_number card);
     ci_rarity := default "Common" (raw_rarity card);
     ci_types := default [] (raw_types card);
     ci_image_small := default "" (raw_images card ≫= img_small);
     ci_subtypes := default [] (raw_subtypes card);
     ci_dex_numbers := Some (default [] (raw_nationalPokedexNumbers card)) |}.

(** One iteration of [for card in cards] on the dict [pokemon_cards]. *)
Definition group_card (pokemon_cards : list (string * list CardInfo))
    (card : RawCard) : list (string * list CardInfo) :=
  if bool_decide (raw_supertype card ≠ Some POKEMON) then pokemon_cards
  else match card_key card with
       | None => pokemon_cards
       | Some key => dict_append key (card_info_of card) pokemon_cards
       end.

Definition group_cards (cards : list RawCard) : list (string * list CardInfo) :=
  foldl group_card [] cards.

(** [max(set(rarities), key=rarities.count) if rarities else 'Common'],
    over the non-empty rarities of the group. *)
Definition most_common_rarity `{SetOrder} (cards_list : list CardInfo)
  : Result string :=
  let rarities := filter (fun r => r ≠ "") (ci_rarity <$> cards_list) in
  match rarities with
  | [] => inr "Common"
  | _ =>
      match max_key (count rarities) (iter_set rarities) with
      | Some r => inr r
      | None => inl (Exc ValueError "max() arg is an empty sequence")
      end
  end.

(** [int(key.split('_')[1])] *)
Definition dex_of_key (key : string) : Result Z :=
  match split_on "_" key !! 1%nat with
  | None => inl (Exc IndexError "list index out of range")
  | Some piece =>
      match int_of_str piece with
      | Some n => inr n
      | None =>
          inl (Exc ValueError
                 ("invalid literal for int() with base 10: '" +:+ piece +:+ "'"))
      end
  end.

(** The set [all_dex] after the loop over the group's cards. *)
Definition all_dex_of (cards_list : list CardInfo) : gset Z :=
  foldl (fun all_dex c => all_dex ∪ list_to_set (default [] (ci_dex_numbers c)))
        ∅ cards_list.

(** [x or y] for an optional string [x]. *)
Definition or_else (x : option string) (y : string) : string :=
  if truthy x then default y x else y.

(** The body of [for key, cards_list in pokemon_cards.items()]. *)
Definition build_entry `{SetOrder} (item : string * list CardInfo)
  : Result PokemonEntry :=
  let '(key, cards_list) := item in
  let+ rarity := most_common_rarity cards_list in
  let+ (dex_num, pokemon_name) :=
    (if startswith "dex_" key then
       let+ dex_num := dex_of_key key in
       let+ c0 := first_item cards_list in
       inr (Some dex_num, ci_card_name c0)
     else inr (None, key)) in
  let all_dex := all_dex_of cards_list in
  let+ c0 := first_item cards_list in
  inr {| pe_name := or_else (normalize_pokemon_name (Some (ci_card_name c0)))
                            pokemon_name;
         pe_dex_number := dex_num;
         pe_dex_numbers := if bool_decide (all_dex = ∅) then []
                           else merge_sort Z.le (elements all_dex);
         pe_rarity := rarity;
         pe_card_count := length cards_list;
         pe_cards := cards_list |}.

(** Grouping and summarising the cards of one set. *)
Definition aggregate `{SetOrder} (cards : list RawCard) : Result (list PokemonEntry) :=
  rmap build_entry (group_cards cards).

(** An element of [skipped_sets]. *)
Record Skipped := { skipped_id : string; skipped_name : string }.

(** The body of [for idx, set_info in enumerate(sets, 1)]; the progress
    messages are not modelled. *)
Definition process_set `{SetOrder} (fs : Files)
    (st : list (SetRecord PokemonEntry) * list Skipped) (set_info : SetInfo)
  : Result (list (SetRecord PokemonEntry) * list Skipped) :=
  let '(sets_data, skipped_sets) := st in
  let set_id := si_id set_info in
  match load_cards_for_set fs set_id with
  | None =>
      inr (sets_data,
           skipped_sets ++ [{| skipped_id := set_id; skipped_name := si_name set_info |}])
  | Some cards =>
      let+ pokemon := aggregate cards in
      inr (sets_data ++ [set_data_of set_info pokemon], skipped_sets)
  end.

Definition build_sets_data `{SetOrder} (fs : Files) (series_filter : SeriesFilter)
  : Result (list (SetRecord PokemonEntry) * list Skipped) :=
  let+ sets := load_sets fs series_filter in
  rfold (process_set fs) ([], []) sets.

End BuildSetsData.

(** ** [fetch-sets.py]: the remote-API variant *)

Module FetchSets.
Import Py.

(** The JSON body of a cards request. *)
Record CardsPage := { data : list RawCard; totalCount : Z }.

(** The URLs the script requests. *)
Inductive Request :=
| GetSets
| GetCards (set_id : string) (page page_size : Z).

(** The lines the script prints. *)
Inductive Message :=
| Fetching_all_sets
| Found_sets (n : nat)
| Retry (attempt max_retries : nat) (wait_time : Z)
| Found_existing
| Resuming (n : nat)
| Could_not_load (e : string)
| Skipping (idx : nat) (set_id : string)
| Processing (idx : nat) (set_id : string)
| Fetching_page (page : Z)
| Found_cards (n : nat)
| Extracted (n : nat)
| Saved_progress (n : nat)
| Could_not_save (e : string)
| FAILED (e : string)
| Skipping_to_next.

(** What the output file holds when the run starts. *)
Inductive FileState :=
| Absent
| Unreadable (e : Exception)
| Stored (sets_data : list (SetRecord RemoteEntry)).

(** The outside world of one run. [http_sets k] and [http_cards k ...]
    are what [requests.get] followed by [raise_for_status] and [json]
    yield for the request number [k] of the run; [file_write k] tells
    whether the write number [k] of the output file fails. *)
Record Env := {
  http_sets : nat -> Result (list SetInfo);
  http_cards : nat -> string -> Z -> Z -> Result CardsPage;
  output_file : FileState;
  file_write : nat -> list (SetRecord RemoteEntry) -> option Exception
}.

(** The effects of the run so far: requests sent, contents handed to a
    write of the output file, and lines printed, each oldest first. *)
Record World := {
  sent : list Request;
  writes : list (list (SetRecord RemoteEntry));
  printed : list Message
}.

Definition start : World := {| sent := []; writes := []; printed := [] |}.

(** A computation returns, raises, or exhausts the bound put on the
    [while True] loop. *)
Inductive Outcome (A : Type) :=
| Returned (a : A)
| Raised (e : Exception)
| OutOfFuel.
Arguments Returned {A}.
Arguments Raised {A}.
Arguments OutOfFuel {A}.

Definition M (A : Type) : Type := World -> Outcome A * World.

Definition ret {A} (a : A) : M A := fun w => (Returned a, w).
Definition raise {A} (e : Exception) : M A := fun w => (Raised e, w).
Definition out_of_fuel {A} : M A := fun w => (OutOfFuel, w).

Definition bind {A B} (m : M A) (k : A -> M B) : M B :=
  fun w =>
    match m w with
    | (Returned a, w') => k a w'
    | (Raised e, w') => (Raised e, w')
    | (OutOfFuel, w') => (OutOfFuel, w')
    end.

(** [try: body except Exception as e: handler] *)
Definition try_except {A} (body : M A) (handler : Exception -> M A) : M A :=
  fun w =>
    match body w with
    | (Raised e, w') => handler e w'
    | r => r
    end.

Notation "'let*' x ':=' m 'in' k" := (bind m (fun x => k))
  (at level 10, x pattern, m at level 100, k at level 200).
Notation "m ';;' k" := (bind m (fun _ => k))
  (at level 100, k at level 200, right associativity).

Definition print (msg : Message) : M unit :=
  fun w => (Returned (),
            {| sent := sent w; writes := writes w; printed := printed w ++ [msg] |}).

(** Lifts a pure computation that may raise. *)
Definition lift {A} (r : Result A) : M A :=
  match r with
  | inl e => raise e
  | inr a => ret a
  end.

(** [requests.get(url, ...)], [raise_for_status()]: sends the request and
    hands back the answer of the world, or the exception it raises. *)
Definition http_get {A} (req : Request) (answer : nat -> Result A) : M (Result A) :=
  fun w => (Returned (answer (length (sent w))),
            {| sent := sent w ++ [req]; writes := writes w; printed := printed w |}).

(** [with open(output_file, 'w') as f: json.dump(sets_data, f, ...)] *)
Definition write_file (env : Env) (sets_data : list (SetRecord RemoteEntry)) : M unit :=
  fun w =>
    let w' := {| sent := sent w; writes := writes w ++ [sets_data];
                 printed := printed w |} in
    match file_write env (length (writes w)) sets_data with
    | Some e => (Raised e, w')
    | None => (Returned (), w')
    end.

(** The classes caught by [except (Timeout, HTTPError)]. *)
Definition retried (e : Exception) : bool :=
  match exc_class e with
  | Timeout | HTTPError => true
  | _ => false
  end.

(** The iterations of [for attempt in range(max_retries)] that are left;
    falling off the loop returns [None]. The sleep is not modelled. *)
Fixpoint fetch_attempts {A} (req : Request) (answer : nat -> Result A)
    (max_retries : nat) (attempts : list nat) : M (option A) :=
  match attempts with
  | [] => ret None
  | attempt :: rest =>
      let* r := http_get req answer in
      match r with
      | inr response => ret (Some response)
      | inl e =>
          if retried e then
            if (attempt <? max_retries - 1)%nat then
              print (Retry (attempt + 1) max_retries (2 ^ Z.of_nat attempt)) ;;
              fetch_attempts req answer max_retries rest
            else raise e
          else raise e
      end
  end.

Definition fetch_with_retry {A} (req : Request) (answer : nat -> Result A)
    (max_retries : nat) : M (option A) :=
  fetch_attempts req answer max_retries (seq 0 max_retries).

(** [response.json()] on the result of [fetch_with_retry]. *)
Definition json {A} (response : option A) : M A :=
  match response with
  | Some body => ret body
  | None => raise (Exc AttributeError "'NoneType' object has no attribute 'json'")
  end.

Definition fetch_all_sets (env : Env) (series_filter : SeriesFilter)
  : M (list SetInfo) :=
  print Fetching_all_sets ;;
  let* response := fetch_with_retry GetSets (http_sets env) 3 in
  let* sets := json response in
  if filter_given series_filter then
    let* sets' :=
      match series_filter with
      | OneSeries name =>
          ret (filter (fun s => lower (default "" (si_series s)) = lower name) sets)
      | SeriesList _ =>
          (* [series_filter.lower()] is evaluated for the first element *)
          match sets with
          | [] => ret []
          | _ => raise (Exc AttributeError "'list' object has no attribute 'lower'")
          end
      | NoFilter => ret sets
      end in
    print (Found_sets (length sets')) ;;
    ret sets'
  else
    print (Found_sets (length sets)) ;;
    ret sets.

Definition fetch_cards_for_set (env : Env) (set_id : string) (page page_size : Z)
  : M CardsPage :=
  let* response :=
    fetch_with_retry (GetCards set_id page page_size)
                     (fun k => http_cards env k set_id page page_size) 3 in
  json response.

Definition suffixes : list string := ["ex"; "gx"; "v"; "vmax"; "vstar"; "vunion"].
Definition prefixes : list string :=
  ["team"; "rockets"; "rocket"; "dark"; "light"; "shining"; "radiant"].

(** The argument and the result are [None] for Python's [None]. *)
Definition normalize_pokemon_name (name : option string) : option string :=
  if negb (truthy name) then None
  else
    let name := strip (lower (default "" name)) in
    let parts := split name in
    let filtered := filter (fun p => (p ∉ suffixes) /\ (p ∉ prefixes)) parts in
    match filtered with
    | [] => None
    | _ => Some (join " " filtered)
    end.

Definition page_size : Z := 50.

(** The [while True] loop over the pages of one set, at most [fuel]
    iterations. *)
Fixpoint fetch_pages (fuel : nat) (env : Env) (set_id : string) (page : Z)
    (all_cards : list RawCard) : M (list RawCard) :=
  match fuel with
  | O => out_of_fuel
  | S fuel' =>
      print (Fetching_page page) ;;
      let* result := fetch_cards_for_set env set_id page page_size in
      let all_cards := all_cards ++ data result in
      if page >=? totalCount result / page_size + 1 then ret all_cards
      else fetch_pages fuel' env set_id (page + 1) all_cards
  end.

Definition card_info_of (card : RawCard) : CardInfo :=
  {| ci_card_name := default "" (raw_name card);
     ci_number := default "" (raw_number card);
     ci_rarity := default "Common" (raw_rarity card);
     ci_types := default [] (raw_types card);
     ci_image_small := default "" (raw_images card ≫= img_small);
     ci_subtypes := default [] (raw_subtypes card);
     ci_dex_numbers := None |}.

(** The grouping key of a creature card; [None] is the [continue]. *)
Definition card_key (card : RawCard) : option string :=
  let pokemon_name := normalize_pokemon_name (Some (default "" (raw_name card))) in
  if negb (truthy pokemon_name) then None else pokemon_name.

(** One iteration of [for card in all_cards] on the dict [pokemon_cards]. *)
Definition group_card (pokemon_cards : list (string * list CardInfo))
    (card : RawCard) : list (string * list CardInfo) :=
  if bool_decide (raw_supertype card ≠ Some POKEMON) then pokemon_cards
  else match card_key card with
       | None => pokemon_cards
       | Some pokemon_name => dict_append pokemon_name (card_info_of card) pokemon_cards
       end.

Definition group_cards (all_cards : list RawCard) : list (string * list CardInfo) :=
  foldl group_card [] all_cards.

(** [max(set(rarities), key=rarities.count)] *)
Definition most_common_rarity `{SetOrder} (cards : list CardInfo) : Result string :=
  let rarities := ci_rarity <$> cards in
  match max_key (count rarities) (iter_set rarities) with
  | Some r => inr r
  | None => inl (Exc ValueError "max() arg is an empty sequence")
  end.

(** The body of [for pokemon_name, cards in pokemon_cards.items()]. *)
Definition build_entry `{SetOrder} (item : string * list CardInfo)
  : Result RemoteEntry :=
  let '(pokemon_name, cards) := item in
  let+ rarity := most_common_rarity cards in
  inr {| re_name := pokemon_name;
         re_rarity := rarity;
         re_card_count := length cards;
         re_cards := cards |}.

(** Grouping and summarising the cards of one set. *)
Definition aggregate `{SetOrder} (all_cards : list RawCard) : Result (list RemoteEntry) :=
  rmap build_entry (group_cards all_cards).

(** An element of [failed_sets]. *)
Record Failed := { failed_id : string; failed_name : string; failed_error : string }.

(** The two lists the run accumulates. *)
Definition Progress : Type := list (SetRecord RemoteEntry) * list Failed.

(** The inner [try] that saves the progress after a set. *)
Definition save_progress (env : Env) (sets_data : list (SetRecord RemoteEntry)) : M unit :=
  try_except
    (write_file env sets_data ;;
     print (Saved_progress (length sets_data)))
    (fun e => print (Could_not_save (str_of_exception e))).

(** The body of the outer [try]: fetch, aggregate, append, save. It
    returns the extended [sets_data]. *)
Definition try_set `{SetOrder} (fuel : nat) (env : Env) (set_info : SetInfo)
    (sets_data : list (SetRecord RemoteEntry)) : M (list (SetRecord RemoteEntry)) :=
  let* all_cards := fetch_pages fuel env (si_id set_info) 1 [] in
  print (Found_cards (length all_cards)) ;;
  let* pokemon := lift (aggregate all_cards) in
  let set_data := set_data_of set_info pokemon in
  print (Extracted (length (sr_pokemon set_data))) ;;
  let sets_data := sets_data ++ [set_data] in
  save_progress env sets_data ;;
  ret sets_data.

(** The body of [for idx, set_info in enumerate(sets, 1)]; the sleeps are
    not modelled. *)
Definition process_set `{SetOrder} (fuel : nat) (env : Env)
    (processed_set_ids : gset string) (st : Progress) (item : nat * SetInfo)
  : M Progress :=
  let '(sets_data, failed_sets) := st in
  let '(idx, set_info) := item in
  if bool_decide (si_id set_info ∈ processed_set_ids) then
    print (Skipping idx (si_id set_info)) ;;
    ret (sets_data, failed_sets)
  else
    print (Processing idx (si_id set_info)) ;;
    try_except
      (let* sets_data' := try_set fuel env set_info sets_data in
       ret (sets_data', failed_sets))
      (fun e =>
         print (FAILED (str_of_exception e)) ;;
         let failed_sets :=
           failed_sets ++ [{| failed_id := si_id set_info;
                              failed_name := si_name set_info;
                              failed_error := str_of_exception e |}] in
         print Skipping_to_next ;;
         ret (sets_data, failed_sets)).

(** [for x in l: st = step(st, x)] in the monad. *)
Fixpoint for_each {A S} (step : S -> A -> M S) (st : S) (l : list A) : M S :=
  match l with
  | [] => ret st
  | x :: l' => let* st' := step st x in for_each step st' l'
  end.

(** Loading the previous output file: [sets_data] and
    [processed_set_ids]. *)
Definition load_progress (env : Env)
  : M (list (SetRecord RemoteEntry) * gset string) :=
  match output_file env with
  | Absent => ret ([], ∅)
  | Unreadable e =>
      print Found_existing ;;
      print (Could_not_load (str_of_exception e)) ;;
      ret ([], ∅)
  | Stored sets_data =>
      print Found_existing ;;
      print (Resuming (length sets_data)) ;;
      ret (sets_data, list_to_set (sr_id <$> sets_data))
  end.

(** [enumerate(sets, 1)] *)
Definition enumerate1 {A} (l : list A) : list (nat * A) :=
  zip (seq 1 (length l)) l.

Definition build_sets_data `{SetOrder} (fuel : nat) (env : Env)
    (series_filter : SeriesFilter) : M Progress :=
  let* sets := fetch_all_sets env series_filter in
  let* (sets_data, processed_set_ids) := load_progress env in
  for_each (process_set fuel env processed_set_ids) (sets_data, []) (enumerate1 sets).

End FetchSets.

(** ** Vocabulary of the statements *)

(** [d.get(key)] on an insertion-ordered dict. *)
Fixpoint dict_get {A} (key : string) (d : list (string * list A)) : option (list A) :=
  match d with
  | [] => None
  | (k, xs) :: d' => if decide (k = key) then Some xs else dict_get key d'
  end.

(** Grouping by an optional key: what both scripts do with
    [pokemon_cards], for any key and any projection. *)
Definition group_by {C A} (keyf : C -> option string) (infof : C -> A)
    (cards : list C) : list (string * list A) :=
  foldl (fun d c => match keyf c with
                    | None => d
                    | Some k => dict_append k (infof c) d
                    end) [] cards.

(** The projections of the cards that carry the key [k], in input order. *)
Definition members_of {C A} (keyf : C -> option string) (infof : C -> A)
    (k : string) (cards : list C) : list A :=
  infof <$> filter (fun c => keyf c = Some k) cards.

(** A list as the value of a dict key that exists only once it is filled. *)
Definition filled {A} (l : list A) : option (list A) :=
  match l with
  | [] => None
  | _ => Some l
  end.

(** The key under which a raw card is grouped, [None] when the card is
    left out: the supertype test followed by the script's key. *)
Definition local_key (card : RawCard) : option string :=
  if bool_decide (raw_supertype card ≠ Some POKEMON) then None
  else BuildSetsData.card_key card.

Definition remote_key (card : RawCard) : option string :=
  if bool_decide (raw_supertype card ≠ Some POKEMON) then None
  else FetchSets.card_key card.

(** One admissible iteration order of a set: the one of [elements]. *)
Definition elements_order : Py.SetOrder :=
  {| Py.iter_set := fun l => elements (list_to_set l : gset string);
     Py.iter_set_perm := fun l => reflexivity _ |}.

(** Strings made of the decimal digits 0-9 only. *)
Definition is_digit (c : ascii) : bool :=
  let n := N_of_ascii c in ((48 <=? n) && (n <=? 57))%N.

Fixpoint digits_only (s : string) : bool :=
  match s with
  | EmptyString => true
  | String c s' => is_digit c && digits_only s'
  end.

(** The effective rarity of a raw card: ["Common"] when the field is absent. *)
Definition rarity_of (card : RawCard) : string := default "Common" (raw_rarity card).

(** The invariants of an entry of the local variant. *)
Definition local_entry_ok (e : PokemonEntry) : Prop :=
  pe_card_count e = length (pe_cards e) /\
  StronglySorted Z.lt (pe_dex_numbers e) /\
  (forall z, z ∈ pe_dex_numbers e <->
             exists c, c ∈ pe_cards e /\ z ∈ default [] (ci_dex_numbers c)) /\
  pe_rarity e ≠ "".

(** The invariants of an entry of the remote variant. *)
Definition remote_entry_ok (e : RemoteEntry) : Prop :=
  re_card_count e = length (re_cards e) /\
  (Forall (fun c => ci_rarity c ≠ "") (re_cards e) -> re_rarity e ≠ "").

(** *** Sample data *)

Definition sample_card (supertype name : string) (dex : list Z)
    (rarity : option string) : RawCard :=
  {| raw_supertype := Some supertype;
     raw_name := Some name;
     raw_number := None;
     raw_rarity := rarity;
     raw_types := None;
     raw_images := None;
     raw_subtypes := None;
     raw_nationalPokedexNumbers := Some dex |}.

Definition pikachu : RawCard := sample_card POKEMON "Pikachu" [25] None.
Definition pikachu_vmax : RawCard := sample_card POKEMON "Pikachu VMAX" [25] (Some "Rare").
Definition flying_pikachu : RawCard := sample_card POKEMON "Flying Pikachu" [25] None.
Definition venusaur : RawCard := sample_card POKEMON "Venusaur" [3] (Some "Rare").
Definition venusaur_charizard : RawCard :=
  sample_card POKEMON "Venusaur" [3; 6] (Some "Rare").
Definition bulbasaur : RawCard := sample_card POKEMON "Bulbasaur" [1] (Some "Common").
Definition ex_card : RawCard := sample_card POKEMON "EX" [] None.
Definition potion : RawCard := sample_card "Trainer" "Potion" [] None.
Definition unrated (name : string) : RawCard := sample_card POKEMON name [] (Some "").
Definition rare (name : string) : RawCard := sample_card POKEMON name [] (Some "Rare").

Definition sample_set (id series : string) : SetInfo :=
  {| si_id := id; si_name := id; si_series := Some series;
     si_releaseDate := None; si_total := None; si_images := None |}.

(** The set a request asks cards for. *)
Definition request_set_id (r : FetchSets.Request) : option string :=
  match r with
  | FetchSets.GetSets => None
  | FetchSets.GetCards set_id _ _ => Some set_id
  end.

(** [w'] continues [w] with requests for the cards of [set_id] only, and
    without writing the output file. *)
Definition fetched_for (set_id : string) (w w' : FetchSets.World) : Prop :=
  FetchSets.writes w' = FetchSets.writes w /\
  exists reqs, FetchSets.sent w' = FetchSets.sent w ++ reqs /\
               Forall (fun r => request_set_id r = Some set_id) reqs.

(** A set record that the remote script builds from fetched cards. *)
Definition built_remotely `{Py.SetOrder} (sr : SetRecord RemoteEntry) : Prop :=
  exists set_info all_cards pokemon,
    FetchSets.aggregate all_cards = inr pokemon /\
    sr = set_data_of set_info pokemon.

(** A set record that the local script builds from a card file. *)
Definition built_locally `{Py.SetOrder} (sr : SetRecord PokemonEntry) : Prop :=
  exists set_info cards pokemon,
    BuildSetsData.aggregate cards = inr pokemon /\
    sr = set_data_of set_info pokemon.

(** Every page the server answers with reports a total of at most [bound]. *)
Definition totals_bounded (env : FetchSets.Env) (bound : Z) : Prop :=
  forall k set_id page page_size p,
    FetchSets.http_cards env k set_id page page_size = inr p ->
    FetchSets.totalCount p <= bound.

(** The entry of [failed_sets] for a set and an exception. *)
Definition failure_of (set_info : SetInfo) (e : Py.Exception) : FetchSets.Failed :=
  {| FetchSets.failed_id := si_id set_info;
     FetchSets.failed_name := si_name set_info;
     FetchSets.failed_error := Py.str_of_exception e |}.

(** *** A sample world for the remote script

    The set list holds "A" (series "S1"), "B" ("S2") and "C" ("S1"), and
    the first request for it times out. Set "A" reports 50 cards and serves
    two of them on page 1; the server never answers for set "C". The output
    file of an earlier run holds the record of "B", and the disk is full,
    so every write fails. *)

Definition sample_sets : list SetInfo :=
  [sample_set "A" "S1"; sample_set "B" "S2"; sample_set "C" "S1"].

Definition sample_env : FetchSets.Env :=
  {| FetchSets.http_sets := fun k =>
       if (k =? 0)%nat then inl (Py.Exc Py.Timeout "timed out") else inr sample_sets;
     FetchSets.http_cards := fun k set_id page page_size =>
       if String.eqb set_id "C" then inl (Py.Exc Py.HTTPError "500 Server Error")
       else inr {| FetchSets.data := if page =? 1 then [pikachu; flying_pikachu] else [];
                   FetchSets.totalCount := 50 |};
     FetchSets.output_file := FetchSets.Stored [set_data_of (sample_set "B" "S2") []];
     FetchSets.file_write := fun k _ => Some (Py.Exc Py.OSError "disk full") |}.

(** The same world with a working disk and no earlier output. *)
Definition fresh_env : FetchSets.Env :=
  {| FetchSets.http_sets := FetchSets.http_sets sample_env;
     FetchSets.http_cards := FetchSets.http_cards sample_env;
     FetchSets.output_file := FetchSets.Absent;
     FetchSets.file_write := fun k _ => None |}.

(** A data directory with the three sets and card files for "A" and "C". *)
Definition sample_files : BuildSetsData.Files :=
  {| BuildSetsData.sets_file := Some sample_sets;
     BuildSetsData.cards_file := fun set_id =>
       if String.eqb set_id "A" then Some [bulbasaur; potion]
       else if String.eqb set_id "C" then Some [venusaur; venusaur_charizard; ex_card]
       else None |}.

(** A server that answers every cards request, always reporting [total]
    cards and serving [cards page] on each page. *)
Definition fixed_total_env (total : Z) (cards : Z -> list RawCard) : FetchSets.Env :=
  {| FetchSets.http_sets := fun _ => inr [];
     FetchSets.http_cards := fun _ _ page _ =>
       inr {| FetchSets.data := cards page; FetchSets.totalCount := total |};
     FetchSets.output_file := FetchSets.Absent;
     FetchSets.file_write := fun _ _ => None |}.

(** The [n] page numbers from [page] on. *)
Fixpoint pages_from (page : Z) (n : nat) : list Z :=
  match n with
  | O => []
  | S n' => page :: pages_from (page + 1) n'
  end.

(** The records found in the output file when the run starts. *)
Definition loaded_records (env : FetchSets.Env) : list (SetRecord RemoteEntry) :=
  match FetchSets.output_file env with
  | FetchSets.Stored sets_data => sets_data
  | _ => []
  end.

(** ** The entry points of the two scripts *)

(** [fetch-sets.py]: the API key and [main]. *)
Module FetchSetsMain.
Import Py FetchSets.

(** Where [load_api_key] looks: the environment variable
    [POKEMON_TCG_API_KEY] and the file [.api_key], each [None] when it
    does not exist. *)
Record KeySources := {
  environ_key : option string;
  key_file : option string
}.

Definition load_api_key (src : KeySources) : option string :=
  let api_key := environ_key src in
  if truthy api_key then api_key
  else match key_file src with
       | Some content => Some (strip content)
       | None => None
       end.

(** The headers dict, as its items. *)
Definition get_headers (API_KEY : option string) : list (string * string) :=
  if truthy API_KEY then [("X-Api-Key", default "" API_KEY)] else [].

(** What leaves [main]: an exception of the run or of the final save, or
    the [ZeroDivisionError] of the average. *)
Inductive MainException :=
| Propagated (e : Exception)
| ZeroDivisionError.

Definition str_of_main_exception (e : MainException) : string :=
  match e with
  | Propagated e => str_of_exception e
  | ZeroDivisionError => "division by zero"
  end.

(** The lines [main] prints itself (the banner and the filter line come
    before the lines of the run, the others after them). *)
Inductive Line :=
| Banner
| Filtering_to (series : string)
| Final_save
| Saved (n_sets : nat)
| Summary (n_sets total_pokemon : nat)
| Average (total_pokemon n_sets : nat)
| Failed_sets (n : nat)
| Failed_set (name set_id error : string)
| Retry_hint
| Error (e : string).

Inductive Ending :=
| Finished
| Raises (e : MainException)
| Unfinished.

Definition SERIES_FILTER : string := "Mega Evolution".

(** [sum(len(s['pokemon']) for s in sets_data)] *)
Definition total_pokemon {E} (sets_data : list (SetRecord E)) : nat :=
  sum_list ((fun s => length (sr_pokemon s)) <$> sets_data).

(** The report of the failed sets, printed when there are any. *)
Definition failed_report (failed_sets : list Failed) : list Line :=
  match failed_sets with
  | [] => []
  | _ =>
      [Failed_sets (length failed_sets)]
      ++ ((fun f => Failed_set (failed_name f) (failed_id f) (failed_error f))
            <$> failed_sets)
      ++ [Retry_hint]
  end.

(** [except Exception as e: print(...); raise] *)
Definition reraise (e : MainException) (w : World) (out : list Line)
  : Ending * World * list Line :=
  (Raises e, w, out ++ [Error (str_of_main_exception e)]).

(** [main()]: the ending, the world after it, and the lines of [main]. *)
Definition main `{SetOrder} (fuel : nat) (env : Env) (w : World)
  : Ending * World * list Line :=
  let out := [Banner; Filtering_to SERIES_FILTER] in
  match build_sets_data fuel env (OneSeries SERIES_FILTER) w with
  | (OutOfFuel, w1) => (Unfinished, w1, out)
  | (Raised e, w1) => reraise (Propagated e) w1 out
  | (Returned (sets_data, failed_sets), w1) =>
      let out := out ++ [Final_save] in
      match write_file env sets_data w1 with
      | (OutOfFuel, w2) => (Unfinished, w2, out)
      | (Raised e, w2) => reraise (Propagated e) w2 out
      | (Returned _, w2) =>
          let total := total_pokemon sets_data in
          let out := out ++ [Saved (length sets_data);
                             Summary (length sets_data) total] in
          match sets_data with
          | [] => reraise ZeroDivisionError w2 out
          | _ =>
              (Finished, w2,
               out ++ [Average total (length sets_data)] ++ failed_report failed_sets)
          end
      end
  end.

End FetchSetsMain.

(** [build-sets-data.py]: [main]. *)
Module BuildSetsDataMain.
Import Py BuildSetsData.

(** The outside world of [main]: whether the data directory exists, its
    files, and whether writing the output file fails. *)
Record Env := {
  data_dir_exists : bool;
  files : Files;
  output_write : list (SetRecord PokemonEntry) -> option Exception
}.

(** The lines [main] prints. *)
Inductive Line :=
| Banner
| Data_directory_not_found
| Filtering_to (series : list string)
| Processing_all
| Saving
| Saved (n_sets : nat)
| Summary (n_sets total_pokemon : nat)
| Average (total_pokemon n_sets : nat)
| Skipped_sets (n : nat)
| Skipped_set (name set_id : string)
| And_more (n : nat)
| Update_hint
| Error (e : string).

Inductive Ending :=
| Finished
| Raises (e : Exception).

(** The outcome of [main]: how it ends, the content of the output file
    when it was written, and the lines printed. *)
Record Outcome := {
  ending : Ending;
  saved : option (list (SetRecord PokemonEntry));
  output : list Line
}.

Definition SERIES_FILTER : list string := ["Scarlet & Violet"; "Mega Evolution"].

(** The report of the skipped sets: the first ten, and how many more. *)
Definition skipped_report (skipped_sets : list Skipped) : list Line :=
  match skipped_sets with
  | [] => []
  | _ =>
      [Skipped_sets (length skipped_sets)]
      ++ ((fun s => Skipped_set (skipped_name s) (skipped_id s))
            <$> take 10 skipped_sets)
      ++ (if (10 <? length skipped_sets)%nat
          then [And_more (length skipped_sets - 10)] else [])
      ++ [Update_hint]
  end.

(** The two [except] clauses: a [FileNotFoundError] is printed, any other
    exception is printed and raised again. *)
Definition handle (e : Exception) (out : list Line) : Outcome :=
  {| ending := match exc_class e with
               | FileNotFoundError => Finished
               | _ => Raises e
               end;
     saved := None;
     output := out ++ [Error (str_of_exception e)] |}.

Definition main `{SetOrder} (env : Env) : Outcome :=
  if negb (data_dir_exists env) then
    {| ending := Finished; saved := None;
       output := [Banner; Data_directory_not_found] |}
  else
    let out := [Banner;
                match SERIES_FILTER with
                | [] => Processing_all
                | _ => Filtering_to SERIES_FILTER
                end] in
    match build_sets_data (files env) (SeriesList SERIES_FILTER) with
    | inl e => handle e out
    | inr (sets_data, skipped_sets) =>
        let out := out ++ [Saving] in
        match output_write env sets_data with
        | Some e => handle e out
        | None =>
            let total := FetchSetsMain.total_pokemon sets_data in
            {| ending := Finished;
               saved := Some sets_data;
               output :=
                 out ++ [Saved (length sets_data);
                         Summary (length sets_data) total]
                 ++ match sets_data with
                    | [] => []
                    | _ => [Average total (length sets_data)]
                    end
                 ++ skipped_report skipped_sets |}
        end
    end.

End BuildSetsDataMain.

(** ** Further vocabulary *)

(** The distinct elements of a list in the order of their first occurrence:
    the key order of a dict filled in list order. *)
Definition first_seen (l : list string) : list string :=
  foldl (fun seen x => if decide (x ∈ seen) then seen else seen ++ [x]) [] l.

(** The retry lines of [k] refused attempts out of [max_retries]. *)
Definition retry_lines (max_retries k : nat) : list FetchSets.Message :=
  (fun i => FetchSets.Retry (S i) max_retries (2 ^ Z.of_nat i)) <$> seq 0 k.

(** The answers to the requests number [k], ..., [k + j - 1] of the run are
    failures of a class that is retried. *)
Definition refused {A} (answer : nat -> Result A) (k j : nat) : Prop :=
  forall i, (i < j)%nat ->
            exists e, answer (k + i)%nat = inl e /\ FetchSets.retried e = true.

(** A string of whitespace only. *)
Fixpoint blank (s : string) : bool :=
  match s with
  | EmptyString => true
  | String c s' => Py.isspace c && blank s'
  end.

(** The entry of [skipped_sets] for a set. *)
Definition skipped_of (set_info : SetInfo) : BuildSetsData.Skipped :=
  {| BuildSetsData.skipped_id := si_id set_info;
     BuildSetsData.skipped_name := si_name set_info |}.

(** A card of a creature without dex numbers. *)
Definition nameless_dex (card : RawCard) : Prop :=
  raw_supertype card = Some POKEMON /\
  default [] (raw_nationalPokedexNumbers card) = [].

(** A creature card without dex numbers whose name key starts with [dex_],
    like the keys made from dex numbers. *)
Definition dex_like_name (card : RawCard) : bool :=
  bool_decide (raw_supertype card = Some POKEMON) &&
  match default [] (raw_nationalPokedexNumbers card), BuildSetsData.card_key card with
  | [], Some key => Py.startswith "dex_" key
  | _, _ => false
  end.

(** What tells the entries of one set apart in the local variant: the dex
    number, or the name when there is none. *)
Definition entry_identity (e : PokemonEntry) : Z + string :=
  match pe_dex_number e with
  | Some n => inl n
  | None => inr (pe_name e)
  end.

(** Another iteration order of sets: the one of [elements_order] backwards. *)
Definition reversed_order : Py.SetOrder :=
  {| Py.iter_set := fun l => reverse (elements (list_to_set l : gset string));
     Py.iter_set_perm := fun l => reverse_Permutation _ |}.

(** More sample data. *)
Definition squirtle : RawCard := sample_card POKEMON "Squirtle" [7] None.
Definition dex_7_x : RawCard := sample_card POKEMON "Dex_7_x" [] None.
Definition common (name : string) : RawCard :=
  sample_card POKEMON name [] (Some "Common").

(** A data directory with one set that holds a card of dex number 7 and a
    card without dex numbers named "Dex_7_x". *)
Definition dex_7_files : BuildSetsData.Files :=
  {| BuildSetsData.sets_file := Some [sample_set "A" "S1"];
     BuildSetsData.cards_file := fun _ => Some [squirtle; dex_7_x] |}.

Definition sample_main_env : BuildSetsDataMain.Env :=
  {| BuildSetsDataMain.data_dir_exists := true;
     BuildSetsDataMain.files :=
       {| BuildSetsData.sets_file :=
            Some [sample_set "sv1" "Scarlet & Violet";
                  sample_set "sv2" "scarlet & violet";
                  sample_set "me1" "Mega Evolution";
                  sample_set "swsh1" "Sword & Shield"];
          BuildSetsData.cards_file := fun set_id =>
            if String.eqb set_id "me1" then None else Some [pikachu; potion] |};
     BuildSetsDataMain.output_write := fun _ => None |}.

(** The record of the sample set "A", and the sample service when a first
    run has left this record in the output file. *)
Definition record_A : SetRecord RemoteEntry :=
  set_data_of (sample_set "A" "S1")
    [{| re_name := "pikachu"; re_rarity := "Common"; re_card_count := 1;
        re_cards := [FetchSets.card_info_of pikachu] |};
     {| re_name := "flying pikachu"; re_rarity := "Common"; re_card_count := 1;
        re_cards := [FetchSets.card_info_of flying_pikachu] |}].

Definition resumed_env : FetchSets.Env :=
  {| FetchSets.http_sets := FetchSets.http_sets sample_env;
     FetchSets.http_cards := FetchSets.http_cards sample_env;
     FetchSets.output_file := FetchSets.Stored [record_A];
     FetchSets.file_write := fun k _ => None |}.

(** A service that answers no request for the set list, with the result of
    an earlier run in the output file. *)
Definition down_env : FetchSets.Env :=
  {| FetchSets.http_sets := fun _ => inl (Py.Exc Py.Timeout "timed out");
     FetchSets.http_cards := FetchSets.http_cards sample_env;
     FetchSets.output_file := FetchSets.Stored [record_A];
     FetchSets.file_write := fun _ _ => None |}.

(** A service that lists one set and refuses every request for its cards. *)
Definition failing_env : FetchSets.Env :=
  {| FetchSets.http_sets := fun _ => inr [sample_set "me1" "Mega Evolution"];
     FetchSets.http_cards := fun _ _ _ _ =>
       inl (Py.Exc Py.HTTPError "500 Server Error");
     FetchSets.output_file := FetchSets.Absent;
     FetchSets.file_write := fun _ _ => None |}.

Definition dexter : RawCard := sample_card POKEMON "Dex_ter" [] None.
Definition dex_25_card : RawCard := sample_card POKEMON "DEX_25" [] None.

(** * Properties of the built-ins *)

(** The built-ins on the inputs the scripts meet. *)

Example lower_ex : Py.lower "Dark Charizard EX" = "dark charizard ex".
Proof. reflexivity. Qed.

Example split_ex :
  Py.split "  dark   charizard ex " = ["dark"; "charizard"; "ex"].
Proof. reflexivity. Qed.

Example strip_ex : Py.strip "  a b  " = "a b".
Proof. reflexivity. Qed.

Example split_on_ex : Py.split_on "_" "dex_25_x" = ["dex"; "25"; "x"].
Proof. reflexivity. Qed.

Example int_of_str_ex :
  Py.int_of_str " -1_000 " = Some (-1000) /\ Py.int_of_str "+007" = Some 7 /\
  Py.int_of_str "1__0" = None /\ Py.int_of_str "_7" = None /\
  Py.int_of_str "7_" = None /\ Py.int_of_str "- 7" = None /\
  Py.int_of_str "x" = None /\ Py.int_of_str "" = None.
Proof. repeat split; reflexivity. Qed.

Example str_of_int_ex : Py.str_of_int (-25) = "-25" /\ Py.str_of_int 0 = "0".
Proof. split; reflexivity. Qed.

Section PyStrings.
Import Py.

Lemma lower_char_idem c : lower_char (lower_char c) = lower_char c.
Proof. destruct c as [[] [] [] [] [] [] [] []]; reflexivity. Qed.

Lemma isspace_lower_char c : isspace (lower_char c) = isspace c.
Proof. destruct c as [[] [] [] [] [] [] [] []]; reflexivity. Qed.

Lemma lower_idem s : lower (lower s) = lower s.
Proof. induction s as [|c s IH]; simpl; [done|]. by rewrite lower_char_idem, IH. Qed.

Lemma lower_app a b : lower (a +:+ b) = lower a +:+ lower b.
Proof. induction a as [|c a IH]; simpl; [done|]. by rewrite IH. Qed.

Lemma push_word_app w l ws : push_word w (l ++ ws) = push_word w l ++ ws.
Proof. by destruct w. Qed.

Lemma words_lower s :
  words (lower s) = (lower (words s).1, lower <$> (words s).2).
Proof.
  induction s as [|c s IH]; simpl; [done|].
  rewrite IH, isspace_lower_char. destruct (words s) as [w ws]; simpl.
  destruct (isspace c); simpl; [|done].
  by destruct w.
Qed.

Lemma split_lower s : split (lower s) = lower <$> split s.
Proof.
  unfold split. rewrite words_lower. destruct (words s) as [w ws]; simpl.
  by destruct w.
Qed.

Lemma split_lstrip s : split (lstrip s) = split s.
Proof.
  induction s as [|c s IH]; simpl; [done|].
  destruct (isspace c) eqn:Hc; [|done].
  rewrite IH. unfold split; simpl. rewrite Hc. by destruct (words s).
Qed.

Lemma words_rstrip s : words (rstrip s) = words s.
Proof.
  induction s as [|c s IH]; simpl; [done|].
  destruct (rstrip s) as [|c' r] eqn:Hr.
  - rewrite <- IH. simpl. destruct (isspace c) eqn:Hc; simpl; by rewrite ?Hc.
  - rewrite <- IH. done.
Qed.

Lemma split_strip s : split (strip s) = split s.
Proof. unfold strip, split at 1. rewrite words_rstrip. apply split_lstrip. Qed.

(** Appending a text that starts with whitespace closes the last word. *)
Lemma words_app_closed a s ws :
  words s = (EmptyString, ws) ->
  words (a +:+ s) = ((words a).1, (words a).2 ++ ws).
Proof.
  intros Hs. induction a as [|c a IH]; simpl; [done|].
  rewrite IH. destruct (words a) as [w l]; simpl.
  destruct (isspace c); [|done]. by rewrite push_word_app.
Qed.

Lemma split_app_space a c b :
  isspace c = true -> split (a +:+ String c b) = split a ++ split b.
Proof.
  intros Hc.
  assert (words (String c b) = (EmptyString, split b)) as Hs.
  { simpl. rewrite Hc. unfold split. by destruct (words b). }
  unfold split at 1 2. rewrite (words_app_closed a _ _ Hs).
  destruct (words a) as [w l]; simpl. apply push_word_app.
Qed.

(** Every word of [split] is non-empty and free of whitespace, which is
    to say that splitting it gives the word back. *)
Lemma words_words s :
  words (words s).1 = ((words s).1, []) /\
  Forall (fun t => split t = [t]) (words s).2.
Proof.
  induction s as [|c s [IH1 IH2]]; simpl; [by split|].
  destruct (words s) as [w ws]; simpl in *.
  destruct (isspace c) eqn:Hc; simpl.
  - split; [done|]. destruct w as [|x w]; simpl; [done|].
    constructor; [|done]. unfold split. by rewrite IH1.
  - by rewrite IH1, Hc.
Qed.

Lemma split_words s : Forall (fun t => split t = [t]) (split s).
Proof.
  pose proof (words_words s) as [H1 H2]. unfold split.
  destruct (words s) as [w ws]; simpl in *.
  destruct w as [|x w]; simpl; [done|].
  constructor; [|done]. unfold split. by rewrite H1.
Qed.

Lemma split_join ts :
  Forall (fun t => split t = [t]) ts -> split (join " " ts) = ts.
Proof.
  induction 1 as [|t ts Ht Hts IH]; [done|].
  destruct ts as [|t' ts]; [done|].
  change (join " " (t :: t' :: ts)) with (t +:+ String " " (join " " (t' :: ts))).
  rewrite split_app_space by done. by rewrite Ht, IH.
Qed.

Lemma lower_join ts : lower (join " " ts) = join " " (lower <$> ts).
Proof.
  induction ts as [|t ts IH]; [done|].
  destruct ts as [|t' ts]; [done|].
  change (join " " (t :: t' :: ts)) with (t +:+ String " " (join " " (t' :: ts))).
  rewrite lower_app.
  change (lower (String " " (join " " (t' :: ts))))
    with (String " " (lower (join " " (t' :: ts)))).
  by rewrite IH.
Qed.

Lemma join_truthy t ts : split t = [t] -> truthy (Some (join " " (t :: ts))) = true.
Proof.
  intros Ht. destruct t as [|c t]; [done|]. by destruct ts.
Qed.

End PyStrings.

(** * Name normalization *)

Section Normalize.
Import Py.

(** The two scripts define the same function. *)
Lemma normalize_same :
  FetchSets.normalize_pokemon_name = BuildSetsData.normalize_pokemon_name.
Proof. reflexivity. Qed.

(** What [normalize_pokemon_name] computes on a string, with the
    redundant [strip] removed and [lower] moved to the words. *)
Lemma normalize_words s :
  BuildSetsData.normalize_pokemon_name (Some s) =
  match filter (fun p => (p ∉ BuildSetsData.suffixes) /\ (p ∉ BuildSetsData.prefixes))
               (lower <$> split s) with
  | [] => None
  | ts => Some (join " " ts)
  end.
Proof.
  unfold BuildSetsData.normalize_pokemon_name.
  destruct s as [|c s]; [done|].
  cbn [truthy negb default id]. rewrite split_strip, split_lower.
  by destruct (filter _ _).
Qed.

Lemma normalize_idempotent s :
  BuildSetsData.normalize_pokemon_name (BuildSetsData.normalize_pokemon_name (Some s))
  = BuildSetsData.normalize_pokemon_name (Some s).
Proof.
  rewrite (normalize_words s).
  set (keep := fun p : string => _).
  pose proof (split_words (lower s)) as Hw. rewrite split_lower in Hw.
  assert (Forall (fun t => lower t = t) (lower <$> split s)) as Hl.
  { apply Forall_fmap, Forall_true. intros t. apply lower_idem. }
  assert (Forall (fun t => split t = [t] /\ lower t = t)
                 (filter keep (lower <$> split s))) as Hts.
  { apply Forall_forall. intros t [_ Ht]%list_elem_of_filter. split.
    - by eapply Forall_forall in Hw.
    - by eapply Forall_forall in Hl. }
  destruct (filter keep (lower <$> split s)) as [|t ts] eqn:Hf; [done|].
  rewrite normalize_words. fold keep.
  rewrite split_join by (eapply Forall_impl; [exact Hts|]; by intros ? []).
  replace (lower <$> t :: ts) with (t :: ts).
  2:{ symmetry. rewrite <- (list_fmap_id (t :: ts)) at 2.
      apply Forall_fmap_ext_1. eapply Forall_impl; [exact Hts|]. by intros ? []. }
  rewrite <- Hf, list_filter_filter_r by done. by rewrite Hf.
Qed.

(** A marker word between two texts leaves no trace, in whatever case it
    is written. *)
Lemma normalize_drops_marker t t' a b :
  t ∈ BuildSetsData.suffixes ++ BuildSetsData.prefixes ->
  lower t' = t ->
  BuildSetsData.normalize_pokemon_name (Some (a +:+ " " +:+ t' +:+ " " +:+ b))
  = BuildSetsData.normalize_pokemon_name (Some (a +:+ " " +:+ b)).
Proof.
  intros Ht Hlower. rewrite !normalize_words.
  change (a +:+ " " +:+ t' +:+ " " +:+ b) with (a +:+ String " " (t' +:+ String " " b)).
  change (a +:+ " " +:+ b) with (a +:+ String " " b).
  rewrite !split_app_space by done. rewrite !fmap_app, !filter_app.
  rewrite <- (split_lower t'), Hlower.
  replace (filter _ (split t)) with (@nil string); [done|].
  repeat (apply elem_of_cons in Ht as [->|Ht]; [reflexivity|]).
  by apply elem_of_nil in Ht.
Qed.

End Normalize.

(** C7. Name normalization is idempotent in both scripts (a [None] result
    stays [None]), every marker word is removed wherever it stands between
    other words and in whatever case it is written, and
    ["dark Charizard ex"] normalizes like ["charizard"]. *)
Theorem C7_normalize_idempotent_position_independent :
  (forall s,
     BuildSetsData.normalize_pokemon_name (BuildSetsData.normalize_pokemon_name (Some s))
     = BuildSetsData.normalize_pokemon_name (Some s)) /\
  (forall s,
     FetchSets.normalize_pokemon_name (FetchSets.normalize_pokemon_name (Some s))
     = FetchSets.normalize_pokemon_name (Some s)) /\
  Forall (fun t => forall t' a b,
            Py.lower t' = t ->
            BuildSetsData.normalize_pokemon_name (Some (a +:+ " " +:+ t' +:+ " " +:+ b))
            = BuildSetsData.normalize_pokemon_name (Some (a +:+ " " +:+ b)))
         (BuildSetsData.suffixes ++ BuildSetsData.prefixes) /\
  Forall (fun t => forall t' a b,
            Py.lower t' = t ->
            FetchSets.normalize_pokemon_name (Some (a +:+ " " +:+ t' +:+ " " +:+ b))
            = FetchSets.normalize_pokemon_name (Some (a +:+ " " +:+ b)))
         (FetchSets.suffixes ++ FetchSets.prefixes) /\
  BuildSetsData.normalize_pokemon_name (Some "dark Charizard ex")
  = BuildSetsData.normalize_pokemon_name (Some "charizard") /\
  FetchSets.normalize_pokemon_name (Some "dark Charizard ex")
  = FetchSets.normalize_pokemon_name (Some "charizard") /\
  BuildSetsData.normalize_pokemon_name (Some "charizard") = Some "charizard".
Proof.
  split; [exact normalize_idempotent|].
  split; [exact normalize_idempotent|].
  split; [apply Forall_forall; intros t Ht t' a b Hlower; by eapply normalize_drops_marker|].
  split; [apply Forall_forall; intros t Ht t' a b Hlower; by eapply normalize_drops_marker|].
  repeat split; reflexivity.
Qed.

(** * Grouping *)

Section Grouping.
Context {C A : Type} (keyf : C -> option string) (infof : C -> A).

Lemma dict_get_append (k k' : string) (x : A) d :
  dict_get k' (dict_append k x d) =
  if decide (k = k') then Some (default [] (dict_get k d) ++ [x])
  else dict_get k' d.
Proof.
  induction d as [|[k0 xs] d IH]; simpl.
  - repeat case_decide; done.
  - repeat (case_decide; simpl; subst); try done.
Qed.

Lemma dict_append_keys (k : string) (x : A) d :
  (dict_append k x d).*1 = if decide (k ∈ d.*1) then d.*1 else d.*1 ++ [k].
Proof.
  induction d as [|[k0 xs] d IH]; [done|].
  cbn [dict_append]. rewrite !fmap_cons. cbn [fst].
  destruct (decide (k0 = k)) as [->|Hne].
  - rewrite decide_True; [done|left].
  - rewrite fmap_cons, IH. cbn [fst]. destruct (decide (k ∈ d.*1)) as [Hin|Hin].
    + rewrite decide_True; [done|by right].
    + rewrite decide_False; [done|]. intros [?|?]%elem_of_cons; done.
Qed.

Lemma dict_append_NoDup (k : string) (x : A) d :
  NoDup d.*1 -> NoDup (dict_append k x d).*1.
Proof.
  intros Hd. rewrite dict_append_keys. case_decide; [done|].
  apply NoDup_app. split_and!; [done| |apply NoDup_singleton].
  intros y Hy ->%list_elem_of_singleton. done.
Qed.

Lemma dict_get_elem_of (k : string) (m : list A) d :
  dict_get k d = Some m -> (k, m) ∈ d.
Proof.
  induction d as [|[k0 xs] d IH]; simpl; [done|].
  case_decide; subst.
  - intros [= ->]. left.
  - intros. right. auto.
Qed.

Lemma elem_of_dict_get (k : string) (m : list A) d :
  NoDup d.*1 -> (k, m) ∈ d -> dict_get k d = Some m.
Proof.
  induction d as [|[k0 xs] d IH]; simpl.
  - by intros _ ?%elem_of_nil.
  - intros [Hk Hd]%NoDup_cons [[= -> ->]|Hin]%elem_of_cons.
    + by rewrite decide_True.
    + rewrite decide_False; [auto|]. intros ->. apply Hk.
      apply list_elem_of_fmap. by exists (k, m).
Qed.

Lemma group_by_snoc cards c :
  group_by keyf infof (cards ++ [c]) =
  match keyf c with
  | None => group_by keyf infof cards
  | Some k => dict_append k (infof c) (group_by keyf infof cards)
  end.
Proof. unfold group_by. by rewrite foldl_snoc. Qed.

Lemma members_of_snoc k cards c :
  members_of keyf infof k (cards ++ [c]) =
  members_of keyf infof k cards ++ (if decide (keyf c = Some k) then [infof c] else []).
Proof.
  unfold members_of. rewrite filter_app, fmap_app. f_equal.
  rewrite filter_cons, filter_nil. by case_decide.
Qed.

Lemma group_by_NoDup cards : NoDup (group_by keyf infof cards).*1.
Proof.
  induction cards as [|c cards IH] using rev_ind; [constructor|].
  rewrite group_by_snoc. destruct (keyf c); [|done]. by apply dict_append_NoDup.
Qed.

(** The group under a key holds exactly the cards that carry the key. *)
Lemma group_by_get k cards :
  dict_get k (group_by keyf infof cards) = filled (members_of keyf infof k cards).
Proof.
  induction cards as [|c cards IH] using rev_ind; [done|].
  rewrite group_by_snoc, members_of_snoc.
  destruct (keyf c) as [k'|] eqn:Hk.
  - rewrite dict_get_append. destruct (decide (k' = k)) as [->|Hne].
    + rewrite decide_True by done. rewrite IH.
      by destruct (members_of keyf infof k cards).
    + rewrite decide_False by congruence. by rewrite app_nil_r.
  - rewrite decide_False by done. by rewrite app_nil_r.
Qed.

Lemma group_by_elem_of k m cards :
  (k, m) ∈ group_by keyf infof cards <->
  m ≠ [] /\ m = members_of keyf infof k cards.
Proof.
  split.
  - intros Hin. apply elem_of_dict_get in Hin; [|apply group_by_NoDup].
    rewrite group_by_get in Hin.
    destruct (members_of keyf infof k cards); simpl in Hin; [done|].
    by injection Hin as <-.
  - intros [Hne ->]. apply dict_get_elem_of. rewrite group_by_get.
    by destruct (members_of keyf infof k cards).
Qed.

(** Leaving out a card without a key changes nothing. *)
Lemma group_by_skip l1 c l2 :
  keyf c = None ->
  group_by keyf infof (l1 ++ c :: l2) = group_by keyf infof (l1 ++ l2).
Proof.
  intros Hc. unfold group_by. rewrite !foldl_app. cbn [foldl]. by rewrite Hc.
Qed.

Lemma group_by_no_keys cards :
  Forall (fun c => keyf c = None) cards -> group_by keyf infof cards = [].
Proof.
  induction cards as [|c cards IH] using rev_ind; [done|].
  intros [H1 H2]%Forall_app. rewrite group_by_snoc.
  rewrite Forall_singleton in H2. rewrite H2. auto.
Qed.

End Grouping.

Lemma local_group_cards cards :
  BuildSetsData.group_cards cards
  = group_by local_key BuildSetsData.card_info_of cards.
Proof.
  unfold BuildSetsData.group_cards, group_by. generalize (@nil (string * list CardInfo)).
  induction cards as [|c cards IH]; intros d; simpl; [done|].
  rewrite IH. f_equal. unfold BuildSetsData.group_card, local_key.
  by case_bool_decide.
Qed.

Lemma remote_group_cards cards :
  FetchSets.group_cards cards
  = group_by remote_key FetchSets.card_info_of cards.
Proof.
  unfold FetchSets.group_cards, group_by. generalize (@nil (string * list CardInfo)).
  induction cards as [|c cards IH]; intros d; simpl; [done|].
  rewrite IH. f_equal. unfold FetchSets.group_card, remote_key.
  by case_bool_decide.
Qed.

(** * The most common rarity *)

Section Rarity.
Import Py.

Lemma max_from_spec {A} (key : A -> nat) best xs :
  let r := max_from key best xs in
  (r = best \/ r ∈ xs) /\ (key best <= key r)%nat /\
  (forall x, x ∈ xs -> (key x <= key r)%nat).
Proof.
  revert best. induction xs as [|x xs IH]; intros best; simpl.
  - split_and!; [by left|done|]. by intros x ?%elem_of_nil.
  - destruct (IH (if (key best <? key x)%nat then x else best)) as (Hr & Hb & Hxs).
    destruct (Nat.ltb_spec (key best) (key x)) as [Hlt|Hge].
    + split_and!.
      * right. destruct Hr as [->|Hr]; [left|by right].
      * lia.
      * intros y [->|Hy]%elem_of_cons; auto.
    + split_and!.
      * destruct Hr as [->|Hr]; [by left|right; by right].
      * done.
      * intros y [->|Hy]%elem_of_cons; [lia|auto].
Qed.

Lemma max_key_spec {A} (key : A -> nat) xs r :
  max_key key xs = Some r ->
  r ∈ xs /\ forall x, x ∈ xs -> (key x <= key r)%nat.
Proof.
  destruct xs as [|x xs]; simpl; [done|]. intros [= <-].
  destruct (max_from_spec key x xs) as (Hr & Hb & Hxs). split.
  - destruct Hr as [->|Hr]; [left|by right].
  - intros y [->|Hy]%elem_of_cons; auto.
Qed.

Lemma count_cons y l x :
  count (y :: l) x = ((if String.eqb x y then 1 else 0) + count l x)%nat.
Proof. unfold count. simpl. by destruct (String.eqb x y). Qed.

Lemma count_not_elem_of l x : x ∉ l -> count l x = 0%nat.
Proof.
  induction l as [|y l IH]; [done|].
  intros [Hne Hx]%not_elem_of_cons. rewrite count_cons, IH by done.
  by destruct (String.eqb_spec x y).
Qed.

Lemma count_filter_nonempty l x :
  x ≠ "" -> count (filter (fun r => r ≠ "") l) x = count l x.
Proof.
  intros Hx. induction l as [|y l IH]; [done|].
  rewrite filter_cons. destruct (decide (y ≠ "")) as [Hy|Hy].
  - by rewrite !count_cons, IH.
  - apply dec_stable in Hy as ->. rewrite count_cons, IH.
    by destruct (String.eqb_spec x "").
Qed.

Context `{SetOrder}.

Lemma elem_of_iter_set l x : x ∈ iter_set l <-> x ∈ l.
Proof. by rewrite (iter_set_perm l), elem_of_elements, elem_of_list_to_set. Qed.

(** [max(set(l), key=l.count)] on a non-empty list: some element of [l]
    that no string outnumbers. *)
Lemma max_count_spec l :
  l ≠ [] ->
  exists r, max_key (count l) (iter_set l) = Some r /\
            r ∈ l /\ forall x, (count l x <= count l r)%nat.
Proof.
  intros Hl.
  destruct (max_key (count l) (iter_set l)) as [r|] eqn:Hmax.
  - exists r. apply max_key_spec in Hmax as [Hr Hmax].
    rewrite elem_of_iter_set in Hr.
    split_and!; [done..|]. intros x. destruct (decide (x ∈ l)) as [Hx|Hx].
    + apply Hmax. by rewrite elem_of_iter_set.
    + rewrite (count_not_elem_of l x Hx). lia.
  - destruct l as [|y l]; [done|].
    assert (y ∈ iter_set (y :: l)) as Hy by (rewrite elem_of_iter_set; left).
    destruct (iter_set _); [by apply elem_of_nil in Hy|done].
Qed.

Lemma remote_most_common_rarity cards :
  cards ≠ [] ->
  exists r, FetchSets.most_common_rarity cards = inr r /\
            r ∈ ci_rarity <$> cards /\
            forall x, (count (ci_rarity <$> cards) x <= count (ci_rarity <$> cards) r)%nat.
Proof.
  intros Hc. destruct (max_count_spec (ci_rarity <$> cards)) as (r & Hr & Hin & Hmax).
  { by destruct cards. }
  exists r. unfold FetchSets.most_common_rarity. by rewrite Hr.
Qed.

Lemma local_most_common_rarity cards :
  let rarities := ci_rarity <$> cards in
  exists r, BuildSetsData.most_common_rarity cards = inr r /\ r ≠ "" /\
    if decide (filter (fun r => r ≠ "") rarities = []) then r = "Common"
    else r ∈ rarities /\
         forall x, x ≠ "" -> (count rarities x <= count rarities r)%nat.
Proof.
  intros rarities. unfold BuildSetsData.most_common_rarity. fold rarities.
  destruct (filter (fun r => r ≠ "") rarities) as [|y l] eqn:Hf.
  - exists "Common". split_and!; [done..|]. by case_decide.
  - destruct (max_count_spec (y :: l)) as (r & Hr & Hin & Hmax); [done|].
    exists r. rewrite Hr. rewrite <- Hf in Hin, Hmax.
    apply list_elem_of_filter in Hin as [Hne Hin].
    split_and!; [done..|]. case_decide; [done|].
    split; [done|]. intros x Hx.
    rewrite <- (count_filter_nonempty rarities x Hx).
    rewrite <- (count_filter_nonempty rarities r Hne). apply Hmax.
Qed.

End Rarity.

(** * Printing and reading back a dex number *)

Section DexKey.
Import Py.

Lemma digits_of_uint u : digits_only (NilEmpty.string_of_uint u) = true.
Proof. induction u; simpl; done. Qed.

Lemma digit_facts c :
  is_digit c = true ->
  isspace c = false /\ Ascii.eqb c "_" = false /\
  Ascii.eqb c "-" = false /\ Ascii.eqb c "+" = false.
Proof. destruct c as [[] [] [] [] [] [] [] []]; try discriminate; done. Qed.

Lemma digits_pieces s : digits_only s = true -> pieces "_" s = (s, []).
Proof.
  induction s as [|c s IH]; simpl; [done|].
  intros [Hc Hs]%andb_prop. rewrite (IH Hs).
  destruct (digit_facts c Hc) as (_ & -> & _). done.
Qed.

Lemma digits_rstrip s : digits_only s = true -> rstrip s = s.
Proof.
  induction s as [|c s IH]; simpl; [done|].
  intros [Hc Hs]%andb_prop. rewrite (IH Hs).
  destruct (digit_facts c Hc) as (-> & _). by destruct s.
Qed.

Lemma digits_ungroup s : digits_only s = true -> ungroup true s = Some s.
Proof.
  induction s as [|c s IH]; simpl; [done|].
  intros [Hc Hs]%andb_prop. rewrite (IH Hs).
  destruct (digit_facts c Hc) as (_ & -> & _). done.
Qed.

Lemma parse_digits_of_uint u :
  u ≠ Decimal.Nil ->
  parse_digits (NilEmpty.string_of_uint u) = Some (Z.of_uint u).
Proof.
  intros Hu. pose proof (digits_of_uint u) as Hd.
  pose proof (NilEmpty.usu u) as Husu.
  unfold parse_digits.
  destruct (NilEmpty.string_of_uint u) as [|c s] eqn:Hs.
  { destruct u; simpl in Hs; done. }
  rewrite (digits_ungroup _ Hd), Husu.
  apply andb_prop in Hd as [Hc _].
  destruct (digit_facts c Hc) as (_ & -> & _). done.
Qed.

Lemma pos_to_uint_nonnil p : Pos.to_uint p ≠ Decimal.Nil.
Proof.
  intros Hp. pose proof (DecimalZ.of_to (Z.pos p)) as Hz.
  simpl in Hz. rewrite Hp in Hz. done.
Qed.

Lemma pos_of_to_uint p : Z.of_uint (Pos.to_uint p) = Z.pos p.
Proof. exact (DecimalZ.of_to (Z.pos p)). Qed.

Lemma digits_strip s : digits_only s = true -> strip s = s.
Proof.
  intros Hs. unfold strip. replace (lstrip s) with s; [by apply digits_rstrip|].
  destruct s as [|c s]; simpl; [done|].
  apply andb_prop in Hs as [Hc _]. by destruct (digit_facts c Hc) as (-> & _).
Qed.

Lemma int_of_str_digits s :
  digits_only s = true -> int_of_str s = parse_digits s.
Proof.
  intros Hs. unfold int_of_str. rewrite (digits_strip s Hs).
  destruct s as [|c s]; [done|].
  apply andb_prop in Hs as [Hc _].
  destruct c as [[] [] [] [] [] [] [] []]; try discriminate; reflexivity.
Qed.

Lemma int_of_str_minus s :
  digits_only s = true -> s ≠ "" ->
  int_of_str (String "-" s) = option_map Z.opp (parse_digits s).
Proof.
  intros Hs Hne. unfold int_of_str, strip.
  change (lstrip (String "-" s)) with (String "-" s).
  cbn [rstrip]. rewrite (digits_rstrip s Hs). by destruct s.
Qed.

(** [int(str(n)) == n] *)
Lemma int_of_str_of_int n : int_of_str (str_of_int n) = Some n.
Proof.
  destruct n as [|p|p]; [done|..]; unfold str_of_int; simpl Z.to_int;
    cbn [NilZero.string_of_int]; pose proof (pos_to_uint_nonnil p) as Hn;
    replace (NilZero.string_of_uint (Pos.to_uint p))
      with (NilEmpty.string_of_uint (Pos.to_uint p))
      by (by destruct (Pos.to_uint p)).
  - rewrite int_of_str_digits by apply digits_of_uint.
    by rewrite parse_digits_of_uint, pos_of_to_uint.
  - rewrite int_of_str_minus; [|apply digits_of_uint|by destruct (Pos.to_uint p)].
    by rewrite parse_digits_of_uint, pos_of_to_uint.
Qed.

Lemma str_of_int_pieces n : pieces "_" (str_of_int n) = (str_of_int n, []).
Proof.
  destruct n as [|p|p]; [done|..]; unfold str_of_int; simpl Z.to_int;
    cbn [NilZero.string_of_int]; pose proof (pos_to_uint_nonnil p) as Hn;
    replace (NilZero.string_of_uint (Pos.to_uint p))
      with (NilEmpty.string_of_uint (Pos.to_uint p))
      by (by destruct (Pos.to_uint p)).
  - apply digits_pieces, digits_of_uint.
  - cbn [pieces]. by rewrite digits_pieces by apply digits_of_uint.
Qed.

(** The key of a dex number starts with ["dex_"] and gives the number
    back. *)
Lemma dex_key_roundtrip n :
  startswith "dex_" ("dex_" +:+ str_of_int n) = true /\
  BuildSetsData.dex_of_key ("dex_" +:+ str_of_int n) = inr n.
Proof.
  split.
  - unfold startswith. simpl. by destruct (str_of_int n).
  - assert (forall s, pieces "_" s = (s, []) ->
                      split_on "_" ("dex_" +:+ s) !! 1%nat = Some s) as Hsplit.
    { intros s Hs. unfold split_on.
      change ("dex_" +:+ s) with (String "d" (String "e" (String "x" (String "_" s)))).
      cbn [pieces]. rewrite Hs. reflexivity. }
    unfold BuildSetsData.dex_of_key.
    rewrite (Hsplit _ (str_of_int_pieces n)). by rewrite int_of_str_of_int.
Qed.

End DexKey.

(** * Entries of one set *)

Section Results.
Context {A B : Type} (f : A -> Result B).

Lemma rmap_inr l ys :
  rmap f l = inr ys -> Forall2 (fun x y => f x = inr y) l ys.
Proof.
  revert ys. induction l as [|x l IH]; simpl; intros ys.
  - intros [= <-]. constructor.
  - destruct (f x) as [e|y] eqn:Hx; simpl; [done|].
    destruct (rmap f l) as [e|ys'] eqn:Hl; simpl; [done|].
    intros [= <-]. constructor; auto.
Qed.

Lemma rmap_total l :
  Forall (fun x => exists y, f x = inr y) l -> exists ys, rmap f l = inr ys.
Proof.
  induction 1 as [|x l [y Hy] _ [ys IH]]; simpl; [by eexists|].
  rewrite Hy, IH. simpl. by eexists.
Qed.

End Results.

Section LocalEntries.
Import Py.
Context `{SetOrder}.

Lemma elem_of_all_dex_of cards z :
  z ∈ BuildSetsData.all_dex_of cards <->
  exists c, c ∈ cards /\ z ∈ default [] (ci_dex_numbers c).
Proof.
  unfold BuildSetsData.all_dex_of.
  induction cards as [|c cards IH] using rev_ind.
  - simpl. split; [set_solver|]. by intros (c & ?%elem_of_nil & _).
  - rewrite foldl_snoc, elem_of_union, IH, elem_of_list_to_set. split.
    + intros [(c' & Hc' & Hz)|Hz].
      * exists c'. split; [|done]. apply elem_of_app. by left.
      * exists c. split; [|done]. apply elem_of_app. right. left.
    + intros (c' & [Hc'|Hc']%elem_of_app & Hz).
      * left. by exists c'.
      * apply list_elem_of_singleton in Hc' as ->. by right.
Qed.

Lemma sorted_strict (l : list Z) :
  StronglySorted Z.le l -> NoDup l -> StronglySorted Z.lt l.
Proof.
  induction 1 as [|x l Hl IH Hx]; [constructor|].
  intros [Hxl Hnd]%NoDup_cons. constructor; [auto|].
  apply Forall_forall. intros y Hy.
  assert (x <= y) by (by eapply Forall_forall in Hx).
  assert (x ≠ y) by (by intros ->). lia.
Qed.

Lemma sorted_elements (s : gset Z) :
  StronglySorted Z.lt (merge_sort Z.le (elements s)) /\
  forall z, z ∈ merge_sort Z.le (elements s) <-> z ∈ s.
Proof.
  pose proof (merge_sort_Permutation Z.le (elements s)) as Hperm.
  split.
  - apply sorted_strict.
    + apply (StronglySorted_merge_sort Z.le).
    + rewrite Hperm. apply NoDup_elements.
  - intros z. rewrite Hperm. apply elem_of_elements.
Qed.

(** What a successfully built entry holds. *)
Lemma local_build_entry_inv key cards_list e :
  BuildSetsData.build_entry (key, cards_list) = inr e ->
  pe_cards e = cards_list /\
  pe_card_count e = length cards_list /\
  BuildSetsData.most_common_rarity cards_list = inr (pe_rarity e) /\
  pe_dex_numbers e = merge_sort Z.le (elements (BuildSetsData.all_dex_of cards_list)) /\
  (if startswith "dex_" key
   then exists n, BuildSetsData.dex_of_key key = inr n /\ pe_dex_number e = Some n
   else pe_dex_number e = None).
Proof.
  unfold BuildSetsData.build_entry.
  destruct (BuildSetsData.most_common_rarity cards_list) as [?|rarity]; simpl; [done|].
  destruct (startswith "dex_" key).
  - destruct (BuildSetsData.dex_of_key key) as [?|n]; simpl; [done|].
    destruct cards_list as [|c0 cards]; simpl; [done|].
    intros [= <-]; simpl. split_and!; try done; [|by exists n].
    case_bool_decide as He; [|done]. by rewrite He, elements_empty.
  - simpl. destruct cards_list as [|c0 cards]; simpl; [done|].
    intros [= <-]; simpl. split_and!; try done.
    case_bool_decide as He; [|done]. by rewrite He, elements_empty.
Qed.

(** A non-empty group builds an entry unless its key starts with
    ["dex_"] without a readable number behind it. *)
Lemma local_build_entry_total key cards_list :
  cards_list ≠ [] ->
  (startswith "dex_" key = true -> exists n, BuildSetsData.dex_of_key key = inr n) ->
  exists e, BuildSetsData.build_entry (key, cards_list) = inr e.
Proof.
  intros Hne Hkey. unfold BuildSetsData.build_entry.
  destruct (local_most_common_rarity cards_list) as (r & -> & _). simpl.
  destruct cards_list as [|c0 cards]; [done|].
  destruct (startswith "dex_" key).
  - destruct Hkey as [n ->]; [done|]. simpl. by eexists.
  - simpl. by eexists.
Qed.

Lemma local_entry_invariants key cards_list e :
  BuildSetsData.build_entry (key, cards_list) = inr e ->
  pe_card_count e = length (pe_cards e) /\
  StronglySorted Z.lt (pe_dex_numbers e) /\
  (forall z, z ∈ pe_dex_numbers e <->
             exists c, c ∈ pe_cards e /\ z ∈ default [] (ci_dex_numbers c)) /\
  pe_rarity e ≠ "".
Proof.
  intros (Hcards & Hcount & Hrar & Hdex & _)%local_build_entry_inv.
  rewrite Hcards, Hcount, Hdex.
  destruct (sorted_elements (BuildSetsData.all_dex_of cards_list)) as [Hs Hin].
  split_and!; [done..| |].
  - intros z. by rewrite Hin, elem_of_all_dex_of.
  - destruct (local_most_common_rarity cards_list) as (r & Hr & Hne & _).
    rewrite Hrar in Hr. by injection Hr as ->.
Qed.

End LocalEntries.

Section RemoteEntries.
Import Py.
Context `{SetOrder}.

Lemma remote_build_entry_inv name cards e :
  FetchSets.build_entry (name, cards) = inr e ->
  re_name e = name /\ re_cards e = cards /\ re_card_count e = length cards /\
  FetchSets.most_common_rarity cards = inr (re_rarity e).
Proof.
  unfold FetchSets.build_entry.
  destruct (FetchSets.most_common_rarity cards) as [?|rarity]; simpl; [done|].
  by intros [= <-].
Qed.

Lemma remote_build_entry_total name cards :
  cards ≠ [] -> exists e, FetchSets.build_entry (name, cards) = inr e.
Proof.
  intros Hne. unfold FetchSets.build_entry.
  destruct (remote_most_common_rarity cards Hne) as (r & -> & _). simpl. by eexists.
Qed.

(** Aggregation in the remote script never raises. *)
Lemma remote_aggregate_total all_cards :
  exists pokemon, FetchSets.aggregate all_cards = inr pokemon.
Proof.
  unfold FetchSets.aggregate. apply rmap_total, Forall_forall.
  intros [name cards] Hin. rewrite remote_group_cards in Hin.
  apply group_by_elem_of in Hin as [Hne _]. by apply remote_build_entry_total.
Qed.

End RemoteEntries.

(** * The aggregation of one set *)

Section Aggregation.
Import Py.
Context `{SetOrder}.

Lemma local_aggregate_inv cards entries :
  BuildSetsData.aggregate cards = inr entries ->
  NoDup (BuildSetsData.group_cards cards).*1 /\
  Forall2 (fun g e => BuildSetsData.build_entry g = inr e)
          (BuildSetsData.group_cards cards) entries /\
  Forall local_entry_ok entries.
Proof.
  intros Hagg%rmap_inr. split_and!; [|done|].
  - rewrite local_group_cards. apply group_by_NoDup.
  - induction Hagg as [|[key m] e g es He _ IH]; constructor; [|done].
    by eapply local_entry_invariants.
Qed.

Lemma remote_entries_ok groups entries :
  Forall (fun g : string * list CardInfo => g.2 ≠ []) groups ->
  Forall2 (fun g e => FetchSets.build_entry g = inr e) groups entries ->
  re_name <$> entries = groups.*1 /\ Forall remote_entry_ok entries.
Proof.
  intros Hne Hagg.
  induction Hagg as [|[name m] e g es He _ IH]; [done|].
  apply Forall_cons in Hne as [Hm Hne]. simpl in Hm.
  destruct (IH Hne) as [IH1 IH2].
  apply remote_build_entry_inv in He as (Hn & Hc & Hcount & Hr).
  split; [by rewrite !fmap_cons, Hn, IH1|].
  constructor; [|done]. unfold remote_entry_ok. rewrite Hc, Hcount.
  split; [done|]. intros Hall.
  destruct (remote_most_common_rarity m Hm) as (r & Hr' & Hin & _).
  rewrite Hr in Hr'. injection Hr' as <-.
  apply list_elem_of_fmap in Hin as (c & -> & Hin).
  by eapply Forall_forall in Hall.
Qed.

Lemma remote_aggregate_inv cards entries :
  FetchSets.aggregate cards = inr entries ->
  re_name <$> entries = (FetchSets.group_cards cards).*1 /\
  NoDup (re_name <$> entries) /\
  Forall remote_entry_ok entries.
Proof.
  intros Hagg%rmap_inr.
  apply remote_entries_ok in Hagg as [Hnames Hok].
  - split_and!; [done| |done].
    rewrite Hnames, remote_group_cards. apply group_by_NoDup.
  - apply Forall_forall. intros [k m]. rewrite remote_group_cards.
    by intros [? _]%group_by_elem_of.
Qed.

Lemma local_key_unresolvable card :
  default [] (raw_nationalPokedexNumbers card) = [] ->
  BuildSetsData.normalize_pokemon_name (Some (default "" (raw_name card))) = None ->
  local_key card = None /\ remote_key card = None.
Proof.
  intros Hdex Hname. unfold local_key, remote_key, BuildSetsData.card_key,
    FetchSets.card_key. rewrite Hdex, normalize_same, Hname. simpl.
  by case_bool_decide.
Qed.

Lemma key_not_pokemon card :
  raw_supertype card ≠ Some POKEMON ->
  local_key card = None /\ remote_key card = None.
Proof.
  intros Hs. unfold local_key, remote_key. by rewrite bool_decide_eq_true_2.
Qed.

End Aggregation.

(** C8. A card without dex numbers whose name normalizes to nothing is left
    out of the grouping of both variants without an error: aggregating
    with or without it gives the same result, and a set whose only
    creature card is such a card yields a record with no entries. *)
Theorem C8_unresolvable_card_is_dropped `{Py.SetOrder} :
  forall card : RawCard,
    default [] (raw_nationalPokedexNumbers card) = [] ->
    BuildSetsData.normalize_pokemon_name (Some (default "" (raw_name card))) = None ->
    (forall l1 l2,
        BuildSetsData.aggregate (l1 ++ card :: l2) = BuildSetsData.aggregate (l1 ++ l2) /\
        FetchSets.aggregate (l1 ++ card :: l2) = FetchSets.aggregate (l1 ++ l2)) /\
    (forall l1 l2,
        Forall (fun c => raw_supertype c ≠ Some POKEMON) (l1 ++ l2) ->
        BuildSetsData.aggregate (l1 ++ card :: l2) = inr [] /\
        FetchSets.aggregate (l1 ++ card :: l2) = inr [] /\
        forall fs set_info sets_data skipped_sets,
          BuildSetsData.load_cards_for_set fs (si_id set_info) = Some (l1 ++ card :: l2) ->
          BuildSetsData.process_set fs (sets_data, skipped_sets) set_info
          = inr (sets_data ++ [set_data_of set_info []], skipped_sets)).
Proof.
  intros card Hdex Hname.
  destruct (local_key_unresolvable card Hdex Hname) as [Hl Hr].
  assert (forall l1 l2,
             BuildSetsData.aggregate (l1 ++ card :: l2) = BuildSetsData.aggregate (l1 ++ l2) /\
             FetchSets.aggregate (l1 ++ card :: l2) = FetchSets.aggregate (l1 ++ l2)) as Hskip.
  { intros l1 l2. unfold BuildSetsData.aggregate, FetchSets.aggregate.
    rewrite !local_group_cards, !remote_group_cards.
    by rewrite !group_by_skip. }
  split; [done|]. intros l1 l2 Hothers.
  assert (BuildSetsData.aggregate (l1 ++ card :: l2) = inr [] /\
          FetchSets.aggregate (l1 ++ card :: l2) = inr []) as [Ha Hb].
  { destruct (Hskip l1 l2) as [-> ->].
    unfold BuildSetsData.aggregate, FetchSets.aggregate.
    rewrite local_group_cards, remote_group_cards.
    rewrite !group_by_no_keys; [done|..];
      (eapply Forall_impl; [exact Hothers|]); intros c Hc;
      by destruct (key_not_pokemon c Hc). }
  split_and!; [done..|].
  intros fs set_info sets_data skipped_sets Hload.
  unfold BuildSetsData.process_set. by rewrite Hload, Ha.
Qed.

(** The card named "EX" of the specification, next to a trainer card. *)
Lemma C8_witness :
  BuildSetsData.aggregate (H := elements_order) ([potion] ++ ex_card :: []) = inr [] /\
  FetchSets.aggregate (H := elements_order) ([potion] ++ ex_card :: []) = inr [].
Proof.
  pose proof (C8_unresolvable_card_is_dropped (H := elements_order) ex_card
                eq_refl eq_refl) as [_ Hset].
  destruct (Hset [potion] []) as (Ha & Hb & _).
  - repeat constructor. discriminate.
  - by split.
Defined.

Section IdentityKey.
Import Py.
Context `{SetOrder}.

Lemma local_dex_key card d ds :
  raw_supertype card = Some POKEMON ->
  raw_nationalPokedexNumbers card = Some (d :: ds) ->
  BuildSetsData.card_key card = Some ("dex_" +:+ str_of_int d) /\
  local_key card = Some ("dex_" +:+ str_of_int d).
Proof.
  intros Hs Hd. unfold local_key, BuildSetsData.card_key. rewrite Hd, Hs.
  by rewrite bool_decide_eq_false_2 by (by intros []).
Qed.

Lemma rmap_elem_of {A B} (f : A -> Result B) l ys x y :
  rmap f l = inr ys -> x ∈ l -> f x = inr y -> y ∈ ys.
Proof.
  intros Hl%rmap_inr Hx Hy.
  induction Hl as [|x' y' l ys Hxy _ IH]; [by apply elem_of_nil in Hx|].
  apply elem_of_cons in Hx as [->|Hx]; [|right; auto].
  rewrite Hy in Hxy. injection Hxy as ->. left.
Qed.

End IdentityKey.

Example local_merges_pikachu :
  exists e, BuildSetsData.aggregate (H := elements_order) [pikachu_vmax; pikachu] = inr [e] /\
            pe_dex_number e = Some 25 /\ pe_card_count e = 2%nat.
Proof. eexists. split; [vm_compute; reflexivity|done]. Qed.

(** C4. The rarity of an entry is a most frequent rarity of its member
    cards, a card without the field counting as "Common". The remote
    variant counts every value; the local variant leaves empty rarities out
    of the count and answers "Common" when nothing else is left. *)
Theorem C4_rarity_is_most_frequent `{Py.SetOrder} :
  forall members : list RawCard,
    members ≠ [] ->
    let rarities := rarity_of <$> members in
    (forall name, exists e,
        FetchSets.build_entry (name, FetchSets.card_info_of <$> members) = inr e /\
        re_rarity e ∈ rarities /\
        forall x, (Py.count rarities x <= Py.count rarities (re_rarity e))%nat) /\
    (exists r,
        BuildSetsData.most_common_rarity (BuildSetsData.card_info_of <$> members) = inr r /\
        (forall key e,
            BuildSetsData.build_entry (key, BuildSetsData.card_info_of <$> members) = inr e ->
            pe_rarity e = r) /\
        (Forall (fun x => x = "") rarities -> r = "Common") /\
        (Exists (fun x => x ≠ "") rarities ->
         r ∈ rarities /\ r ≠ "" /\
         forall x, x ≠ "" -> (Py.count rarities x <= Py.count rarities r)%nat)).
Proof.
  intros members Hne rarities.
  assert (ci_rarity <$> (FetchSets.card_info_of <$> members) = rarities) as Hr.
  { rewrite <- list_fmap_compose. done. }
  assert (ci_rarity <$> (BuildSetsData.card_info_of <$> members) = rarities) as Hl.
  { rewrite <- list_fmap_compose. done. }
  split.
  - intros name.
    destruct (remote_most_common_rarity (FetchSets.card_info_of <$> members))
      as (r & Hmcr & Hin & Hmax); [by destruct members|].
    rewrite Hr in Hin, Hmax.
    exists {| re_name := name; re_rarity := r;
              re_card_count := length (FetchSets.card_info_of <$> members);
              re_cards := FetchSets.card_info_of <$> members |}.
    split; [|done]. unfold FetchSets.build_entry. by rewrite Hmcr.
  - destruct (local_most_common_rarity (BuildSetsData.card_info_of <$> members))
      as (r & Hmcr & Hnonempty & Hspec).
    rewrite Hl in Hspec. exists r. split_and!; [done|..].
    + intros key e (_ & _ & He & _)%local_build_entry_inv.
      rewrite Hmcr in He. by injection He.
    + intros Hall. case_decide as Hf; [done|]. exfalso. apply Hf.
      clear -Hall. induction Hall as [|x l -> _ IH]; [done|].
      rewrite filter_cons. by rewrite decide_False by (by intros ?).
    + intros Hex. case_decide as Hf; [|by destruct Hspec].
      exfalso. apply Exists_exists in Hex as (x & Hx & Hxne).
      eapply filter_nil_not_elem_of; [exact Hf|exact Hxne|exact Hx].
Qed.

(** Three cards, two of them with rarity "Rare". *)
Lemma C4_witness :
  exists r,
    BuildSetsData.most_common_rarity (H := elements_order)
      (BuildSetsData.card_info_of <$> [pikachu_vmax; pikachu; venusaur]) = inr r /\
    (Py.count (rarity_of <$> [pikachu_vmax; pikachu; venusaur]) "Common"
     <= Py.count (rarity_of <$> [pikachu_vmax; pikachu; venusaur]) r)%nat.
Proof.
  destruct (C4_rarity_is_most_frequent (H := elements_order)
              [pikachu_vmax; pikachu; venusaur]) as (_ & r & Hr & _ & _ & Hmax);
    [discriminate|].
  exists r. split; [exact Hr|].
  apply Hmax; [|discriminate]. apply Exists_cons_hd. discriminate.
Defined.

(** In the local variant an empty rarity is not counted: of the rarities
    "", "" and "Rare" the entry gets "Rare", which occurs once, although
    "" occurs twice. *)
Lemma C4_local_ignores_empty_rarity :
  let members := [unrated "Mew"; unrated "Mew"; rare "Mew"] in
  rarity_of <$> members = [""; ""; "Rare"] /\
  (exists e,
      BuildSetsData.build_entry (H := elements_order)
        ("mew", BuildSetsData.card_info_of <$> members) = inr e /\
      pe_rarity e = "Rare") /\
  (Py.count (rarity_of <$> members) "Rare" < Py.count (rarity_of <$> members) "")%nat.
Proof.
  split_and!; [done| |vm_compute; lia].
  eexists. split; [vm_compute; reflexivity|done].
Qed.

(** * The remote driver *)

Section RemoteDriver.
Import Py FetchSets.
Context `{SetOrder}.

Lemma fetched_for_refl id w : fetched_for id w w.
Proof. split; [done|]. exists []. by rewrite app_nil_r. Qed.

Lemma fetched_for_trans id w1 w2 w3 :
  fetched_for id w1 w2 -> fetched_for id w2 w3 -> fetched_for id w1 w3.
Proof.
  intros [Hw1 (r1 & Hs1 & Hr1)] [Hw2 (r2 & Hs2 & Hr2)]. split; [congruence|].
  exists (r1 ++ r2). rewrite Hs2, Hs1, app_assoc. split; [done|].
  by apply Forall_app.
Qed.

Lemma fetched_for_print id msg w : fetched_for id w (print msg w).2.
Proof. split; [done|]. exists []. simpl. by rewrite app_nil_r. Qed.

(** The retry loop sends the same request a number of times, never runs
    out of fuel and leaves the output file alone. *)
Lemma fetch_attempts_effects {A} req (answer : nat -> Result A) mr attempts w o w' :
  fetch_attempts req answer mr attempts w = (o, w') ->
  o ≠ OutOfFuel /\ writes w' = writes w /\
  exists n, sent w' = sent w ++ replicate n req.
Proof.
  revert w. induction attempts as [|attempt rest IH]; intros w.
  - intros [= <- <-]. split_and!; [done..|]. exists 0%nat. by rewrite app_nil_r.
  - cbn [fetch_attempts]. unfold bind at 1. cbn [http_get].
    destruct (answer (length (sent w))) as [e|response].
    + destruct (retried e); [|intros [= <- <-]; split_and!; [done..|by exists 1%nat]].
      destruct (attempt <? mr - 1)%nat;
        [|intros [= <- <-]; split_and!; [done..|by exists 1%nat]].
      unfold bind at 1. cbn [print].
      intros (Ho & Hw & n & Hs)%IH. simpl in *.
      split_and!; [done..|].
      exists (S n). rewrite Hs. simpl. by rewrite <- app_assoc.
    + intros [= <- <-]. split_and!; [done..|by exists 1%nat].
Qed.

Lemma fetch_cards_for_set_effects env id page ps w o w' :
  fetch_cards_for_set env id page ps w = (o, w') ->
  o ≠ OutOfFuel /\ fetched_for id w w'.
Proof.
  unfold fetch_cards_for_set, fetch_with_retry, bind.
  match goal with |- context [fetch_attempts ?r ?a ?m ?l w] =>
    pose proof (fetch_attempts_effects r a m l w) as Heff;
    destruct (fetch_attempts r a m l w) as [o1 w1] end.
  destruct (Heff _ _ eq_refl) as (Ho & Hw & n & Hs).
  assert (fetched_for id w w1) as Hf.
  { split; [done|]. eexists. split; [exact Hs|]. by apply Forall_replicate. }
  destruct o1 as [[response|]|e|]; intros [= <- <-]; done.
Qed.

Lemma fetch_pages_effects fuel env id page all_cards w o w' :
  fetch_pages fuel env id page all_cards w = (o, w') -> fetched_for id w w'.
Proof.
  revert page all_cards w. induction fuel as [|fuel IH]; intros page all_cards w.
  - cbn [fetch_pages]. unfold out_of_fuel. intros [= <- <-]. apply fetched_for_refl.
  - cbn [fetch_pages]. unfold bind at 1. cbn [print].
    set (w0 := {| sent := sent w; writes := writes w;
                  printed := printed w ++ [Fetching_page page] |}).
    assert (fetched_for id w w0) as Hw0 by apply (fetched_for_print id _ w).
    unfold bind.
    pose proof (fetch_cards_for_set_effects env id page page_size w0) as Heff.
    destruct (fetch_cards_for_set env id page page_size w0) as [o1 w1].
    destruct (Heff _ _ eq_refl) as [_ Hf].
    pose proof (fetched_for_trans _ _ _ _ Hw0 Hf) as Hw1.
    destruct o1 as [result|e|]; [|by intros [= <- <-]..].
    destruct (page >=? totalCount result / page_size + 1); [by intros [= <- <-]|].
    intros Hrec%IH. exact (fetched_for_trans _ _ _ _ Hw1 Hrec).
Qed.

(** Saving the progress always returns: a failed write only changes the
    message printed. *)
Lemma save_progress_spec env sets_data w :
  save_progress env sets_data w =
  (Returned (),
   {| sent := sent w;
      writes := writes w ++ [sets_data];
      printed := printed w ++
        [match file_write env (length (writes w)) sets_data with
         | Some e => Could_not_save (str_of_exception e)
         | None => Saved_progress (length sets_data)
         end] |}).
Proof.
  unfold save_progress, try_except, bind, write_file, print.
  by destruct (file_write env (length (writes w)) sets_data).
Qed.

(** The body of the outer [try], from the outcome of the page loop. *)
Lemma try_set_spec fuel env set_info sets_data w :
  try_set fuel env set_info sets_data w =
  match fetch_pages fuel env (si_id set_info) 1 [] w with
  | (Returned all_cards, w1) =>
      let w2 := (print (Found_cards (length all_cards)) w1).2 in
      match FetchSets.aggregate all_cards with
      | inl e => (Raised e, w2)
      | inr pokemon =>
          let sets_data' := sets_data ++ [set_data_of set_info pokemon] in
          (Returned sets_data',
           (save_progress env sets_data' (print (Extracted (length pokemon)) w2).2).2)
      end
  | (Raised e, w1) => (Raised e, w1)
  | (OutOfFuel, w1) => (OutOfFuel, w1)
  end.
Proof.
  unfold try_set. unfold bind at 1.
  destruct (fetch_pages fuel env (si_id set_info) 1 [] w) as [[all_cards|e|] w1];
    [|done..].
  unfold bind at 1. cbn [print]. unfold bind at 1.
  destruct (FetchSets.aggregate all_cards) as [e|pokemon]; [done|].
  cbn [lift ret]. unfold bind at 1. cbn [print]. unfold bind at 1.
  cbv zeta. rewrite !save_progress_spec. reflexivity.
Qed.

(** One iteration of the loop over the sets, from the outcome of the
    body of its [try]. *)
Lemma process_set_spec fuel env processed sets_data failed_sets idx set_info w :
  process_set fuel env processed (sets_data, failed_sets) (idx, set_info) w =
  if bool_decide (si_id set_info ∈ processed) then
    (Returned (sets_data, failed_sets), (print (Skipping idx (si_id set_info)) w).2)
  else
    match try_set fuel env set_info sets_data
                  (print (Processing idx (si_id set_info)) w).2 with
    | (Returned sets_data', w1) => (Returned (sets_data', failed_sets), w1)
    | (Raised e, w1) =>
        (Returned (sets_data,
                   failed_sets ++ [{| failed_id := si_id set_info;
                                      failed_name := si_name set_info;
                                      failed_error := str_of_exception e |}]),
         (print Skipping_to_next (print (FAILED (str_of_exception e)) w1).2).2)
    | (OutOfFuel, w1) => (OutOfFuel, w1)
    end.
Proof.
  unfold process_set. case_bool_decide; [done|].
  unfold bind at 1. cbn [print]. unfold try_except. unfold bind at 1.
  by destruct (try_set _ _ _ _ _) as [[sd'|e|] w1].
Qed.

(** What one iteration can do: skip a set, append its record, or record
    its failure; it never raises, and it asks for cards of this set only. *)
Lemma process_set_cases fuel env processed sets_data failed_sets idx set_info w o w' :
  process_set fuel env processed (sets_data, failed_sets) (idx, set_info) w = (o, w') ->
  match o with
  | Returned (sets_data', failed_sets') =>
      (si_id set_info ∈ processed /\ sets_data' = sets_data /\
       failed_sets' = failed_sets /\ sent w' = sent w /\ writes w' = writes w) \/
      ((si_id set_info ∉ processed) /\ failed_sets' = failed_sets /\
       fetched_for (si_id set_info) w
         {| sent := sent w'; writes := writes w; printed := printed w' |} /\
       exists sr, sets_data' = sets_data ++ [sr] /\ sr_id sr = si_id set_info /\
                  built_remotely sr /\ writes w' = writes w ++ [sets_data']) \/
      ((si_id set_info ∉ processed) /\ sets_data' = sets_data /\
       fetched_for (si_id set_info) w w' /\
       exists e, failed_sets' =
                 failed_sets ++ [{| failed_id := si_id set_info;
                                    failed_name := si_name set_info;
                                    failed_error := e |}])
  | Raised _ => False
  | OutOfFuel => si_id set_info ∉ processed
  end.
Proof.
  rewrite process_set_spec. case_bool_decide as Hin.
  { intros [= <- <-]. left. done. }
  rewrite try_set_spec.
  set (w0 := (print (Processing idx (si_id set_info)) w).2).
  pose proof (fetch_pages_effects fuel env (si_id set_info) 1 [] w0) as Heff.
  destruct (fetch_pages fuel env (si_id set_info) 1 [] w0) as [[all_cards|e|] w1].
  - specialize (Heff _ _ eq_refl).
    destruct (remote_aggregate_total all_cards) as [pokemon Hagg]. rewrite Hagg.
    cbv zeta. rewrite save_progress_spec. intros [= <- <-]. right. left.
    destruct Heff as [Hw (reqs & Hs & Hr)]. simpl in *.
    split_and!; [done..| |].
    + split; [done|]. by exists reqs.
    + eexists. split_and!; [done|done| |by rewrite Hw].
      by exists set_info, all_cards, pokemon.
  - specialize (Heff _ _ eq_refl). intros [= <- <-]. right. right.
    split_and!; [done..| |by eexists].
    destruct Heff as [Hw (reqs & Hs & Hr)]. split; [done|]. by exists reqs.
  - by intros [= <- <-].
Qed.

(** The loop over the sets: it never raises, keeps what was accumulated,
    and every set that was not processed before is either appended or
    recorded as failed. *)
Lemma for_each_process_set fuel env processed items sets_data failed_sets w o w' :
  for_each (process_set fuel env processed) (sets_data, failed_sets) items w = (o, w') ->
  match o with
  | Returned (sets_data', failed_sets') =>
      exists new newf reqs,
        sets_data' = sets_data ++ new /\
        failed_sets' = failed_sets ++ newf /\
        sent w' = sent w ++ reqs /\
        (sr_id <$> new) ++ (failed_id <$> newf)
          ≡ₚ filter (fun id => id ∉ processed) ((fun it => si_id it.2) <$> items) /\
        sublist (sr_id <$> new) ((fun it => si_id it.2) <$> items) /\
        Forall built_remotely new /\
        Forall (fun r => exists id, request_set_id r = Some id /\ id ∉ processed) reqs
  | Raised _ => False
  | OutOfFuel => True
  end.
Proof.
  revert sets_data failed_sets w.
  induction items as [|[idx set_info] items IH]; intros sets_data failed_sets w.
  - intros [= <- <-]. exists [], [], []. by rewrite !app_nil_r.
  - cbn [for_each]. unfold bind at 1.
    pose proof (process_set_cases fuel env processed sets_data failed_sets
                  idx set_info w) as Hstep.
    destruct (process_set fuel env processed (sets_data, failed_sets)
                (idx, set_info) w) as [[[sd1 fl1]|e|] w1];
      specialize (Hstep _ _ eq_refl); [|done|by intros [= <- <-]].
    intros Hrest. specialize (IH _ _ _ Hrest).
    destruct o as [[sd' fl']|e|]; [|done..].
    destruct IH as (new & newf & reqs & -> & -> & Hsent & Hperm & Hsub & Hbuilt & Hreqs).
    rewrite fmap_cons, filter_cons. cbn [snd].
    destruct Hstep as [(Hin & -> & -> & Hs & _)
                      |[(Hin & -> & Hf & sr & -> & Hid & Hsr & _)
                       |(Hin & -> & Hf & err & ->)]].
    + rewrite decide_False by (by intros ?).
      exists new, newf, reqs. rewrite Hsent, Hs.
      split_and!; [done..| |done|done]. by apply sublist_cons.
    + rewrite decide_True by done.
      destruct Hf as [_ (r1 & Hs1 & Hr1)]. simpl in Hs1.
      exists (sr :: new), newf, (r1 ++ reqs).
      rewrite Hsent, Hs1, <- !app_assoc. simpl. rewrite Hid.
      split_and!; [done..| | | |].
      * by constructor.
      * by apply sublist_skip.
      * by constructor.
      * apply Forall_app. split; [|done].
        eapply Forall_impl; [exact Hr1|]. intros r Hr. by exists (si_id set_info).
    + rewrite decide_True by done.
      destruct Hf as [_ (r1 & Hs1 & Hr1)].
      eexists new, (_ :: newf), (r1 ++ reqs).
      rewrite Hsent, Hs1, <- !app_assoc. simpl.
      split_and!; [done..| | | |].
      * rewrite <- Hperm. symmetry. apply Permutation_middle.
      * by apply sublist_cons.
      * done.
      * apply Forall_app. split; [|done].
        eapply Forall_impl; [exact Hr1|]. intros r Hr. by exists (si_id set_info).
Qed.

(** ** Fuel *)

Lemma fetch_attempts_answer {A} req (answer : nat -> Result A) mr attempts w r w' :
  fetch_attempts req answer mr attempts w = (Returned (Some r), w') ->
  exists k, answer k = inr r.
Proof.
  revert w. induction attempts as [|attempt rest IH]; intros w; [done|].
  cbn [fetch_attempts]. unfold bind at 1. cbn [http_get].
  destruct (answer (length (sent w))) as [e|response] eqn:Hk.
  - destruct (retried e); [|done]. destruct (attempt <? mr - 1)%nat; [|done].
    unfold bind at 1. cbn [print]. apply IH.
  - intros [= <- <-]. by eexists.
Qed.

Lemma fetch_cards_for_set_answer env id page ps w p w' :
  fetch_cards_for_set env id page ps w = (Returned p, w') ->
  exists k, http_cards env k id page ps = inr p.
Proof.
  unfold fetch_cards_for_set, fetch_with_retry, bind.
  match goal with |- context [fetch_attempts ?r ?a ?m ?l w] =>
    pose proof (fetch_attempts_answer r a m l w) as Hans;
    destruct (fetch_attempts r a m l w) as [[[response|]|e|] w1] end; try done.
  intros [= <- <-]. by eapply Hans.
Qed.

(** With totals bounded, the page loop ends before the fuel does. *)
Lemma fetch_pages_fuel env bound fuel id page all_cards w :
  totals_bounded env bound ->
  (0 < fuel)%nat -> bound / page_size + 1 - page < Z.of_nat fuel ->
  (fetch_pages fuel env id page all_cards w).1 ≠ OutOfFuel.
Proof.
  intros Hb. revert page all_cards w.
  induction fuel as [|fuel IH]; intros page all_cards w Hpos Hfuel; [lia|].
  cbn [fetch_pages]. unfold bind at 1. cbn [print]. unfold bind.
  match goal with |- context [fetch_cards_for_set env id page page_size ?w0] =>
    pose proof (fetch_cards_for_set_effects env id page page_size w0) as Heff;
    pose proof (fetch_cards_for_set_answer env id page page_size w0) as Hans;
    destruct (fetch_cards_for_set env id page page_size w0) as [[result|e|] w1] end;
    [|done|by destruct (Heff _ _ eq_refl)].
  destruct (Hans _ _ eq_refl) as [k Hk]. apply Hb in Hk.
  destruct (Z.geb_spec page (totalCount result / page_size + 1)) as [Hge|Hlt]; [done|].
  assert (totalCount result / page_size <= bound / page_size)
    by (apply Z.div_le_mono; [done|lia]).
  apply IH; lia.
Qed.

Lemma process_set_fuel env bound fuel processed st item w :
  totals_bounded env bound -> 0 <= bound ->
  bound / page_size + 1 < Z.of_nat fuel ->
  (process_set fuel env processed st item w).1 ≠ OutOfFuel.
Proof.
  intros Hb Hpos Hfuel. destruct st as [sets_data failed_sets], item as [idx set_info].
  rewrite process_set_spec. case_bool_decide; [done|]. rewrite try_set_spec.
  assert (0 <= bound / page_size) by (by apply Z.div_pos).
  match goal with |- context [fetch_pages fuel env ?id 1 [] ?w0] =>
    pose proof (fetch_pages_fuel env bound fuel id 1 [] w0 Hb) as Hf;
    destruct (fetch_pages fuel env id 1 [] w0) as [[all_cards|e|] w1] end.
  - destruct (remote_aggregate_total all_cards) as [pokemon ->]. done.
  - done.
  - simpl in Hf. exfalso. apply Hf; [lia|lia|done].
Qed.

Lemma for_each_fuel env bound fuel processed items st w :
  totals_bounded env bound -> 0 <= bound ->
  bound / page_size + 1 < Z.of_nat fuel ->
  (for_each (process_set fuel env processed) st items w).1 ≠ OutOfFuel.
Proof.
  intros Hb Hpos Hfuel. revert st w.
  induction items as [|item items IH]; intros st w; [done|].
  cbn [for_each]. unfold bind.
  pose proof (process_set_fuel env bound fuel processed st item w Hb Hpos Hfuel) as Hstep.
  destruct (process_set fuel env processed st item w) as [[st'|e|] w1]; [|done..].
  apply IH.
Qed.

End RemoteDriver.

Section RemoteRun.
Import Py FetchSets.
Context `{SetOrder}.

Lemma fetch_attempts_again {A} req (answer : nat -> Result A) mr attempt rest w e :
  answer (length (sent w)) = inl e -> retried e = true ->
  (attempt <? mr - 1)%nat = true ->
  fetch_attempts req answer mr (attempt :: rest) w =
  fetch_attempts req answer mr rest
    {| sent := sent w ++ [req];
       writes := writes w;
       printed := printed w ++ [Retry (attempt + 1) mr (2 ^ Z.of_nat attempt)] |}.
Proof.
  intros Ha Hr Hlt. cbn [fetch_attempts]. unfold bind at 1, http_get.
  by rewrite Ha, Hr, Hlt.
Qed.

Lemma fetch_attempts_last {A} req (answer : nat -> Result A) mr attempt rest w e :
  answer (length (sent w)) = inl e -> retried e = true ->
  (attempt <? mr - 1)%nat = false ->
  fetch_attempts req answer mr (attempt :: rest) w =
  (Raised e, {| sent := sent w ++ [req]; writes := writes w; printed := printed w |}).
Proof.
  intros Ha Hr Hlt. cbn [fetch_attempts]. unfold bind at 1, http_get.
  by rewrite Ha, Hr, Hlt.
Qed.

(** Three refused attempts: the last exception leaves [fetch_with_retry]
    after two announced retries. *)
Lemma fetch_with_retry_exhausted {A} req (answer : nat -> Result A) w e0 e1 e2 :
  answer (length (sent w)) = inl e0 ->
  answer (S (length (sent w))) = inl e1 ->
  answer (S (S (length (sent w)))) = inl e2 ->
  retried e0 = true -> retried e1 = true -> retried e2 = true ->
  fetch_with_retry req answer 3 w =
  (Raised e2,
   {| sent := sent w ++ [req; req; req];
      writes := writes w;
      printed := printed w ++ [Retry 1 3 1; Retry 2 3 2] |}).
Proof.
  intros H0 H1 H2 R0 R1 R2. unfold fetch_with_retry. cbn [seq].
  rewrite (fetch_attempts_again req answer 3 0 _ w e0) by done.
  rewrite (fetch_attempts_again req answer 3 1 _ _ e1);
    [|by cbn [sent]; rewrite length_app, Nat.add_1_r|done..].
  rewrite (fetch_attempts_last req answer 3 2 _ _ e2);
    [|by cbn [sent]; rewrite !length_app, !Nat.add_1_r|done..].
  cbn [sent writes printed]. by rewrite <- !app_assoc.
Qed.

(** An exception that is not a timeout or an HTTP error is not retried. *)
Lemma fetch_with_retry_not_retried {A} req (answer : nat -> Result A) w e :
  answer (length (sent w)) = inl e -> retried e = false ->
  fetch_with_retry req answer 3 w =
  (Raised e, {| sent := sent w ++ [req]; writes := writes w; printed := printed w |}).
Proof.
  intros H0 R0. unfold fetch_with_retry. cbn [seq fetch_attempts].
  unfold bind, http_get. by rewrite H0, R0.
Qed.

Lemma load_progress_spec env w :
  exists w', load_progress env w
             = (Returned (match output_file env with
                          | Stored sets_data =>
                              (sets_data, list_to_set (sr_id <$> sets_data))
                          | _ => ([], ∅)
                          end), w') /\
             sent w' = sent w /\ writes w' = writes w.
Proof. unfold load_progress. destruct (output_file env); by eexists. Qed.

Lemma enumerate1_ids (sets : list SetInfo) :
  (fun it : nat * SetInfo => si_id it.2) <$> enumerate1 sets = si_id <$> sets.
Proof.
  unfold enumerate1.
  transitivity (si_id <$> (zip (seq 1 (length sets)) sets).*2).
  - by rewrite <- list_fmap_compose.
  - rewrite snd_zip; [done|]. by rewrite length_seq.
Qed.

(** Once the set list has arrived, the run is the loading of the earlier
    output followed by the loop over the sets. *)
Lemma build_sets_data_spec fuel env series_filter w sets w1 :
  fetch_all_sets env series_filter w = (Returned sets, w1) ->
  exists w2,
    sent w2 = sent w1 /\ writes w2 = writes w1 /\
    build_sets_data fuel env series_filter w =
    match output_file env with
    | Stored sets_data =>
        for_each (process_set fuel env (list_to_set (sr_id <$> sets_data)))
                 (sets_data, []) (enumerate1 sets) w2
    | _ => for_each (process_set fuel env ∅) ([], []) (enumerate1 sets) w2
    end.
Proof.
  intros Hsets. unfold build_sets_data. unfold bind at 1. rewrite Hsets.
  unfold bind at 1. destruct (load_progress_spec env w1) as (w2 & -> & Hs & Hw).
  exists w2. split_and!; [done..|]. by destruct (output_file env).
Qed.

(** With totals bounded and enough fuel the run returns once the set
    list has arrived: nothing that happens to a set aborts it. *)
Lemma build_sets_data_returns fuel env series_filter w sets w1 bound :
  fetch_all_sets env series_filter w = (Returned sets, w1) ->
  totals_bounded env bound -> 0 <= bound ->
  bound / page_size + 1 < Z.of_nat fuel ->
  exists sets_data failed_sets w',
    build_sets_data fuel env series_filter w = (Returned (sets_data, failed_sets), w').
Proof.
  intros Hsets Hb Hpos Hfuel.
  destruct (build_sets_data_spec fuel env series_filter w sets w1 Hsets)
    as (w2 & _ & _ & ->).
  assert (forall processed st,
            exists sets_data failed_sets w',
              for_each (process_set fuel env processed) st (enumerate1 sets) w2
              = (Returned (sets_data, failed_sets), w')) as Hloop.
  { intros processed [sd fl].
    pose proof (for_each_fuel env bound fuel processed (enumerate1 sets) (sd, fl) w2
                  Hb Hpos Hfuel) as Hf.
    pose proof (for_each_process_set fuel env processed (enumerate1 sets) sd fl w2) as Hr.
    destruct (for_each _ _ _ _) as [[[sd' fl']|e|] w'].
    - by eexists _, _, _.
    - by destruct (Hr _ _ eq_refl).
    - done. }
  destruct (output_file env); apply Hloop.
Qed.

End RemoteRun.

Section RetriesExhausted.
Import Py FetchSets.
Context `{SetOrder}.

(** Three refused requests for the first page of a set make the body of
    the try raise the last exception. *)
Lemma try_set_retries_exhausted fuel env set_info sets_data w e0 e1 e2 :
  let n := length (sent w) in
  let id := si_id set_info in
  http_cards env n id 1 page_size = inl e0 ->
  http_cards env (S n) id 1 page_size = inl e1 ->
  http_cards env (S (S n)) id 1 page_size = inl e2 ->
  retried e0 = true -> retried e1 = true -> retried e2 = true ->
  try_set (S fuel) env set_info sets_data w =
  (Raised e2,
   {| sent := sent w ++ [GetCards id 1 page_size; GetCards id 1 page_size;
                         GetCards id 1 page_size];
      writes := writes w;
      printed := printed w ++ [Fetching_page 1; Retry 1 3 1; Retry 2 3 2] |}).
Proof.
  intros n id H0 H1 H2 R0 R1 R2. rewrite try_set_spec.
  cbn [fetch_pages]. unfold bind at 1. cbn [print]. unfold bind at 1.
  unfold fetch_cards_for_set. unfold bind at 1.
  rewrite (fetch_with_retry_exhausted _ _ _ e0 e1 e2) by done.
  cbn [sent writes printed]. by rewrite <- !app_assoc.
Qed.

End RetriesExhausted.

(** * Failures, checkpoints and resumed runs *)

(** C10. A failure while writing the progress file is caught and only
    reported: the record of the set stays in the accumulated result, nothing
    is added to the list of failures, the iteration returns, and the loop
    goes on with the following sets. Saving the progress never raises. *)
Theorem C10_failed_checkpoint_is_only_reported `{Py.SetOrder} :
  forall fuel env processed sets_data failed_sets idx set_info w all_cards w1 e,
    si_id set_info ∉ processed ->
    FetchSets.fetch_pages fuel env (si_id set_info) 1 []
      (FetchSets.print (FetchSets.Processing idx (si_id set_info)) w).2
    = (FetchSets.Returned all_cards, w1) ->
    (forall content, FetchSets.file_write env (length (FetchSets.writes w1)) content = Some e) ->
    (forall content w0, exists w0',
        FetchSets.save_progress env content w0 = (FetchSets.Returned (), w0')) /\
    exists pokemon w2,
      FetchSets.aggregate all_cards = inr pokemon /\
      FetchSets.process_set fuel env processed (sets_data, failed_sets) (idx, set_info) w
      = (FetchSets.Returned (sets_data ++ [set_data_of set_info pokemon], failed_sets), w2) /\
      FetchSets.printed w2
      = FetchSets.printed w1 ++
        [FetchSets.Found_cards (length all_cards);
         FetchSets.Extracted (length pokemon);
         FetchSets.Could_not_save (Py.str_of_exception e)] /\
      forall rest,
        FetchSets.for_each (FetchSets.process_set fuel env processed)
          (sets_data, failed_sets) ((idx, set_info) :: rest) w
        = FetchSets.for_each (FetchSets.process_set fuel env processed)
            (sets_data ++ [set_data_of set_info pokemon], failed_sets) rest w2.
Proof.
  intros fuel env processed sets_data failed_sets idx set_info w all_cards w1 e
         Hnew Hfetch Hwrite.
  split.
  { intros content w0. rewrite save_progress_spec. by eexists. }
  destruct (remote_aggregate_total all_cards) as [pokemon Hagg].
  exists pokemon.
  assert (exists w2,
    FetchSets.process_set fuel env processed (sets_data, failed_sets) (idx, set_info) w
    = (FetchSets.Returned (sets_data ++ [set_data_of set_info pokemon], failed_sets), w2) /\
    FetchSets.printed w2
    = FetchSets.printed w1 ++
      [FetchSets.Found_cards (length all_cards);
       FetchSets.Extracted (length pokemon);
       FetchSets.Could_not_save (Py.str_of_exception e)]) as (w2 & Hstep & Hprinted).
  { rewrite process_set_spec, bool_decide_eq_false_2 by done.
    rewrite try_set_spec, Hfetch, Hagg. cbv zeta. rewrite save_progress_spec.
    eexists. split; [reflexivity|]. simpl. rewrite Hwrite.
    by rewrite <- !app_assoc. }
  exists w2. split_and!; [done..|].
  intros rest. cbn [FetchSets.for_each]. unfold FetchSets.bind at 1. by rewrite Hstep.
Qed.

(** Set "A" of the sample world: its cards arrive, the disk is full. *)
Lemma C10_witness :
  exists w2,
    FetchSets.process_set (H := elements_order) 5 sample_env {["B"]} ([], [])
      (1%nat, sample_set "A" "S1") FetchSets.start
    = (FetchSets.Returned
         ([set_data_of (sample_set "A" "S1")
             [{| re_name := "pikachu"; re_rarity := "Common"; re_card_count := 1;
                 re_cards := [FetchSets.card_info_of pikachu] |};
              {| re_name := "flying pikachu"; re_rarity := "Common"; re_card_count := 1;
                 re_cards := [FetchSets.card_info_of flying_pikachu] |}]], []), w2).
Proof.
  destruct (C10_failed_checkpoint_is_only_reported (H := elements_order)
              5 sample_env {["B"]} [] [] 1%nat (sample_set "A" "S1") FetchSets.start
              [pikachu; flying_pikachu]
              {| FetchSets.sent := [FetchSets.GetCards "A" 1 50; FetchSets.GetCards "A" 2 50];
                 FetchSets.writes := [];
                 FetchSets.printed := [FetchSets.Processing 1 "A";
                                       FetchSets.Fetching_page 1;
                                       FetchSets.Fetching_page 2] |}
              (Py.Exc Py.OSError "disk full"))
    as (_ & pokemon & w2 & Hagg & Hstep & _).
  - set_solver.
  - vm_compute. reflexivity.
  - intros content. reflexivity.
  - exists w2. rewrite Hstep. vm_compute in Hagg. injection Hagg as <-. reflexivity.
Defined.

(** C9. When the body of the try for a set raises (its cards cannot be
    fetched, or aggregating them fails), the set is added to the failures
    with the text of the exception, no record is appended, and the loop
    goes on with the following sets. The loop itself never raises and only
    extends what was accumulated; with bounded totals and enough fuel the
    run returns once the set list has arrived. Three refused requests for a
    page are such an error: the last exception leaves the retries. *)
Theorem C9_failed_set_is_recorded_and_skipped `{Py.SetOrder} :
  forall fuel env processed sets_data failed_sets idx set_info w e w1,
    si_id set_info ∉ processed ->
    FetchSets.try_set fuel env set_info sets_data
      (FetchSets.print (FetchSets.Processing idx (si_id set_info)) w).2
    = (FetchSets.Raised e, w1) ->
    let failed_sets' := failed_sets ++ [failure_of set_info e] in
    (exists w2,
        FetchSets.process_set fuel env processed (sets_data, failed_sets) (idx, set_info) w
        = (FetchSets.Returned (sets_data, failed_sets'), w2) /\
        FetchSets.writes w2 = FetchSets.writes w1 /\
        forall rest,
          FetchSets.for_each (FetchSets.process_set fuel env processed)
            (sets_data, failed_sets) ((idx, set_info) :: rest) w
          = FetchSets.for_each (FetchSets.process_set fuel env processed)
              (sets_data, failed_sets') rest w2) /\
    (forall items st w0,
        match FetchSets.for_each (FetchSets.process_set fuel env processed) st items w0 with
        | (FetchSets.Returned (sets_data', failed'), _) =>
            st.1 `prefix_of` sets_data' /\ st.2 `prefix_of` failed'
        | (FetchSets.Raised _, _) => False
        | (FetchSets.OutOfFuel, _) => True
        end) /\
    (forall series_filter w0 sets w0' bound,
        FetchSets.fetch_all_sets env series_filter w0 = (FetchSets.Returned sets, w0') ->
        totals_bounded env bound -> 0 <= bound ->
        bound / FetchSets.page_size + 1 < Z.of_nat fuel ->
        exists sets_data' failed' w',
          FetchSets.build_sets_data fuel env series_filter w0
          = (FetchSets.Returned (sets_data', failed'), w')) /\
    (forall fuel0 set_info0 sets_data0 w0 e0 e1 e2,
        let n := length (FetchSets.sent w0) in
        FetchSets.http_cards env n (si_id set_info0) 1 50 = inl e0 ->
        FetchSets.http_cards env (S n) (si_id set_info0) 1 50 = inl e1 ->
        FetchSets.http_cards env (S (S n)) (si_id set_info0) 1 50 = inl e2 ->
        FetchSets.retried e0 = true -> FetchSets.retried e1 = true ->
        FetchSets.retried e2 = true ->
        exists w1,
          FetchSets.try_set (S fuel0) env set_info0 sets_data0 w0
          = (FetchSets.Raised e2, w1)).
Proof.
  intros fuel env processed sets_data failed_sets idx set_info w e w1 Hnew Hraise failed'.
  split_and!.
  - assert (FetchSets.process_set fuel env processed (sets_data, failed_sets)
              (idx, set_info) w
            = (FetchSets.Returned (sets_data, failed'),
               (FetchSets.print FetchSets.Skipping_to_next
                  (FetchSets.print (FetchSets.FAILED (Py.str_of_exception e)) w1).2).2))
      as Hstep.
    { rewrite process_set_spec, bool_decide_eq_false_2 by done. by rewrite Hraise. }
    eexists. split_and!; [exact Hstep|done|].
    intros rest. cbn [FetchSets.for_each]. unfold FetchSets.bind at 1. by rewrite Hstep.
  - intros items [sd fl] w0.
    pose proof (for_each_process_set fuel env processed items sd fl w0) as Hloop.
    destruct (FetchSets.for_each _ _ _ _) as [[[sd' fl']|e'|] w'];
      specialize (Hloop _ _ eq_refl); [|done..].
    destruct Hloop as (new & newf & _ & -> & -> & _). split; by eexists.
  - intros series_filter w0 sets w0' bound Hsets Hb Hpos Hfuel.
    by eapply build_sets_data_returns.
  - intros fuel0 set_info0 sets_data0 w0 e0 e1 e2 n H0 H1 H2 R0 R1 R2.
    eexists. by apply (try_set_retries_exhausted _ _ _ _ _ e0 e1 e2).
Qed.

(** Set "C" of the sample world: three refused requests, then the failure
    is recorded with the server's message; and the whole run over the
    sample world returns. *)
Lemma C9_witness :
  (exists w2,
      FetchSets.process_set (H := elements_order) 5 sample_env {["B"]}
        ([set_data_of (sample_set "B" "S2") []], []) (3%nat, sample_set "C" "S1")
        FetchSets.start
      = (FetchSets.Returned
           ([set_data_of (sample_set "B" "S2") []],
            [{| FetchSets.failed_id := "C"; FetchSets.failed_name := "C";
                FetchSets.failed_error := "500 Server Error" |}]), w2)) /\
  (exists sets_data failed_sets w',
      FetchSets.build_sets_data (H := elements_order) 5 sample_env NoFilter FetchSets.start
      = (FetchSets.Returned (sets_data, failed_sets), w')).
Proof.
  destruct (C9_failed_set_is_recorded_and_skipped (H := elements_order)
              5 sample_env {["B"]} [set_data_of (sample_set "B" "S2") []] []
              3%nat (sample_set "C" "S1") FetchSets.start
              (Py.Exc Py.HTTPError "500 Server Error")
              {| FetchSets.sent := [FetchSets.GetCards "C" 1 50; FetchSets.GetCards "C" 1 50;
                                    FetchSets.GetCards "C" 1 50];
                 FetchSets.writes := [];
                 FetchSets.printed := [FetchSets.Processing 3 "C"; FetchSets.Fetching_page 1;
                                       FetchSets.Retry 1 3 1; FetchSets.Retry 2 3 2] |})
    as ((w2 & Hstep & _) & _ & Hrun & _).
  - set_solver.
  - vm_compute. reflexivity.
  - split; [by exists w2|].
    eapply (Hrun NoFilter FetchSets.start _ _ 50).
    + vm_compute. reflexivity.
    + intros k set_id page page_size p. unfold sample_env. cbn [FetchSets.http_cards].
      destruct (String.eqb set_id "C"); [done|]. by intros [= <-].
    + lia.
    + vm_compute. reflexivity.
Defined.



(** * Pagination *)

Section Pagination.
Import Py FetchSets.

Lemma fetch_cards_fixed_total total cards id page w :
  fetch_cards_for_set (fixed_total_env total cards) id page page_size w =
  (Returned {| data := cards page; totalCount := total |},
   {| sent := sent w ++ [GetCards id page page_size];
      writes := writes w; printed := printed w |}).
Proof. reflexivity. Qed.

(** Against a fixed total the loop fetches the pages 1 to
    [total / page_size + 1], and page 1 alone when that is less. *)
Lemma fetch_pages_fixed_total total cards id fuel page all_cards w :
  let n := Z.to_nat (Z.max 1 (total / page_size + 2 - page)) in
  (n <= fuel)%nat ->
  fetch_pages fuel (fixed_total_env total cards) id page all_cards w =
  (Returned (all_cards ++ concat (cards <$> pages_from page n)),
   {| sent := sent w ++ ((fun p => GetCards id p page_size) <$> pages_from page n);
      writes := writes w;
      printed := printed w ++ (Fetching_page <$> pages_from page n) |}).
Proof.
  revert page all_cards w. induction fuel as [|fuel IH]; intros page all_cards w n Hn.
  { lia. }
  cbn [fetch_pages]. unfold bind at 1. cbn [print]. unfold bind at 1.
  rewrite fetch_cards_fixed_total. cbn [data totalCount sent writes printed].
  destruct (Z.geb_spec page (total / page_size + 1)) as [Hge|Hlt].
  - assert (n = 1%nat) as -> by lia. simpl. by rewrite app_nil_r.
  - assert (n = S (Z.to_nat (Z.max 1 (total / page_size + 2 - (page + 1))))) as Hn' by lia.
    rewrite IH by lia. cbn [sent writes printed]. rewrite Hn'. simpl.
    by rewrite <- !app_assoc.
Qed.

Lemma length_pages_from page n : length (pages_from page n) = n.
Proof. revert page. induction n as [|n IH]; intros page; simpl; [done|]. by rewrite IH. Qed.

End Pagination.

(** C2. Against a server whose total stays fixed the loop fetches
    [total / 50 + 1] pages. That is the least number of pages that covers
    the total when the total is not a multiple of the page size; when it is
    a positive multiple, the loop fetches one page more than that, the last
    one after [page * 50 >= total] already holds. *)
Theorem C2_page_loop_fetches_one_page_past_a_multiple :
  forall (total : Z) (cards : Z -> list RawCard) (set_id : string)
         (fuel : nat) (w : FetchSets.World),
    0 <= total ->
    (Z.to_nat (total / 50 + 1) <= fuel)%nat ->
    let pages := pages_from 1 (Z.to_nat (total / 50 + 1)) in
    FetchSets.fetch_pages fuel (fixed_total_env total cards) set_id 1 [] w
    = (FetchSets.Returned (concat (cards <$> pages)),
       {| FetchSets.sent := FetchSets.sent w ++
            ((fun p => FetchSets.GetCards set_id p 50) <$> pages);
          FetchSets.writes := FetchSets.writes w;
          FetchSets.printed := FetchSets.printed w ++ (FetchSets.Fetching_page <$> pages) |}) /\
    length pages = Z.to_nat (total / 50 + 1) /\
    (total mod 50 ≠ 0 ->
     (total / 50 + 1) * 50 >= total /\
     forall n, n * 50 >= total -> total / 50 + 1 <= n) /\
    (0 < total -> total mod 50 = 0 ->
     (total / 50) * 50 >= total /\ total / 50 < total / 50 + 1).
Proof.
  intros total cards set_id fuel w Hpos Hfuel pages.
  assert (0 <= total / 50) by (by apply Z.div_pos).
  assert (Z.to_nat (Z.max 1 (total / FetchSets.page_size + 2 - 1))
          = Z.to_nat (total / 50 + 1)) as Hn by (unfold FetchSets.page_size; lia).
  split_and!.
  - pose proof (fetch_pages_fixed_total total cards set_id fuel 1 [] w) as Hrun.
    cbv zeta in Hrun. rewrite Hn in Hrun. by apply Hrun.
  - apply length_pages_from.
  - intros Hmod. pose proof (Z.div_mod total 50). pose proof (Z.mod_pos_bound total 50).
    split; [lia|]. intros n Hn'. lia.
  - intros Htotal Hmod. pose proof (Z.div_mod total 50). lia.
Qed.

(** A set of exactly 50 cards: pages 1 and 2 are requested, although page 1
    already covers the total. *)
Lemma C2_witness :
  FetchSets.fetch_pages 5 (fixed_total_env 50 (fun _ => [])) "A" 1 [] FetchSets.start
  = (FetchSets.Returned [],
     {| FetchSets.sent := [FetchSets.GetCards "A" 1 50; FetchSets.GetCards "A" 2 50];
        FetchSets.writes := [];
        FetchSets.printed := [FetchSets.Fetching_page 1; FetchSets.Fetching_page 2] |}) /\
  1 * 50 >= 50.
Proof.
  split; [|lia].
  exact (proj1 (C2_page_loop_fetches_one_page_past_a_multiple
                  50 (fun _ => []) "A" 5 FetchSets.start
                  ltac:(lia) ltac:(vm_compute; lia))).
Defined.

(** * The series filter *)

Section SeriesFilter.
Import Py FetchSets.

(** What [fetch_all_sets] does with the set list once it has arrived. *)
Lemma fetch_all_sets_spec env series_filter w sets w1 :
  fetch_with_retry GetSets (http_sets env) 3 (print Fetching_all_sets w).2
  = (Returned (Some sets), w1) ->
  fetch_all_sets env series_filter w =
  if filter_given series_filter then
    match series_filter with
    | OneSeries name =>
        let sets' := filter (fun s => lower (default "" (si_series s)) = lower name) sets in
        (Returned sets', (print (Found_sets (length sets')) w1).2)
    | SeriesList _ =>
        match sets with
        | [] => (Returned [], (print (Found_sets 0) w1).2)
        | _ => (Raised (Exc AttributeError "'list' object has no attribute 'lower'"), w1)
        end
    | NoFilter => (Returned sets, (print (Found_sets (length sets)) w1).2)
    end
  else (Returned sets, (print (Found_sets (length sets)) w1).2).
Proof.
  intros Hsets. unfold print in Hsets. cbn [snd] in Hsets.
  unfold fetch_all_sets. unfold bind at 1. cbn [print]. unfold bind at 1.
  rewrite Hsets. unfold bind at 1. cbn [json ret].
  destruct (filter_given series_filter); [|done].
  destruct series_filter as [|name|names]; [done..|]. by destruct sets.
Qed.

End SeriesFilter.

(** C3. With a single, non-empty series name both variants select, in the
    order of the set list, exactly the descriptors whose series (empty when
    absent) equals the name up to case; a filter that is absent or empty
    selects every descriptor. *)
Theorem C3_single_series_name_is_matched_case_insensitively :
  forall (sets : list SetInfo) (name : string),
    name ≠ "" ->
    let selected := filter (fun s => Py.lower (default "" (si_series s)) = Py.lower name) sets in
    (forall cards_file,
        BuildSetsData.load_sets
          {| BuildSetsData.sets_file := Some sets; BuildSetsData.cards_file := cards_file |}
          (OneSeries name) = inr selected) /\
    (forall env w w1,
        FetchSets.fetch_with_retry FetchSets.GetSets (FetchSets.http_sets env) 3
          (FetchSets.print FetchSets.Fetching_all_sets w).2
        = (FetchSets.Returned (Some sets), w1) ->
        FetchSets.fetch_all_sets env (OneSeries name) w
        = (FetchSets.Returned selected,
           (FetchSets.print (FetchSets.Found_sets (length selected)) w1).2)) /\
    (forall s, s ∈ selected <->
               s ∈ sets /\ Py.lower (default "" (si_series s)) = Py.lower name) /\
    selected `sublist_of` sets /\
    (forall series_filter,
        filter_given series_filter = false ->
        (forall cards_file,
            BuildSetsData.load_sets
              {| BuildSetsData.sets_file := Some sets; BuildSetsData.cards_file := cards_file |}
              series_filter = inr sets) /\
        (forall env w w1,
            FetchSets.fetch_with_retry FetchSets.GetSets (FetchSets.http_sets env) 3
              (FetchSets.print FetchSets.Fetching_all_sets w).2
            = (FetchSets.Returned (Some sets), w1) ->
            FetchSets.fetch_all_sets env series_filter w
            = (FetchSets.Returned sets,
               (FetchSets.print (FetchSets.Found_sets (length sets)) w1).2))).
Proof.
  intros sets name Hname selected.
  assert (filter_given (OneSeries name) = true) as Hgiven by (by destruct name).
  split_and!.
  - intros cards_file. unfold BuildSetsData.load_sets. cbn [BuildSetsData.sets_file].
    by rewrite Hgiven.
  - intros env w w1 Hsets.
    by rewrite (fetch_all_sets_spec env (OneSeries name) w sets w1 Hsets), Hgiven.
  - intros s. unfold selected. rewrite list_elem_of_filter. tauto.
  - apply sublist_filter.
  - intros series_filter Hoff. split.
    + intros cards_file. unfold BuildSetsData.load_sets. cbn [BuildSetsData.sets_file].
      by rewrite Hoff.
    + intros env w w1 Hsets.
      by rewrite (fetch_all_sets_spec env series_filter w sets w1 Hsets), Hoff.
Qed.

(** The filter "s1" on sets of the series "S1", "S2", "S1" selects the two
    sets of "S1", in the local variant and, after one retry, in the remote
    variant. *)
Lemma C3_witness :
  BuildSetsData.load_sets sample_files (OneSeries "s1")
  = inr [sample_set "A" "S1"; sample_set "C" "S1"] /\
  exists w', FetchSets.fetch_all_sets sample_env (OneSeries "s1") FetchSets.start
             = (FetchSets.Returned [sample_set "A" "S1"; sample_set "C" "S1"], w').
Proof.
  destruct (C3_single_series_name_is_matched_case_insensitively
              sample_sets "s1" ltac:(discriminate)) as (Hlocal & Hremote & _).
  split.
  - exact (Hlocal (BuildSetsData.cards_file sample_files)).
  - eexists. apply Hremote. vm_compute. reflexivity.
Defined.

(** A list of names is compared literally by the local variant, so that
    ["s1"] selects none of the sets of "S1", and is refused by the remote
    variant. *)
Lemma C3_list_of_names_is_not_matched_case_insensitively :
  BuildSetsData.load_sets sample_files (SeriesList ["s1"]) = inr [] /\
  (exists s, s ∈ sample_sets /\ Py.lower (default "" (si_series s)) = Py.lower "s1") /\
  (exists w', FetchSets.fetch_all_sets fresh_env (SeriesList ["s1"]) FetchSets.start
              = (FetchSets.Raised
                   (Py.Exc Py.AttributeError "'list' object has no attribute 'lower'"), w')).
Proof.
  split_and!.
  - vm_compute. reflexivity.
  - exists (sample_set "A" "S1"). split; [left|reflexivity].
  - eexists. vm_compute. reflexivity.
Qed.

(** * Invariants of the records *)

Section Records.
Import Py.
Context `{SetOrder}.

Lemma local_loop_built fs sets sets_data skipped sets_data' skipped' :
  rfold (BuildSetsData.process_set fs) (sets_data, skipped) sets
  = inr (sets_data', skipped') ->
  Forall built_locally sets_data -> Forall built_locally sets_data'.
Proof.
  revert sets_data skipped.
  induction sets as [|set_info sets IH]; intros sets_data skipped; simpl.
  - by intros [= <- <-].
  - unfold BuildSetsData.process_set at 1.
    destruct (BuildSetsData.load_cards_for_set fs (si_id set_info)) as [cards|];
      simpl; [|by apply IH].
    destruct (BuildSetsData.aggregate cards) as [e|pokemon] eqn:Hagg; simpl; [done|].
    intros Hrest Hbuilt. eapply IH; [exact Hrest|].
    apply Forall_app. split; [done|]. apply Forall_singleton.
    by exists set_info, cards, pokemon.
Qed.

Lemma local_run_built fs series_filter sets_data skipped :
  BuildSetsData.build_sets_data fs series_filter = inr (sets_data, skipped) ->
  Forall built_locally sets_data.
Proof.
  unfold BuildSetsData.build_sets_data.
  destruct (BuildSetsData.load_sets fs series_filter) as [e|sets]; simpl; [done|].
  intros Hrun. by eapply local_loop_built.
Qed.

Lemma remote_run_built fuel env series_filter w sets_data failed_sets w' :
  FetchSets.build_sets_data fuel env series_filter w
  = (FetchSets.Returned (sets_data, failed_sets), w') ->
  exists new, sets_data = loaded_records env ++ new /\ Forall built_remotely new.
Proof.
  intros Hrun.
  destruct (FetchSets.fetch_all_sets env series_filter w) as [[sets|e|] w1] eqn:Hsets.
  - destruct (build_sets_data_spec fuel env series_filter w sets w1 Hsets)
      as (w2 & _ & _ & Hspec).
    rewrite Hspec in Hrun. unfold loaded_records.
    destruct (FetchSets.output_file env);
      apply for_each_process_set in Hrun
        as (new & _ & _ & -> & _ & _ & _ & _ & Hbuilt & _); by exists new.
  - unfold FetchSets.build_sets_data in Hrun. unfold FetchSets.bind in Hrun at 1.
    by rewrite Hsets in Hrun.
  - unfold FetchSets.build_sets_data in Hrun. unfold FetchSets.bind in Hrun at 1.
    by rewrite Hsets in Hrun.
Qed.

End Records.

(** The end-to-end example of the specification: a creature card and a
    trainer card give one entry, and the trainer card leaves no trace. *)
Example bulbasaur_and_potion :
  exists e, BuildSetsData.aggregate (H := elements_order) [bulbasaur; potion] = inr [e] /\
            pe_dex_number e = Some 1 /\ pe_card_count e = 1%nat /\
            pe_cards e = [BuildSetsData.card_info_of bulbasaur].
Proof. eexists. split; [vm_compute; reflexivity|done]. Qed.

(** * Further properties of the grouping *)

Section GroupingOrder.
Context {C A : Type} (keyf : C -> option string) (infof : C -> A).

Lemma first_seen_snoc l x :
  first_seen (l ++ [x]) =
  if decide (x ∈ first_seen l) then first_seen l else first_seen l ++ [x].
Proof. unfold first_seen. by rewrite foldl_snoc. Qed.

Lemma elem_of_first_seen l x : x ∈ first_seen l <-> x ∈ l.
Proof.
  induction l as [|y l IH] using rev_ind; [done|].
  rewrite first_seen_snoc, elem_of_app, list_elem_of_singleton.
  case_decide as Hy.
  - rewrite IH. split; [by left|]. intros [?| ->]; [done|]. by apply IH.
  - rewrite elem_of_app, list_elem_of_singleton, IH. done.
Qed.

Lemma NoDup_first_seen l : NoDup (first_seen l).
Proof.
  induction l as [|y l IH] using rev_ind; [apply NoDup_nil_2|].
  rewrite first_seen_snoc. case_decide as Hy; [done|].
  apply NoDup_app. split_and!; [done| |apply NoDup_singleton].
  by intros x Hx ->%list_elem_of_singleton.
Qed.

Lemma group_by_keys cards :
  (group_by keyf infof cards).*1 = first_seen (omap keyf cards).
Proof.
  induction cards as [|c cards IH] using rev_ind; [done|].
  rewrite group_by_snoc, omap_app. cbn [omap list_omap].
  destruct (keyf c) as [k|]; cbn [option_rect].
  - rewrite first_seen_snoc, dict_append_keys, IH. done.
  - by rewrite app_nil_r.
Qed.

Lemma group_by_members cards :
  group_by keyf infof cards =
  (fun k => (k, members_of keyf infof k cards)) <$> first_seen (omap keyf cards).
Proof.
  rewrite <- group_by_keys.
  assert (Hall : Forall (fun g => g.2 = members_of keyf infof g.1 cards)
                        (group_by keyf infof cards)).
  { apply Forall_forall. intros [k m] Hin.
    by apply group_by_elem_of in Hin as [_ ->]. }
  induction Hall as [|[k m] d Hg _ IH]; [done|].
  cbn in Hg. subst m. rewrite !fmap_cons. cbn [fst]. by rewrite <- IH.
Qed.

Lemma dict_append_concat (k : string) (x : A) d :
  concat (dict_append k x d).*2 ≡ₚ concat d.*2 ++ [x].
Proof.
  induction d as [|[k0 xs] d IH]; [done|].
  cbn [dict_append]. case_decide.
  - rewrite !fmap_cons. cbn [snd concat].
    rewrite <- !(assoc_L (++)). f_equiv. apply Permutation_app_comm.
  - rewrite !fmap_cons. cbn [snd concat]. rewrite IH.
    by rewrite <- (assoc_L (++)).
Qed.

Lemma group_by_concat cards :
  concat (group_by keyf infof cards).*2
  ≡ₚ infof <$> filter (fun c => is_Some (keyf c)) cards.
Proof.
  induction cards as [|c cards IH] using rev_ind; [done|].
  rewrite group_by_snoc, filter_app, fmap_app.
  destruct (keyf c) as [k|] eqn:Hk.
  - rewrite dict_append_concat, IH. f_equiv.
    rewrite filter_cons_True by (by rewrite Hk). done.
  - rewrite filter_cons_False by (rewrite Hk; by intros [? [=]]).
    by rewrite filter_nil, fmap_nil, app_nil_r.
Qed.

Lemma length_concat_sum (ls : list (list A)) :
  length (concat ls) = sum_list (length <$> ls).
Proof.
  induction ls as [|l ls IH]; [done|].
  cbn [concat]. rewrite length_app, IH. done.
Qed.

End GroupingOrder.

Section GroupedEntries.
Import Py.
Context `{SetOrder}.

Lemma local_entries_cards cards entries :
  BuildSetsData.aggregate cards = inr entries ->
  pe_cards <$> entries = (BuildSetsData.group_cards cards).*2 /\
  pe_card_count <$> entries = length <$> (BuildSetsData.group_cards cards).*2.
Proof.
  intros Hagg. apply rmap_inr in Hagg.
  induction Hagg as [|[k m] e groups entries He _ IH]; [done|].
  apply local_build_entry_inv in He as (Hc & Hn & _).
  destruct IH as [IH1 IH2].
  rewrite !fmap_cons. cbn [snd]. by rewrite Hc, Hn, IH1, IH2.
Qed.

Lemma remote_entries_cards cards entries :
  FetchSets.aggregate cards = inr entries ->
  re_name <$> entries = (FetchSets.group_cards cards).*1 /\
  re_cards <$> entries = (FetchSets.group_cards cards).*2 /\
  re_card_count <$> entries = length <$> (FetchSets.group_cards cards).*2.
Proof.
  intros Hagg. apply rmap_inr in Hagg.
  induction Hagg as [|[k m] e groups entries He _ IH]; [done|].
  apply remote_build_entry_inv in He as (Hk & Hc & Hn & _).
  destruct IH as (IH1 & IH2 & IH3).
  rewrite !fmap_cons. cbn [fst snd]. by rewrite Hk, Hc, Hn, IH1, IH2, IH3.
Qed.

Lemma members_snd {B} (f : string -> B) (l : list string) :
  ((fun k => (k, f k)) <$> l).*2 = f <$> l.
Proof. rewrite <- list_fmap_compose. done. Qed.

End GroupedEntries.

(** X1. In both variants the entries of a set come in the order in which
    their grouping keys first occur among the cards of the set, every key
    once, and the cards of an entry are the cards of its key in the order
    of the card list. (The remote variant always returns entries; its
    entry names are the keys.) *)
Theorem X1_entries_follow_first_occurrence `{Py.SetOrder} :
  forall cards : list RawCard,
    let local_keys := first_seen (omap local_key cards) in
    let remote_keys := first_seen (omap remote_key cards) in
    (forall entries,
        BuildSetsData.aggregate cards = inr entries ->
        pe_cards <$> entries
        = (fun k => members_of local_key BuildSetsData.card_info_of k cards)
            <$> local_keys) /\
    (exists entries,
        FetchSets.aggregate cards = inr entries /\
        re_name <$> entries = remote_keys /\
        re_cards <$> entries
        = (fun k => members_of remote_key FetchSets.card_info_of k cards)
            <$> remote_keys) /\
    NoDup local_keys /\ NoDup remote_keys /\
    (forall k, k ∈ local_keys <-> exists c, c ∈ cards /\ local_key c = Some k) /\
    (forall k, k ∈ remote_keys <-> exists c, c ∈ cards /\ remote_key c = Some k).
Proof.
  intros cards local_keys remote_keys. split_and!.
  - intros entries Hagg. apply local_entries_cards in Hagg as [-> _].
    rewrite local_group_cards, group_by_members. apply members_snd.
  - destruct (remote_aggregate_total cards) as [entries Hagg].
    exists entries. split; [done|].
    apply remote_entries_cards in Hagg as (-> & -> & _).
    rewrite remote_group_cards. split.
    + apply group_by_keys.
    + rewrite group_by_members. apply members_snd.
  - apply NoDup_first_seen.
  - apply NoDup_first_seen.
  - intros k. unfold local_keys. rewrite elem_of_first_seen, list_elem_of_omap. done.
  - intros k. unfold remote_keys. rewrite elem_of_first_seen, list_elem_of_omap. done.
Qed.

(** The local variant on two cards of dex number 25 around a card of dex
    number 1: two entries, the one of 25 first, with both its cards. *)
Lemma X1_witness :
  exists entries,
    BuildSetsData.aggregate (H := elements_order) [pikachu_vmax; bulbasaur; pikachu]
    = inr entries /\
    pe_cards <$> entries
    = [[BuildSetsData.card_info_of pikachu_vmax; BuildSetsData.card_info_of pikachu];
       [BuildSetsData.card_info_of bulbasaur]].
Proof.
  eexists. split; [vm_compute; reflexivity|].
  etrans.
  - apply (proj1 (X1_entries_follow_first_occurrence (H := elements_order)
                    [pikachu_vmax; bulbasaur; pikachu])).
    vm_compute. reflexivity.
  - vm_compute. reflexivity.
Defined.

(** X2. No card is lost or counted twice: in both variants the cards of all
    entries of a set together are exactly the cards that have a grouping
    key (creature cards whose key is not empty), and the card counts of the
    entries add up to their number. *)
Theorem X2_entries_partition_the_keyed_cards `{Py.SetOrder} :
  forall cards : list RawCard,
    (forall entries,
        BuildSetsData.aggregate cards = inr entries ->
        concat (pe_cards <$> entries)
        ≡ₚ BuildSetsData.card_info_of <$> filter (fun c => is_Some (local_key c)) cards /\
        sum_list (pe_card_count <$> entries)
        = length (filter (fun c => is_Some (local_key c)) cards)) /\
    (exists entries,
        FetchSets.aggregate cards = inr entries /\
        concat (re_cards <$> entries)
        ≡ₚ FetchSets.card_info_of <$> filter (fun c => is_Some (remote_key c)) cards /\
        sum_list (re_card_count <$> entries)
        = length (filter (fun c => is_Some (remote_key c)) cards)).
Proof.
  intros cards. split.
  - intros entries Hagg. apply local_entries_cards in Hagg as [-> ->].
    rewrite local_group_cards. split; [apply group_by_concat|].
    rewrite <- length_concat_sum, group_by_concat. by rewrite length_fmap.
  - destruct (remote_aggregate_total cards) as [entries Hagg].
    exists entries. split; [done|].
    apply remote_entries_cards in Hagg as (_ & -> & ->).
    rewrite remote_group_cards. split; [apply group_by_concat|].
    rewrite <- length_concat_sum, group_by_concat. by rewrite length_fmap.
Qed.

(** Three creature cards and a trainer card: the counts add up to three. *)
Lemma X2_witness :
  exists entries,
    BuildSetsData.aggregate (H := elements_order)
      [pikachu_vmax; potion; bulbasaur; pikachu] = inr entries /\
    sum_list (pe_card_count <$> entries) = 3%nat.
Proof.
  eexists. split; [vm_compute; reflexivity|].
  etrans.
  - apply (proj1 (X2_entries_partition_the_keyed_cards (H := elements_order)
                    [pikachu_vmax; potion; bulbasaur; pikachu])).
    vm_compute. reflexivity.
  - vm_compute. reflexivity.
Defined.

(** * Further properties of the local-file variant *)

Section LocalKeys.
Import Py.
Context `{SetOrder}.

Lemma members_of_elem {C A} (keyf : C -> option string) (infof : C -> A) k cards x :
  x ∈ members_of keyf infof k cards <->
  exists c, c ∈ cards /\ keyf c = Some k /\ x = infof c.
Proof.
  unfold members_of. rewrite list_elem_of_fmap. split.
  - intros (c & -> & [Hk Hc]%list_elem_of_filter). by exists c.
  - intros (c & Hc & Hk & ->). exists c. split; [done|].
    by apply list_elem_of_filter.
Qed.

Lemma dex_key_inj d n :
  "dex_" +:+ str_of_int d = "dex_" +:+ str_of_int n -> d = n.
Proof.
  intros Heq. destruct (dex_key_roundtrip d) as [_ Hd].
  destruct (dex_key_roundtrip n) as [_ Hn]. rewrite Heq in Hd. congruence.
Qed.

(** The two ways a card gets its key. *)
Lemma local_key_cases card k :
  local_key card = Some k ->
  raw_supertype card = Some POKEMON /\
  ((exists d ds, default [] (raw_nationalPokedexNumbers card) = d :: ds /\
                 k = "dex_" +:+ str_of_int d /\ dex_like_name card = false) \/
   (default [] (raw_nationalPokedexNumbers card) = [] /\
    BuildSetsData.normalize_pokemon_name (Some (default "" (raw_name card))) = Some k /\
    dex_like_name card = startswith "dex_" k)).
Proof.
  unfold local_key, dex_like_name. case_bool_decide as Hs; [done|].
  assert (raw_supertype card = Some POKEMON) as Hp.
  { destruct (decide (raw_supertype card = Some POKEMON)); [done|]. by destruct Hs. }
  rewrite bool_decide_eq_true_2 by done. cbn [andb].
  intros Hk. rewrite Hk. split; [done|]. revert Hk.
  unfold BuildSetsData.card_key.
  destruct (default [] (raw_nationalPokedexNumbers card)) as [|d ds].
  - destruct (BuildSetsData.normalize_pokemon_name _) as [[|c s]|]; cbn; try done.
    intros [= <-]. right. done.
  - intros [= <-]. left. by exists d, ds.
Qed.

Lemma name_key_members cards key x :
  startswith "dex_" key = false ->
  x ∈ members_of local_key BuildSetsData.card_info_of key cards ->
  ci_dex_numbers x = Some [] /\
  BuildSetsData.normalize_pokemon_name (Some (ci_card_name x)) = Some key.
Proof.
  intros Hs (c & _ & Hk & ->)%members_of_elem.
  apply local_key_cases in Hk as (_ & [(d & ds & _ & -> & _)|(Hd & Hn & _)]).
  - by rewrite (proj1 (dex_key_roundtrip d)) in Hs.
  - cbn. by rewrite Hd.
Qed.

Lemma dex_key_members cards n x :
  Forall (fun c => dex_like_name c = false) cards ->
  x ∈ members_of local_key BuildSetsData.card_info_of ("dex_" +:+ str_of_int n) cards ->
  exists ds, ci_dex_numbers x = Some (n :: ds).
Proof.
  intros Hplain (c & Hc & Hk & ->)%members_of_elem.
  rewrite Forall_forall in Hplain. specialize (Hplain c Hc).
  apply local_key_cases in Hk as (_ & [(d & ds & Hd & Hkey & _)|(_ & _ & Hl)]).
  - apply dex_key_inj in Hkey as <-. exists ds. cbn. by rewrite Hd.
  - rewrite Hplain in Hl. by rewrite (proj1 (dex_key_roundtrip n)) in Hl.
Qed.

(** Without dex-like names every key that starts with [dex_] was made
    from a dex number. *)
Lemma plain_keys cards k :
  Forall (fun c => dex_like_name c = false) cards ->
  k ∈ (BuildSetsData.group_cards cards).*1 ->
  startswith "dex_" k = true -> exists d, k = "dex_" +:+ str_of_int d.
Proof.
  intros Hplain Hk Hs. rewrite local_group_cards, group_by_keys in Hk.
  apply elem_of_first_seen, list_elem_of_omap in Hk as (c & Hc & Hk).
  rewrite Forall_forall in Hplain. specialize (Hplain c Hc).
  apply local_key_cases in Hk as (_ & [(d & ds & _ & -> & _)|(_ & _ & Hl)]).
  - by exists d.
  - congruence.
Qed.

Lemma local_build_entry_name key c0 cards_list e :
  BuildSetsData.build_entry (key, c0 :: cards_list) = inr e ->
  pe_name e = BuildSetsData.or_else
                (BuildSetsData.normalize_pokemon_name (Some (ci_card_name c0)))
                (if startswith "dex_" key then ci_card_name c0 else key).
Proof.
  unfold BuildSetsData.build_entry.
  destruct (BuildSetsData.most_common_rarity _) as [?|rarity]; simpl; [done|].
  destruct (startswith "dex_" key).
  - destruct (BuildSetsData.dex_of_key key) as [?|n]; simpl; [done|].
    by intros [= <-].
  - simpl. by intros [= <-].
Qed.

Lemma or_else_Some k y :
  truthy (Some k) = true -> BuildSetsData.or_else (Some k) y = k.
Proof. unfold BuildSetsData.or_else. by intros ->. Qed.

Lemma normalize_truthy s k :
  BuildSetsData.normalize_pokemon_name (Some s) = Some k -> truthy (Some k) = true.
Proof.
  rewrite normalize_words.
  destruct (filter _ _) as [|t ts] eqn:Hf; [done|]. intros [= <-].
  apply join_truthy.
  assert (t ∈ filter (fun p => (p ∉ BuildSetsData.suffixes) /\
                               (p ∉ BuildSetsData.prefixes)) (lower <$> split s))
    as [_ Ht]%list_elem_of_filter by (rewrite Hf; left).
  rewrite <- split_lower in Ht.
  pose proof (split_words (lower s)) as Hw. rewrite Forall_forall in Hw. auto.
Qed.

Lemma NoDup_omap_inj {A B} (f : A -> option B) (l : list A) :
  (forall x y b, x ∈ l -> y ∈ l -> f x = Some b -> f y = Some b -> x = y) ->
  NoDup l -> NoDup (omap f l).
Proof.
  intros Hinj Hl. induction Hl as [|x l Hx Hl IH]; [apply NoDup_nil_2|].
  cbn [omap list_omap]. destruct (f x) as [b|] eqn:Hfx.
  - cbn. apply NoDup_cons. split.
    + intros (y & Hy & Hfy)%list_elem_of_omap.
      assert (x = y) as -> by (eapply Hinj; [left|by right|done..]). done.
    + apply IH. intros x' y' b' Hx' Hy'. apply Hinj; by right.
  - cbn. apply IH. intros x' y' b' Hx' Hy'. apply Hinj; by right.
Qed.

(** The dex number an entry gets from its key. *)
Lemma local_entry_dex_number groups entries :
  Forall2 (fun g e => BuildSetsData.build_entry g = inr e) groups entries ->
  pe_dex_number <$> entries
  = (fun g => if startswith "dex_" g.1
              then match BuildSetsData.dex_of_key g.1 with
                   | inr n => Some n
                   | inl _ => None
                   end
              else None) <$> groups.
Proof.
  induction 1 as [|[k m] e groups entries He _ IH]; [done|].
  rewrite !fmap_cons, IH. f_equal. cbn [fst].
  apply local_build_entry_inv in He as (_ & _ & _ & _ & He).
  destruct (startswith "dex_" k); [|done].
  by destruct He as (n & -> & ->).
Qed.

End LocalKeys.

Section PlainEntries.
Import Py.
Context `{SetOrder}.

(** An entry built from a group, when no card has a dex-like name. *)
Lemma plain_entry cards k m e :
  Forall (fun c => dex_like_name c = false) cards ->
  (k, m) ∈ BuildSetsData.group_cards cards ->
  BuildSetsData.build_entry (k, m) = inr e ->
  if startswith "dex_" k
  then exists n, k = "dex_" +:+ str_of_int n /\ pe_dex_number e = Some n /\
                 n ∈ pe_dex_numbers e /\
                 Forall (fun c => exists ds, ci_dex_numbers c = Some (n :: ds))
                        (pe_cards e)
  else pe_dex_number e = None /\ pe_name e = k /\ pe_dex_numbers e = [] /\
       Forall (fun c => ci_dex_numbers c = Some [] /\
                        BuildSetsData.normalize_pokemon_name (Some (ci_card_name c))
                        = Some k) (pe_cards e).
Proof.
  intros Hplain Hin He.
  pose proof (plain_keys cards k Hplain) as Hkeys.
  assert (k ∈ (BuildSetsData.group_cards cards).*1) as Hk.
  { apply list_elem_of_fmap. by exists (k, m). }
  specialize (Hkeys Hk).
  rewrite local_group_cards in Hin. apply group_by_elem_of in Hin as [Hne Hm].
  pose proof (local_entry_invariants _ _ _ He) as (_ & _ & Hdex & _).
  pose proof (local_build_entry_inv _ _ _ He) as (Hcards & _ & _ & _ & Hnum).
  destruct (startswith "dex_" k) eqn:Hs.
  - destruct Hkeys as [d ->]; [done|].
    destruct Hnum as (n & Hn & Hnum).
    rewrite (proj2 (dex_key_roundtrip d)) in Hn. injection Hn as <-.
    assert (Forall (fun c => exists ds, ci_dex_numbers c = Some (d :: ds)) (pe_cards e))
      as Hall.
    { rewrite Hcards, Hm. apply Forall_forall. intros x Hx.
      by eapply dex_key_members. }
    exists d. split_and!; try done.
    apply Hdex. rewrite Hcards in Hall |- *.
    destruct m as [|c0 m]; [done|].
    apply Forall_cons in Hall as [[ds Hc0] _].
    exists c0. split; [left|]. rewrite Hc0. left.
  - assert (Forall (fun c => ci_dex_numbers c = Some [] /\
                             BuildSetsData.normalize_pokemon_name
                               (Some (ci_card_name c)) = Some k) (pe_cards e))
      as Hall.
    { rewrite Hcards, Hm. apply Forall_forall. intros x Hx.
      by eapply name_key_members. }
    split_and!; try done.
    + rewrite Hcards in Hall. destruct m as [|c0 m]; [done|].
      rewrite (local_build_entry_name _ _ _ _ He), Hs.
      apply Forall_cons in Hall as [[_ ->] _].
      unfold BuildSetsData.or_else. by destruct (truthy (Some k)).
    + destruct (pe_dex_numbers e) as [|z zs]; [done|].
      destruct (proj1 (Hdex z)) as (c & Hc & Hz); [left|].
      rewrite Forall_forall in Hall. destruct (Hall c Hc) as [Hnil _].
      rewrite Hnil in Hz. by apply elem_of_nil in Hz.
Qed.

Lemma plain_aggregate_total cards :
  Forall (fun c => dex_like_name c = false) cards ->
  exists entries, BuildSetsData.aggregate cards = inr entries.
Proof.
  intros Hplain. apply rmap_total, Forall_forall. intros [k m] Hin.
  apply local_build_entry_total.
  - rewrite local_group_cards in Hin. by apply group_by_elem_of in Hin as [? _].
  - intros Hs. destruct (plain_keys cards k Hplain) as [d ->]; [|done|].
    + apply list_elem_of_fmap. by exists (k, m).
    + exists d. apply dex_key_roundtrip.
Qed.

Lemma plain_identities cards groups entries :
  Forall (fun c => dex_like_name c = false) cards ->
  groups ⊆ BuildSetsData.group_cards cards ->
  Forall2 (fun g e => BuildSetsData.build_entry g = inr e) groups entries ->
  entry_identity <$> entries
  = (fun g => if startswith "dex_" g.1
              then match BuildSetsData.dex_of_key g.1 with
                   | inr n => inl n
                   | inl _ => inr g.1
                   end
              else inr g.1) <$> groups.
Proof.
  intros Hplain Hsub Hall.
  induction Hall as [|[k m] e groups entries He _ IH]; [done|].
  rewrite !fmap_cons, IH by (intros g Hg; apply Hsub; by right). f_equal.
  cbn [fst]. unfold entry_identity.
  pose proof (plain_entry cards k m e Hplain) as Hent.
  destruct (startswith "dex_" k).
  - destruct Hent as (n & -> & -> & _); [apply Hsub; left|done|].
    by rewrite (proj2 (dex_key_roundtrip n)).
  - destruct Hent as (-> & -> & _); [apply Hsub; left|done|]. done.
Qed.

(** Without dex-like names no two entries of a card list have the same
    identity. *)
Lemma plain_identities_NoDup cards entries :
  Forall (fun c => dex_like_name c = false) cards ->
  Forall2 (fun g e => BuildSetsData.build_entry g = inr e)
          (BuildSetsData.group_cards cards) entries ->
  NoDup (entry_identity <$> entries).
Proof.
  intros Hplain Hall.
  assert (NoDup (BuildSetsData.group_cards cards).*1) as Hnd.
  { rewrite local_group_cards. apply group_by_NoDup. }
  rewrite (plain_identities cards _ _ Hplain (reflexivity _) Hall).
  apply NoDup_fmap_2_strong; [|by eapply NoDup_fmap_1].
  assert (forall k1 m1 k2 m2,
             (k1, m1) ∈ BuildSetsData.group_cards cards ->
             (k2, m2) ∈ BuildSetsData.group_cards cards ->
             k1 = k2 -> (k1, m1) = (k2, m2)) as Hsame.
  { intros k1 m1 k2 m2 H1 H2 <-. f_equal.
    rewrite local_group_cards in H1, H2.
    apply group_by_elem_of in H1 as [_ ->]. by apply group_by_elem_of in H2 as [_ ->]. }
  assert (forall k m, (k, m) ∈ BuildSetsData.group_cards cards ->
                      startswith "dex_" k = true ->
                      exists d, k = "dex_" +:+ str_of_int d /\
                                BuildSetsData.dex_of_key k = inr d) as Hdex.
  { intros k m Hin Hs. destruct (plain_keys cards k Hplain) as [d ->]; [|done|].
    - apply list_elem_of_fmap. by exists (k, m).
    - exists d. split; [done|]. apply dex_key_roundtrip. }
  intros [k1 m1] [k2 m2] H1 H2. cbn [fst]. intros Heq.
  apply Hsame; [done..|].
  destruct (startswith "dex_" k1) eqn:Hs1, (startswith "dex_" k2) eqn:Hs2.
  + destruct (Hdex _ _ H1 Hs1) as (d1 & -> & Hd1).
    destruct (Hdex _ _ H2 Hs2) as (d2 & -> & Hd2).
    rewrite Hd1, Hd2 in Heq. by injection Heq as ->.
  + destruct (Hdex _ _ H1 Hs1) as (d1 & -> & Hd1). by rewrite Hd1 in Heq.
  + destruct (Hdex _ _ H2 Hs2) as (d2 & -> & Hd2). by rewrite Hd2 in Heq.
  + by injection Heq.
Qed.

End PlainEntries.

(** X3. When no creature card without dex numbers has a name key that
    starts with "dex_", the local variant builds the entries of every card
    list without raising; the entries are told apart by their dex number, or
    by their name when they have none; every card of an entry with dex
    number n has n as its first dex number and n is among the entry's
    dex numbers; an entry without dex number holds only cards without dex
    numbers, whose names all normalize to the entry's name. *)
Theorem X3_local_entries_are_told_apart `{Py.SetOrder} :
  forall cards : list RawCard,
    Forall (fun c => dex_like_name c = false) cards ->
    exists entries,
      BuildSetsData.aggregate cards = inr entries /\
      NoDup (entry_identity <$> entries) /\
      Forall (fun e =>
                match pe_dex_number e with
                | Some n =>
                    n ∈ pe_dex_numbers e /\
                    Forall (fun c => exists ds, ci_dex_numbers c = Some (n :: ds))
                           (pe_cards e)
                | None =>
                    pe_dex_numbers e = [] /\
                    Forall (fun c =>
                              ci_dex_numbers c = Some [] /\
                              BuildSetsData.normalize_pokemon_name (Some (ci_card_name c))
                              = Some (pe_name e))
                           (pe_cards e)
                end) entries.
Proof.
  intros cards Hplain.
  destruct (plain_aggregate_total cards Hplain) as [entries Hagg].
  exists entries. split; [done|].
  apply local_aggregate_inv in Hagg as (Hnd & Hall & _). split.
  - by apply (plain_identities_NoDup cards).
  - assert (Forall (fun g => g ∈ BuildSetsData.group_cards cards)
                   (BuildSetsData.group_cards cards)) as Hin by by apply Forall_forall.
    revert Hin Hall. generalize (BuildSetsData.group_cards cards) at 2 3.
    intros groups Hin Hgroups. clear Hnd.
    induction Hgroups as [|[k m] e groups entries' He _ IH]; [done|].
    apply Forall_cons in Hin as [Hin Hins]. constructor; [|by apply IH].
    pose proof (plain_entry cards k m e Hplain Hin He) as Hent.
    destruct (Py.startswith "dex_" k).
    + destruct Hent as (n & _ & -> & Hn & Hc). done.
    + destruct Hent as (-> & <- & Hn & Hc). done.
Qed.

(** Cards of two dex numbers and a card known by its name only. *)
Lemma X3_witness :
  exists entries,
    BuildSetsData.aggregate (H := elements_order)
      [pikachu_vmax; bulbasaur; pikachu; rare "Mew"] = inr entries /\
    NoDup (entry_identity <$> entries).
Proof.
  destruct (X3_local_entries_are_told_apart (H := elements_order)
              [pikachu_vmax; bulbasaur; pikachu; rare "Mew"])
    as (entries & Hagg & Hnd & _).
  - repeat (constructor; [vm_compute; reflexivity|]). constructor.
  - exists entries. split; [exact Hagg|exact Hnd].
Defined.

Section DexLikeNames.
Import Py.
Context `{SetOrder}.

Lemma rmap_inl {A B} (f : A -> Result B) l e :
  rmap f l = inl e -> exists x, x ∈ l /\ f x = inl e.
Proof.
  induction l as [|x l IH]; [done|]. cbn [rmap].
  destruct (f x) as [e'|y] eqn:Hx; cbn.
  - intros [= ->]. exists x. split; [left|done].
  - destruct (rmap f l) as [e'|ys]; cbn; [|done].
    intros [= ->]. destruct IH as (x' & Hin & Hx'); [done|].
    exists x'. split; [by right|done].
Qed.

Lemma rmap_raises {A B} (f : A -> Result B) l x e :
  x ∈ l -> f x = inl e -> exists e', rmap f l = inl e'.
Proof.
  intros Hin Hx. destruct (rmap f l) as [e'|ys] eqn:Hl; [by exists e'|].
  apply rmap_inr in Hl.
  apply list_elem_of_lookup in Hin as [i Hi].
  destruct (Forall2_lookup_l _ _ _ _ _ Hl Hi) as (y & _ & Hy). congruence.
Qed.

Lemma startswith_dex_pieces key :
  startswith "dex_" key = true ->
  exists piece, split_on "_" key !! 1%nat = Some piece.
Proof.
  unfold startswith.
  destruct key as [|c1 [|c2 [|c3 [|c4 rest]]]]; cbn [String.prefix]; try done;
    repeat (destruct (ascii_dec _ _) as [<-|]; try done).
  intros _. unfold split_on. cbn [pieces Ascii.eqb Bool.eqb].
  destruct (pieces "_" rest) as [p ps]. cbn. by exists p.
Qed.

(** The only exception of [build_entry] on a group that is not empty is
    the [ValueError] of [int]. *)
Lemma local_build_entry_raises key cards_list e :
  cards_list ≠ [] ->
  BuildSetsData.build_entry (key, cards_list) = inl e ->
  exc_class e = ValueError /\ startswith "dex_" key = true /\
  BuildSetsData.dex_of_key key = inl e.
Proof.
  intros Hne. unfold BuildSetsData.build_entry.
  destruct (local_most_common_rarity cards_list) as (r & -> & _). cbn [rbind].
  destruct cards_list as [|c0 cards]; [done|].
  destruct (startswith "dex_" key) eqn:Hs; [|done].
  destruct (startswith_dex_pieces key Hs) as [piece Hp].
  unfold BuildSetsData.dex_of_key. rewrite Hp.
  destruct (int_of_str piece); cbn; [done|]. by intros [= <-].
Qed.

Lemma local_aggregate_raises cards e :
  BuildSetsData.aggregate cards = inl e -> exc_class e = ValueError.
Proof.
  intros ([k m] & Hin & He)%rmap_inl.
  rewrite local_group_cards in Hin. apply group_by_elem_of in Hin as [Hne _].
  by apply local_build_entry_raises in He as [? _].
Qed.

Lemma local_group_of_card cards card key :
  card ∈ cards -> local_key card = Some key ->
  let members := members_of local_key BuildSetsData.card_info_of key cards in
  (key, members) ∈ BuildSetsData.group_cards cards /\
  BuildSetsData.card_info_of card ∈ members.
Proof.
  intros Hin Hk members.
  assert (BuildSetsData.card_info_of card ∈ members) as Hm.
  { apply members_of_elem. by exists card. }
  split; [|done]. rewrite local_group_cards. apply group_by_elem_of.
  split; [|done]. intros Hnil. rewrite Hnil in Hm. by apply elem_of_nil in Hm.
Qed.

Lemma bad_key_raises cards card key err :
  card ∈ cards -> local_key card = Some key ->
  startswith "dex_" key = true -> BuildSetsData.dex_of_key key = inl err ->
  exists e, BuildSetsData.aggregate cards = inl e /\ exc_class e = ValueError.
Proof.
  intros Hin Hk Hs Herr.
  destruct (local_group_of_card cards card key Hin Hk) as [Hg Hm].
  destruct (rmap_raises BuildSetsData.build_entry
              (BuildSetsData.group_cards cards) _ err Hg) as [e He].
  - unfold BuildSetsData.build_entry.
    destruct (local_most_common_rarity
                (members_of local_key BuildSetsData.card_info_of key cards))
      as (r & -> & _).
    cbn [rbind]. by rewrite Hs, Herr.
  - exists e. split; [done|]. by eapply local_aggregate_raises.
Qed.

Lemma nameless_key card key :
  nameless_dex card ->
  BuildSetsData.normalize_pokemon_name (Some (default "" (raw_name card))) = Some key ->
  local_key card = Some key.
Proof.
  intros [Hs Hd] Hn. unfold local_key, BuildSetsData.card_key.
  rewrite bool_decide_eq_false_2 by (by intros []).
  rewrite Hd, Hn. by rewrite (normalize_truthy _ _ Hn).
Qed.

(** A failing set makes the loop over the sets raise. *)
Lemma local_loop_raises fs sets st set_info cards e :
  set_info ∈ sets ->
  BuildSetsData.load_cards_for_set fs (si_id set_info) = Some cards ->
  BuildSetsData.aggregate cards = inl e ->
  exists e', rfold (BuildSetsData.process_set fs) st sets = inl e' /\
             exc_class e' = ValueError.
Proof.
  intros Hin Hc He. revert st.
  induction sets as [|s sets IH]; intros [sd sk]; [by apply elem_of_nil in Hin|].
  cbn [rfold]. unfold BuildSetsData.process_set at 1.
  destruct (BuildSetsData.load_cards_for_set fs (si_id s)) as [cs|] eqn:Hcs.
  - destruct (BuildSetsData.aggregate cs) as [e1|pokemon] eqn:Hagg; cbn [rbind].
    + exists e1. split; [done|]. by eapply local_aggregate_raises.
    + apply elem_of_cons in Hin as [->|Hin]; [congruence|]. by apply IH.
  - cbn [rbind]. apply elem_of_cons in Hin as [->|Hin]; [congruence|]. by apply IH.
Qed.

End DexLikeNames.

(** X4. In the local variant a creature card without dex numbers whose
    normalized name starts with "dex_" is taken for a card of a dex number:
    when the name reads "dex_" followed by the number n as Python prints
    it, the card joins the entry of the cards whose first dex number is n;
    when the text after "dex_" is no integer, building the entries raises
    a ValueError for every card list that holds the card, and so does the
    whole run when a processed set holds it. *)
Theorem X4_dex_like_name_is_read_as_dex_key `{Py.SetOrder} :
  forall (card : RawCard) (key : string),
    nameless_dex card ->
    BuildSetsData.normalize_pokemon_name (Some (default "" (raw_name card))) = Some key ->
    Py.startswith "dex_" key = true ->
    local_key card = Some key /\
    (forall n other ds cards entries,
        key = "dex_" +:+ Py.str_of_int n ->
        raw_supertype other = Some POKEMON ->
        raw_nationalPokedexNumbers other = Some (n :: ds) ->
        card ∈ cards -> other ∈ cards ->
        BuildSetsData.aggregate cards = inr entries ->
        exists e, e ∈ entries /\ pe_dex_number e = Some n /\
                  BuildSetsData.card_info_of card ∈ pe_cards e /\
                  BuildSetsData.card_info_of other ∈ pe_cards e) /\
    (forall err cards,
        BuildSetsData.dex_of_key key = inl err ->
        card ∈ cards ->
        (exists e, BuildSetsData.aggregate cards = inl e /\
                   Py.exc_class e = Py.ValueError) /\
        (forall fs series_filter sets set_info,
            BuildSetsData.load_sets fs series_filter = inr sets ->
            set_info ∈ sets ->
            BuildSetsData.load_cards_for_set fs (si_id set_info) = Some cards ->
            exists e, BuildSetsData.build_sets_data fs series_filter = inl e /\
                      Py.exc_class e = Py.ValueError)).
Proof.
  intros card key Hless Hname Hs.
  pose proof (nameless_key card key Hless Hname) as Hkey.
  split_and!; [done| |].
  - intros n other ds cards entries -> Hsuper Hdex Hin Hin' Hagg.
    destruct (local_dex_key other n ds Hsuper Hdex) as [_ Hkey'].
    destruct (local_group_of_card cards card _ Hin Hkey) as [Hg Hm].
    destruct (local_group_of_card cards other _ Hin' Hkey') as [_ Hm'].
    apply local_aggregate_inv in Hagg as (_ & Hall & _).
    apply list_elem_of_lookup in Hg as [i Hi].
    destruct (Forall2_lookup_l _ _ _ _ _ Hall Hi) as (e & He & Hbuild).
    exists e. split; [by eapply list_elem_of_lookup_2|].
    apply local_build_entry_inv in Hbuild as (-> & _ & _ & _ & Hnum).
    rewrite Hs in Hnum. destruct Hnum as (n' & Hn' & ->).
    rewrite (proj2 (dex_key_roundtrip n)) in Hn'. by injection Hn' as <-.
  - intros err cards Herr Hin.
    destruct (bad_key_raises cards card key err Hin Hkey Hs Herr) as (e & He & Hclass).
    split; [by exists e|].
    intros fs series_filter sets set_info Hsets Hset Hcards.
    unfold BuildSetsData.build_sets_data. rewrite Hsets. cbn [rbind].
    by eapply local_loop_raises.
Qed.

(** A card named "Dex_ter" stops the build, a card named "DEX_25" joins the
    cards of dex number 25. *)
Lemma X4_witness :
  (exists e, BuildSetsData.aggregate (H := elements_order) [bulbasaur; dexter] = inl e /\
             Py.exc_class e = Py.ValueError) /\
  (exists entries e,
      BuildSetsData.aggregate (H := elements_order) [pikachu; dex_25_card]
      = inr entries /\
      e ∈ entries /\ pe_dex_number e = Some 25 /\
      BuildSetsData.card_info_of dex_25_card ∈ pe_cards e /\
      BuildSetsData.card_info_of pikachu ∈ pe_cards e).
Proof.
  split.
  - eapply (X4_dex_like_name_is_read_as_dex_key (H := elements_order) dexter "dex_ter").
    + split; vm_compute; reflexivity.
    + vm_compute. reflexivity.
    + vm_compute. reflexivity.
    + vm_compute. reflexivity.
    + right. left.
  - assert (exists entries,
               BuildSetsData.aggregate (H := elements_order) [pikachu; dex_25_card]
               = inr entries) as [entries Hagg].
    { eexists. vm_compute. reflexivity. }
    exists entries.
    destruct (X4_dex_like_name_is_read_as_dex_key (H := elements_order)
                dex_25_card "dex_25") as (_ & Hjoin & _).
    + split; vm_compute; reflexivity.
    + vm_compute. reflexivity.
    + vm_compute. reflexivity.
    + destruct (Hjoin 25 pikachu [] [pikachu; dex_25_card] entries)
        as (e & He & Hnum & Hc & Ho).
      * vm_compute. reflexivity.
      * reflexivity.
      * reflexivity.
      * right. left.
      * left.
      * exact Hagg.
      * exists e. split; [exact Hagg|]. split; [exact He|]. split; [exact Hnum|].
        split; [exact Hc|exact Ho].
Defined.

Section VariantsAgree.
Import Py.

Lemma filter_ext_in {A} (P Q : A -> Prop) `{!forall x, Decision (P x)}
    `{!forall x, Decision (Q x)} (l : list A) :
  Forall (fun x => P x <-> Q x) l -> filter P l = filter Q l.
Proof.
  induction 1 as [|x l Hx _ IH]; [done|].
  rewrite !filter_cons, IH. repeat case_decide; tauto.
Qed.

Lemma filter_all {A} (P : A -> Prop) `{!forall x, Decision (P x)} (l : list A) :
  Forall P l -> filter P l = l.
Proof.
  induction 1 as [|x l Hx _ IH]; [done|].
  by rewrite filter_cons_True, IH.
Qed.

Lemma keys_agree card :
  default [] (raw_nationalPokedexNumbers card) = [] ->
  local_key card = remote_key card.
Proof.
  intros Hd. unfold local_key, remote_key, BuildSetsData.card_key, FetchSets.card_key.
  by rewrite Hd, normalize_same.
Qed.

Lemma local_rarities (xs : list RawCard) :
  ci_rarity <$> (BuildSetsData.card_info_of <$> xs) = rarity_of <$> xs.
Proof. by rewrite <- list_fmap_compose. Qed.

Lemma remote_rarities (xs : list RawCard) :
  ci_rarity <$> (FetchSets.card_info_of <$> xs) = rarity_of <$> xs.
Proof. by rewrite <- list_fmap_compose. Qed.

Lemma rarities_nonempty (xs : list RawCard) :
  Forall (fun c => raw_rarity c ≠ Some "") xs ->
  Forall (fun r => r ≠ "") (rarity_of <$> xs).
Proof.
  intros Hall. apply Forall_fmap. eapply Forall_impl; [exact Hall|].
  intros c Hc. unfold compose, rarity_of. cbn beta in Hc |- *.
  destruct (raw_rarity c) as [r|]; cbn [default from_option id];
    [congruence|done].
Qed.

(** Each script iterates its set of rarities in an order of its own: the
    two rarities are both most frequent, and need not be the same. *)
Lemma rarities_equally_frequent (local_order remote_order : SetOrder)
    (xs : list RawCard) r1 r2 :
  xs ≠ [] -> Forall (fun c => raw_rarity c ≠ Some "") xs ->
  BuildSetsData.most_common_rarity (H := local_order)
    (BuildSetsData.card_info_of <$> xs) = inr r1 ->
  FetchSets.most_common_rarity (H := remote_order)
    (FetchSets.card_info_of <$> xs) = inr r2 ->
  let rarities := rarity_of <$> xs in
  r1 ∈ rarities /\ r2 ∈ rarities /\
  count rarities r1 = count rarities r2 /\
  forall x, (count rarities x <= count rarities r2)%nat.
Proof.
  intros Hne Hall H1 H2 rarities.
  pose proof (rarities_nonempty xs Hall) as Hfull. fold rarities in Hfull.
  destruct (local_most_common_rarity (H := local_order)
              (BuildSetsData.card_info_of <$> xs)) as (r & Hr & _ & Hmax1).
  rewrite H1 in Hr. injection Hr as <-.
  rewrite local_rarities in Hmax1. fold rarities in Hmax1.
  rewrite (filter_all _ _ Hfull) in Hmax1.
  destruct (decide (rarities = [])) as [Hnil|_].
  { apply fmap_nil_inv in Hnil. done. }
  destruct Hmax1 as [Hin1 Hmax1].
  destruct (remote_most_common_rarity (H := remote_order)
              (FetchSets.card_info_of <$> xs)) as (r & Hr & Hin2 & Hmax2).
  { intros Hnil. by apply fmap_nil_inv in Hnil. }
  rewrite H2 in Hr. injection Hr as <-.
  rewrite remote_rarities in Hin2, Hmax2. fold rarities in Hin2, Hmax2.
  split_and!; [done..| |done].
  apply Nat.le_antisymm; [done|]. apply Hmax1.
  rewrite Forall_forall in Hfull. auto.
Qed.

(** The local and the remote entry of one key, over cards without dex
    numbers. *)
Lemma entries_agree (local_order remote_order : SetOrder) cards k le re :
  Forall (fun c => default [] (raw_nationalPokedexNumbers c) = []) cards ->
  let xs := filter (fun c => local_key c = Some k) cards in
  xs ≠ [] ->
  BuildSetsData.build_entry (H := local_order)
    (k, BuildSetsData.card_info_of <$> xs) = inr le ->
  FetchSets.build_entry (H := remote_order)
    (k, FetchSets.card_info_of <$> xs) = inr re ->
  pe_name le = re_name re /\ pe_card_count le = re_card_count re /\
  (Forall (fun c => raw_rarity c ≠ Some "") cards ->
   let rarities := ci_rarity <$> re_cards re in
   pe_rarity le ∈ rarities /\ re_rarity re ∈ rarities /\
   count rarities (pe_rarity le) = count rarities (re_rarity re) /\
   forall x, (count rarities x <= count rarities (re_rarity re))%nat).
Proof.
  intros Hnodex xs Hne Hl Hr.
  pose proof (local_build_entry_inv _ _ _ Hl) as (_ & Hcount & Hrar & _).
  pose proof (remote_build_entry_inv _ _ _ Hr) as (Hname & Hcards & Hcount' & Hrar').
  split_and!.
  - rewrite Hname. destruct xs as [|x xs'] eqn:Hxs; [done|].
    rewrite fmap_cons in Hl. rewrite (local_build_entry_name _ _ _ _ Hl).
    assert (x ∈ filter (fun c => local_key c = Some k) cards) as [Hk Hx]%list_elem_of_filter.
    { fold xs. rewrite Hxs. left. }
    rewrite Forall_forall in Hnodex. specialize (Hnodex x Hx).
    apply local_key_cases in Hk as (_ & [(d & ds & Hd & _)|(_ & Hn & _)]);
      [congruence|].
    cbn [BuildSetsData.card_info_of ci_card_name]. rewrite Hn.
    apply or_else_Some. by eapply normalize_truthy.
  - rewrite Hcount, Hcount'. by rewrite !length_fmap.
  - intros Hrare. rewrite Hcards, remote_rarities.
    apply (rarities_equally_frequent local_order remote_order xs); [done| |done..].
    apply Forall_forall. intros c [_ Hc]%list_elem_of_filter.
    rewrite Forall_forall in Hrare. auto.
Qed.

End VariantsAgree.

(** X5. On a card list in which no card has dex numbers the two variants
    agree on the entries, whatever order each script iterates its sets in:
    when the local variant returns, its entries and the entries of the
    remote variant have the same names and the same card counts, in the
    same order. When no card has the empty string as its rarity, the two
    rarities of an entry are both rarities of its cards of the highest
    frequency; they are the same rarity when only one rarity has that
    frequency, and may differ on a tie. *)
Theorem X5_variants_agree_without_dex_numbers :
  forall (local_order remote_order : Py.SetOrder)
         (cards : list RawCard) (local_entries : list PokemonEntry)
         (remote_entries : list RemoteEntry),
    Forall (fun c => default [] (raw_nationalPokedexNumbers c) = []) cards ->
    BuildSetsData.aggregate (H := local_order) cards = inr local_entries ->
    FetchSets.aggregate (H := remote_order) cards = inr remote_entries ->
    pe_name <$> local_entries = re_name <$> remote_entries /\
    pe_card_count <$> local_entries = re_card_count <$> remote_entries /\
    (Forall (fun c => raw_rarity c ≠ Some "") cards ->
     Forall2 (fun le re =>
                let rarities := ci_rarity <$> re_cards re in
                pe_rarity le ∈ rarities /\ re_rarity re ∈ rarities /\
                Py.count rarities (pe_rarity le) = Py.count rarities (re_rarity re) /\
                (forall x, (Py.count rarities x <= Py.count rarities (re_rarity re))%nat) /\
                ((forall x, x ∈ rarities ->
                            Py.count rarities x = Py.count rarities (re_rarity re) ->
                            x = re_rarity re) ->
                 pe_rarity le = re_rarity re))
             local_entries remote_entries).
Proof.
  intros local_order remote_order cards les res Hnodex Hl Hr.
  apply rmap_inr in Hl. apply rmap_inr in Hr.
  rewrite local_group_cards, group_by_members in Hl.
  rewrite remote_group_cards, group_by_members in Hr.
  assert (omap remote_key cards = omap local_key cards) as Hkeys.
  { clear Hl Hr. induction Hnodex as [|c cards Hc _ IH]; [done|].
    cbn [omap list_omap]. by rewrite IH, (keys_agree c Hc). }
  rewrite Hkeys in Hr.
  assert (forall k, members_of remote_key FetchSets.card_info_of k cards
                    = FetchSets.card_info_of <$> filter (fun c => local_key c = Some k) cards)
    as Hmem.
  { intros k. unfold members_of. f_equal. apply filter_ext_in.
    eapply Forall_impl; [exact Hnodex|]. intros c Hc. by rewrite (keys_agree c Hc). }
  assert (Forall (fun k => filter (fun c => local_key c = Some k) cards ≠ [])
                 (first_seen (omap local_key cards))) as Hne.
  { apply Forall_forall. intros k (c & Hc & Hk)%elem_of_first_seen%list_elem_of_omap Hnil.
    assert (c ∈ filter (fun c => local_key c = Some k) cards) as Hin
      by by apply list_elem_of_filter.
    rewrite Hnil in Hin. by apply elem_of_nil in Hin. }
  revert les res Hl Hr Hne.
  induction (first_seen (omap local_key cards)) as [|k ks IH]; intros les res Hl Hr Hne.
  - apply Forall2_nil_inv_l in Hl as ->. apply Forall2_nil_inv_l in Hr as ->.
    split_and!; [done..|]. intros _. constructor.
  - rewrite fmap_cons in Hl, Hr.
    apply Forall2_cons_inv_l in Hl as (le & les' & Hle & Hl & ->).
    apply Forall2_cons_inv_l in Hr as (re & res' & Hre & Hr & ->).
    apply Forall_cons in Hne as [Hk Hne].
    destruct (IH _ _ Hl Hr Hne) as (IH1 & IH2 & IH3).
    rewrite Hmem in Hre. unfold members_of in Hle.
    destruct (entries_agree local_order remote_order cards k le re Hnodex Hk Hle Hre)
      as (E1 & E2 & E3).
    rewrite !fmap_cons, E1, E2, IH1, IH2. split_and!; [done..|].
    intros Hrare. constructor; [|by apply IH3].
    destruct (E3 Hrare) as (Hin1 & Hin2 & Hcount & Hmax).
    split_and!; [done..|]. intros Huniq. by apply Huniq.
Qed.

(** Two cards of Mew and a trainer card, the local script iterating its
    sets in one order and the remote script in the opposite one: one entry
    "mew" in both variants. *)
Lemma X5_witness :
  exists local_entries remote_entries,
    BuildSetsData.aggregate (H := elements_order) [rare "Mew"; potion; rare "Mew ex"]
    = inr local_entries /\
    FetchSets.aggregate (H := reversed_order) [rare "Mew"; potion; rare "Mew ex"]
    = inr remote_entries /\
    pe_name <$> local_entries = re_name <$> remote_entries /\
    re_name <$> remote_entries = ["mew"].
Proof.
  eexists _, _. split; [vm_compute; reflexivity|]. split; [vm_compute; reflexivity|].
  split; [|vm_compute; reflexivity].
  eapply (X5_variants_agree_without_dex_numbers elements_order reversed_order
            [rare "Mew"; potion; rare "Mew ex"]).
  - repeat (constructor; [vm_compute; reflexivity|]). constructor.
  - vm_compute. reflexivity.
  - vm_compute. reflexivity.
Defined.

(** On a tie the rarity of an entry depends on the order in which the
    script iterates the set of rarities. *)
Example rarity_tie_depends_on_order :
  exists e1 e2,
    FetchSets.aggregate (H := elements_order) [rare "Mew"; common "Mew"] = inr [e1] /\
    FetchSets.aggregate (H := reversed_order) [rare "Mew"; common "Mew"] = inr [e2] /\
    re_rarity e1 ≠ re_rarity e2.
Proof.
  eexists _, _. split; [vm_compute; reflexivity|]. split; [vm_compute; reflexivity|].
  cbn [re_rarity]. discriminate.
Qed.

(** * The identity key of a card *)

Section RemoteKeys.
Import Py.
Context `{SetOrder}.

(** The remote key of a card is the normalized name, also when there is
    none. *)
Lemma remote_card_key card :
  FetchSets.card_key card
  = FetchSets.normalize_pokemon_name (Some (default "" (raw_name card))).
Proof.
  unfold FetchSets.card_key.
  destruct (FetchSets.normalize_pokemon_name _) as [k|] eqn:Hn; [|done].
  rewrite normalize_same in Hn. by rewrite (normalize_truthy _ _ Hn).
Qed.

Lemma remote_key_spec card k :
  remote_key card = Some k <->
  raw_supertype card = Some POKEMON /\
  FetchSets.normalize_pokemon_name (Some (default "" (raw_name card))) = Some k.
Proof.
  unfold remote_key. rewrite remote_card_key. case_bool_decide as Hs.
  - split; [done|]. by intros [? _].
  - split; [|by intros [_ ?]]. intros Hk. split; [|done].
    destruct (decide (raw_supertype card = Some POKEMON)); [done|]. by destruct Hs.
Qed.

(** The cards of a remote entry are the cards of its name. *)
Lemma remote_entry_members cards entries e :
  FetchSets.aggregate cards = inr entries -> e ∈ entries ->
  re_cards e = members_of remote_key FetchSets.card_info_of (re_name e) cards /\
  re_cards e ≠ [].
Proof.
  intros Hagg%rmap_inr [i Hi]%list_elem_of_lookup.
  destruct (Forall2_lookup_r _ _ _ _ _ Hagg Hi) as ([k m] & Hg & He).
  apply list_elem_of_lookup_2 in Hg.
  rewrite remote_group_cards in Hg. apply group_by_elem_of in Hg as [Hne ->].
  apply remote_build_entry_inv in He as (-> & -> & _). done.
Qed.

Lemma remote_entry_of_key cards entries k :
  FetchSets.aggregate cards = inr entries ->
  k ∈ omap remote_key cards ->
  exists e, e ∈ entries /\ re_name e = k.
Proof.
  intros Hagg Hk. apply remote_entries_cards in Hagg as (Hnames & _).
  rewrite remote_group_cards, group_by_keys in Hnames.
  apply elem_of_first_seen in Hk. rewrite <- Hnames in Hk.
  apply list_elem_of_fmap in Hk as (e & -> & He). by exists e.
Qed.

(** A creature card lies in the remote entry of its normalized name and
    in no other. *)
Lemma remote_entry_of_card cards entries e other :
  FetchSets.aggregate cards = inr entries -> e ∈ entries ->
  other ∈ cards -> raw_supertype other = Some POKEMON ->
  FetchSets.card_info_of other ∈ re_cards e <->
  FetchSets.normalize_pokemon_name (Some (default "" (raw_name other)))
  = Some (re_name e).
Proof.
  intros Hagg He Hin Hs.
  destruct (remote_entry_members cards entries e Hagg He) as [-> _].
  rewrite members_of_elem. split.
  - intros (c & _ & [_ Hk]%remote_key_spec & Hinfo).
    assert (default "" (raw_name other) = default "" (raw_name c)) as ->; [|done].
    by apply (f_equal ci_card_name) in Hinfo.
  - intros Hk. exists other. split_and!; [done| |done]. by apply remote_key_spec.
Qed.

End RemoteKeys.

(** C1. In the local variant a creature card with dex numbers is keyed by
    its first dex number whatever its name, all cards with that first dex
    number form one group, and the entry built from the group carries the
    number and counts every member. The remote variant does not read the
    dex numbers: the key of a card is its normalized name, the entries of
    a card list have pairwise different names, and a creature card lies in
    an entry exactly when its name normalizes to the name of the entry, so
    that two creature cards share an entry exactly when their names
    normalize to the same string. *)
Theorem C1_local_dex_key_remote_name_key `{Py.SetOrder} :
  forall (card : RawCard) (d : Z) (ds : list Z),
    raw_supertype card = Some POKEMON ->
    raw_nationalPokedexNumbers card = Some (d :: ds) ->
    let key := "dex_" +:+ Py.str_of_int d in
    BuildSetsData.card_key card = Some key /\
    (forall cards, card ∈ cards ->
       let members := members_of local_key BuildSetsData.card_info_of key cards in
       BuildSetsData.card_info_of card ∈ members /\
       NoDup (BuildSetsData.group_cards cards).*1 /\
       (forall m, (key, m) ∈ BuildSetsData.group_cards cards <-> m = members) /\
       exists e, BuildSetsData.build_entry (key, members) = inr e /\
                 pe_dex_number e = Some d /\
                 pe_cards e = members /\
                 pe_card_count e = length members /\
                 forall entries, BuildSetsData.aggregate cards = inr entries ->
                                 e ∈ entries) /\
    (forall other, raw_name other = raw_name card ->
                   FetchSets.card_key other = FetchSets.card_key card) /\
    FetchSets.card_key card
    = FetchSets.normalize_pokemon_name (Some (default "" (raw_name card))) /\
    (forall cards, card ∈ cards ->
       exists entries,
         FetchSets.aggregate cards = inr entries /\
         NoDup (re_name <$> entries) /\
         (forall e other,
             e ∈ entries -> other ∈ cards -> raw_supertype other = Some POKEMON ->
             FetchSets.card_info_of other ∈ re_cards e <->
             FetchSets.normalize_pokemon_name (Some (default "" (raw_name other)))
             = Some (re_name e)) /\
         (forall name,
             FetchSets.normalize_pokemon_name (Some (default "" (raw_name card)))
             = Some name ->
             exists e, e ∈ entries /\ re_name e = name /\
                       FetchSets.card_info_of card ∈ re_cards e /\
                       re_cards e
                       = members_of remote_key FetchSets.card_info_of name cards /\
                       re_card_count e = length (re_cards e))).
Proof.
  intros card d ds Hs Hd key.
  destruct (local_dex_key card d ds Hs Hd) as [Hkey Hlkey].
  split; [done|]. split; [|split; [|split]].
  - intros cards Hin members.
    assert (BuildSetsData.card_info_of card ∈ members) as Hmem.
    { apply list_elem_of_fmap. exists card. split; [done|].
      by apply list_elem_of_filter. }
    assert (members ≠ []) as Hne.
    { intros Hnil. rewrite Hnil in Hmem. by apply elem_of_nil in Hmem. }
    assert (forall m, (key, m) ∈ BuildSetsData.group_cards cards <-> m = members)
      as Hgroup.
    { intros m. rewrite local_group_cards, group_by_elem_of. split; [by intros []|].
      by intros ->. }
    destruct (dex_key_roundtrip d) as [Hstart Hdex].
    destruct (local_build_entry_total key members Hne) as [e He]; [by exists d|].
    split_and!; [done| |done|].
    { rewrite local_group_cards. apply group_by_NoDup. }
    exists e. pose proof (local_build_entry_inv _ _ _ He) as (Hc & Hn & _ & _ & Hnum).
    fold key in Hstart, Hdex. rewrite Hstart in Hnum. destruct Hnum as (n & Hn' & Hnum).
    rewrite Hdex in Hn'. injection Hn' as <-.
    split_and!; [done..|]. intros entries Hagg.
    eapply rmap_elem_of; [exact Hagg| |exact He]. by apply Hgroup.
  - intros other Hn. unfold FetchSets.card_key. by rewrite Hn.
  - apply remote_card_key.
  - intros cards Hin.
    destruct (remote_aggregate_total cards) as [entries Hagg].
    exists entries. split; [done|]. split_and!.
    + by apply remote_aggregate_inv in Hagg as (_ & ? & _).
    + intros e other He Hother Hsuper. by eapply remote_entry_of_card.
    + intros name Hname.
      destruct (remote_entry_of_key cards entries name Hagg) as (e & He & Hen).
      { apply list_elem_of_omap. exists card. split; [done|]. by apply remote_key_spec. }
      exists e. split_and!; [done..| | |].
      * apply (remote_entry_of_card cards entries e card Hagg He Hin Hs).
        by rewrite Hen.
      * rewrite <- Hen. by apply (remote_entry_members cards entries e Hagg He).
      * pose proof (remote_aggregate_inv _ _ Hagg) as (_ & _ & Hok).
        rewrite Forall_forall in Hok. by destruct (Hok e He).
Qed.

(** The two cards of the specification, named "Pikachu VMAX" and "Pikachu",
    fall under the key of dex number 25; in the remote variant both lie in
    the entry named "pikachu", to which both names normalize. *)
Lemma C1_witness :
  BuildSetsData.card_key pikachu_vmax = Some "dex_25" /\
  BuildSetsData.card_key pikachu = Some "dex_25" /\
  exists entries e,
    FetchSets.aggregate (H := elements_order) [pikachu_vmax; pikachu] = inr entries /\
    e ∈ entries /\ re_name e = "pikachu" /\
    FetchSets.card_info_of pikachu_vmax ∈ re_cards e /\
    FetchSets.card_info_of pikachu ∈ re_cards e.
Proof.
  pose proof (C1_local_dex_key_remote_name_key (H := elements_order)
                pikachu_vmax 25 [] eq_refl eq_refl) as (Hkey & _ & _ & _ & Hremote).
  split; [exact Hkey|]. split.
  - exact (proj1 (C1_local_dex_key_remote_name_key (H := elements_order)
                    pikachu 25 [] eq_refl eq_refl)).
  - destruct (Hremote [pikachu_vmax; pikachu]) as (entries & Hagg & _ & Hiff & Hname);
      [left|].
    destruct (Hname "pikachu") as (e & He & Hn & Hin & _);
      [vm_compute; reflexivity|].
    exists entries, e. split; [exact Hagg|]. split; [exact He|]. split; [exact Hn|].
    split; [exact Hin|].
    apply (Hiff e pikachu He); [right; left|reflexivity|].
    rewrite Hn. vm_compute. reflexivity.
Defined.

(** The remote variant keeps two cards with first dex number 25 apart when
    their names normalize differently. *)
Lemma C1_remote_splits_one_dex_number :
  raw_supertype pikachu = Some POKEMON /\
  raw_supertype flying_pikachu = Some POKEMON /\
  raw_nationalPokedexNumbers pikachu = Some [25] /\
  raw_nationalPokedexNumbers flying_pikachu = Some [25] /\
  exists e1 e2,
    FetchSets.aggregate (H := elements_order) [pikachu; flying_pikachu] = inr [e1; e2] /\
    re_name e1 = "pikachu" /\ re_card_count e1 = 1%nat /\
    re_name e2 = "flying pikachu" /\ re_card_count e2 = 1%nat.
Proof.
  split_and!; [done..|]. do 2 eexists. split; [vm_compute; reflexivity|done].
Qed.

(** * The run and the entry point of the local-file variant *)

Section LocalRun.
Import Py.
Context `{SetOrder}.

(** The records and the skipped sets the loop over the sets adds. *)
Lemma local_loop_spec fs sets sets_data skipped sets_data' skipped' :
  rfold (BuildSetsData.process_set fs) (sets_data, skipped) sets
  = inr (sets_data', skipped') ->
  exists new,
    sets_data' = sets_data ++ new /\
    Forall2 (fun s sr => exists cards pokemon,
                 BuildSetsData.load_cards_for_set fs (si_id s) = Some cards /\
                 BuildSetsData.aggregate cards = inr pokemon /\
                 sr = set_data_of s pokemon)
            (filter (fun s => is_Some (BuildSetsData.load_cards_for_set fs (si_id s)))
                    sets) new /\
    skipped' = skipped ++
      (skipped_of <$>
         filter (fun s => ¬ is_Some (BuildSetsData.load_cards_for_set fs (si_id s)))
                sets).
Proof.
  revert sets_data skipped.
  induction sets as [|s sets IH]; intros sd sk.
  - cbn. intros [= <- <-]. exists []. by rewrite !app_nil_r.
  - cbn [rfold]. unfold BuildSetsData.process_set at 1.
    destruct (BuildSetsData.load_cards_for_set fs (si_id s)) as [cards|] eqn:Hc.
    + destruct (BuildSetsData.aggregate cards) as [e|pokemon] eqn:Ha; cbn [rbind];
        [done|].
      intros (new & -> & Hnew & ->)%IH.
      exists (set_data_of s pokemon :: new).
      rewrite filter_cons_True by (by rewrite Hc).
      rewrite filter_cons_False by (rewrite Hc; by intros []).
      split_and!; [by rewrite <- (assoc_L (++))| |done].
      constructor; [|done]. by exists cards, pokemon.
    + cbn [rbind]. intros (new & -> & Hnew & ->)%IH.
      exists new.
      rewrite filter_cons_False by (rewrite Hc; by intros [? [=]]).
      rewrite filter_cons_True by (rewrite Hc; by intros [? [=]]).
      split_and!; [done..|].
      rewrite fmap_cons, <- (assoc_L (++)). done.
Qed.

Lemma local_loop_total fs sets st :
  Forall (fun s => forall cards,
              BuildSetsData.load_cards_for_set fs (si_id s) = Some cards ->
              exists pokemon, BuildSetsData.aggregate cards = inr pokemon) sets ->
  exists st', rfold (BuildSetsData.process_set fs) st sets = inr st'.
Proof.
  intros Hall. revert st.
  induction Hall as [|s sets Hs _ IH]; intros [sd sk]; [by eexists|].
  cbn [rfold]. unfold BuildSetsData.process_set at 1.
  destruct (BuildSetsData.load_cards_for_set fs (si_id s)) as [cards|].
  - destruct (Hs cards eq_refl) as [pokemon ->]. cbn [rbind]. apply IH.
  - cbn [rbind]. apply IH.
Qed.

Lemma length_filter_split {A} (P : A -> Prop) `{!forall x, Decision (P x)} (l : list A) :
  (length (filter P l) + length (filter (fun x => ¬ P x) l) = length l)%nat.
Proof.
  induction l as [|x l IH]; [done|].
  rewrite !filter_cons. repeat case_decide; cbn; try lia; tauto.
Qed.

Lemma local_records_ids fs (sets : list SetInfo) (new : list (SetRecord PokemonEntry)) :
  Forall2 (fun s sr => exists cards pokemon,
               BuildSetsData.load_cards_for_set fs (si_id s) = Some cards /\
               BuildSetsData.aggregate cards = inr pokemon /\
               sr = set_data_of s pokemon) sets new ->
  sr_id <$> new = si_id <$> sets.
Proof.
  induction 1 as [|s sr sets new (cards & pokemon & _ & _ & ->) _ IH]; [done|].
  rewrite !fmap_cons, IH. done.
Qed.

Lemma local_run_spec fs series_filter sets sets_data skipped_sets :
  BuildSetsData.load_sets fs series_filter = inr sets ->
  BuildSetsData.build_sets_data fs series_filter = inr (sets_data, skipped_sets) ->
  let has_file := fun s => is_Some (BuildSetsData.load_cards_for_set fs (si_id s)) in
  Forall2 (fun s sr => exists cards pokemon,
               BuildSetsData.load_cards_for_set fs (si_id s) = Some cards /\
               BuildSetsData.aggregate cards = inr pokemon /\
               sr = set_data_of s pokemon)
          (filter has_file sets) sets_data /\
  sr_id <$> sets_data = si_id <$> filter has_file sets /\
  skipped_sets = skipped_of <$> filter (fun s => ¬ has_file s) sets /\
  (length sets_data + length skipped_sets = length sets)%nat.
Proof.
  intros Hsets. unfold BuildSetsData.build_sets_data. rewrite Hsets. cbn [rbind].
  intros (new & -> & Hnew & ->)%local_loop_spec.
  cbn [app]. split_and!; [done|by eapply local_records_ids|done|].
  rewrite <- (Forall2_length _ _ _ Hnew), length_fmap.
  apply length_filter_split.
Qed.

End LocalRun.

(** X6. A run of the local variant that returns has handled every set of
    the loaded list exactly once, in list order: the sets with a card file
    give the records (each the descriptor's fields with the entries of the
    set's cards), the sets without a card file give the skipped list. The
    run returns whenever the set list loads and no card of a set has a
    dex-like name. *)
Theorem X6_local_run_processes_or_skips_each_set `{Py.SetOrder} :
  forall (fs : BuildSetsData.Files) (series_filter : SeriesFilter) (sets : list SetInfo),
    BuildSetsData.load_sets fs series_filter = inr sets ->
    let has_file := fun s => is_Some (BuildSetsData.load_cards_for_set fs (si_id s)) in
    (forall sets_data skipped_sets,
        BuildSetsData.build_sets_data fs series_filter = inr (sets_data, skipped_sets) ->
        Forall2 (fun s sr => exists cards pokemon,
                     BuildSetsData.load_cards_for_set fs (si_id s) = Some cards /\
                     BuildSetsData.aggregate cards = inr pokemon /\
                     sr = set_data_of s pokemon)
                (filter has_file sets) sets_data /\
        sr_id <$> sets_data = si_id <$> filter has_file sets /\
        skipped_sets = skipped_of <$> filter (fun s => ¬ has_file s) sets /\
        (length sets_data + length skipped_sets = length sets)%nat) /\
    (Forall (fun s => forall cards,
                 BuildSetsData.load_cards_for_set fs (si_id s) = Some cards ->
                 Forall (fun c => dex_like_name c = false) cards) sets ->
     exists sets_data skipped_sets,
       BuildSetsData.build_sets_data fs series_filter = inr (sets_data, skipped_sets)).
Proof.
  intros fs series_filter sets Hsets has_file. split.
  - intros sets_data skipped_sets Hrun.
    exact (local_run_spec fs series_filter sets sets_data skipped_sets Hsets Hrun).
  - intros Hplain. unfold BuildSetsData.build_sets_data. rewrite Hsets. cbn [rbind].
    destruct (local_loop_total fs sets ([], [])) as [[sd sk] Hrun]; [|by exists sd, sk].
    eapply Forall_impl; [exact Hplain|]. intros s Hs cards Hcards.
    by apply plain_aggregate_total, Hs.
Qed.

(** The sample directory: the sets A and C have card files, B has none. *)
Lemma X6_witness :
  exists sets_data skipped_sets,
    BuildSetsData.build_sets_data (H := elements_order) sample_files NoFilter
    = inr (sets_data, skipped_sets) /\
    sr_id <$> sets_data = ["A"; "C"] /\
    skipped_sets = [skipped_of (sample_set "B" "S2")].
Proof.
  destruct (proj2 (X6_local_run_processes_or_skips_each_set (H := elements_order)
                     sample_files NoFilter sample_sets eq_refl))
    as (sets_data & skipped_sets & Hrun).
  - repeat (constructor;
            [intros cards Hcards; vm_compute in Hcards;
             first [discriminate Hcards
                   |injection Hcards as <-;
                    repeat (constructor; [vm_compute; reflexivity|]); constructor]|]).
    constructor.
  - exists sets_data, skipped_sets. split; [done|].
    destruct (proj1 (X6_local_run_processes_or_skips_each_set (H := elements_order)
                       sample_files NoFilter sample_sets eq_refl)
                _ _ Hrun) as (_ & Hids & Hsk & _).
    split; [exact Hids|exact Hsk].
Defined.

Section LocalMain.
Import Py BuildSetsDataMain.
Context `{SetOrder}.

(** Every way [main] can end, by the three things it depends on. *)
Lemma main_cases env :
  (data_dir_exists env = false /\
   main env = {| ending := Finished; saved := None;
                 output := [Banner; Data_directory_not_found] |}) \/
  (data_dir_exists env = true /\
   ((exists e,
        BuildSetsData.build_sets_data (files env) (SeriesList SERIES_FILTER) = inl e /\
        main env = handle e [Banner; Filtering_to SERIES_FILTER]) \/
    (exists sets_data skipped_sets,
        BuildSetsData.build_sets_data (files env) (SeriesList SERIES_FILTER)
        = inr (sets_data, skipped_sets) /\
        ((exists e, output_write env sets_data = Some e /\
                    main env = handle e [Banner; Filtering_to SERIES_FILTER; Saving]) \/
         (output_write env sets_data = None /\
          ending (main env) = Finished /\
          saved (main env) = Some sets_data))))).
Proof.
  unfold main. destruct (data_dir_exists env); cbn [negb]; [right|left; done].
  split; [done|].
  destruct (BuildSetsData.build_sets_data _ _) as [e|[sets_data skipped_sets]].
  - left. by exists e.
  - right. exists sets_data, skipped_sets. split; [done|].
    destruct (output_write env sets_data) as [e|].
    + left. by exists e.
    + right. done.
Qed.

Lemma handle_spec e out :
  saved (handle e out) = None /\
  output (handle e out) = out ++ [Error (str_of_exception e)] /\
  (exc_class e = FileNotFoundError -> ending (handle e out) = Finished) /\
  (exc_class e ≠ FileNotFoundError -> ending (handle e out) = Raises e) /\
  (forall e', ending (handle e out) = Raises e' ->
              e' = e /\ exc_class e ≠ FileNotFoundError).
Proof.
  unfold handle. cbn. split_and!; try done.
  - by intros ->.
  - by destruct (exc_class e).
  - intros e'. by destruct (exc_class e) eqn:He; intros [= <-].
Qed.

End LocalMain.

(** X7. The entry point of the local variant. The output file is written
    only with the complete result of a run that returned, and its records
    are those of the sets whose series is literally "Scarlet & Violet" or
    "Mega Evolution" and that have a card file, in the order of the set
    list. A missing data directory or a missing set list ends the script
    normally with nothing written (the FileNotFoundError is printed, not
    raised). An exception that leaves the script is no FileNotFoundError,
    comes from the run or from the write, and leaves no result behind. *)
Theorem X7_local_main_saves_complete_results_only `{Py.SetOrder} :
  forall env : BuildSetsDataMain.Env,
    let result := BuildSetsDataMain.main env in
    let in_series := fun s => default "" (si_series s) ∈ BuildSetsDataMain.SERIES_FILTER in
    let has_file := fun s =>
      is_Some (BuildSetsData.load_cards_for_set (BuildSetsDataMain.files env) (si_id s)) in
    (forall sets_data,
        BuildSetsDataMain.saved result = Some sets_data ->
        BuildSetsDataMain.ending result = BuildSetsDataMain.Finished /\
        BuildSetsDataMain.output_write env sets_data = None /\
        exists skipped_sets sets,
          BuildSetsData.build_sets_data (BuildSetsDataMain.files env)
            (SeriesList BuildSetsDataMain.SERIES_FILTER) = inr (sets_data, skipped_sets) /\
          BuildSetsData.sets_file (BuildSetsDataMain.files env) = Some sets /\
          sr_id <$> sets_data = si_id <$> filter has_file (filter in_series sets)) /\
    (BuildSetsDataMain.data_dir_exists env = false \/
     BuildSetsData.sets_file (BuildSetsDataMain.files env) = None ->
     BuildSetsDataMain.ending result = BuildSetsDataMain.Finished /\
     BuildSetsDataMain.saved result = None) /\
    (forall e,
        BuildSetsDataMain.ending result = BuildSetsDataMain.Raises e ->
        Py.exc_class e ≠ Py.FileNotFoundError /\
        BuildSetsDataMain.saved result = None /\
        (BuildSetsData.build_sets_data (BuildSetsDataMain.files env)
           (SeriesList BuildSetsDataMain.SERIES_FILTER) = inl e \/
         exists sets_data skipped_sets,
           BuildSetsData.build_sets_data (BuildSetsDataMain.files env)
             (SeriesList BuildSetsDataMain.SERIES_FILTER) = inr (sets_data, skipped_sets) /\
           BuildSetsDataMain.output_write env sets_data = Some e)).
Proof.
  intros env result in_series has_file. subst result.
  destruct (main_cases env)
    as [[Hdir ->]|[Hdir [(e & Hrun & ->)|(sd & sk & Hrun & [(e & Hw & ->)|(Hw & Hend & Hsaved)])]]].
  - split_and!; [done|done|]. cbn. done.
  - destruct (handle_spec e [BuildSetsDataMain.Banner;
                             BuildSetsDataMain.Filtering_to BuildSetsDataMain.SERIES_FILTER])
      as (Hs & _ & Hfnf & _ & Hraise).
    split_and!.
    + intros sets_data. by rewrite Hs.
    + intros [Hd|Hsets]; [congruence|]. split; [|done]. apply Hfnf.
      unfold BuildSetsData.build_sets_data, BuildSetsData.load_sets in Hrun.
      rewrite Hsets in Hrun. cbn in Hrun. by injection Hrun as <-.
    + intros e' [-> Hne]%Hraise. split_and!; [done..|]. by left.
  - destruct (handle_spec e [BuildSetsDataMain.Banner;
                             BuildSetsDataMain.Filtering_to BuildSetsDataMain.SERIES_FILTER;
                             BuildSetsDataMain.Saving])
      as (Hs & _ & Hfnf & _ & Hraise).
    split_and!.
    + intros sets_data. by rewrite Hs.
    + intros [Hd|Hsets]; [congruence|].
      unfold BuildSetsData.build_sets_data, BuildSetsData.load_sets in Hrun.
      by rewrite Hsets in Hrun.
    + intros e' [-> Hne]%Hraise. split_and!; [done..|]. right. by exists sd, sk.
  - split_and!.
    + intros sets_data. rewrite Hsaved. intros [= <-]. split_and!; [done..|].
      destruct (BuildSetsData.sets_file (BuildSetsDataMain.files env)) as [sets|] eqn:Hsets.
      * exists sk, sets. split_and!; [done..|].
        assert (BuildSetsData.load_sets (BuildSetsDataMain.files env)
                  (SeriesList BuildSetsDataMain.SERIES_FILTER)
                = inr (filter in_series sets)) as Hload.
        { unfold BuildSetsData.load_sets. by rewrite Hsets. }
        by destruct (local_run_spec _ _ _ _ _ Hload Hrun) as (_ & ? & _).
      * unfold BuildSetsData.build_sets_data, BuildSetsData.load_sets in Hrun.
        by rewrite Hsets in Hrun.
    + intros [Hd|Hsets]; [congruence|].
      unfold BuildSetsData.build_sets_data, BuildSetsData.load_sets in Hrun.
      by rewrite Hsets in Hrun.
    + intros e. by rewrite Hend.
Qed.

(** Four listed sets: only "sv1" is of a series of the filter as it is
    written and has a card file. *)
Lemma X7_witness :
  exists sets_data,
    BuildSetsDataMain.saved (BuildSetsDataMain.main (H := elements_order) sample_main_env)
    = Some sets_data /\
    BuildSetsDataMain.ending (BuildSetsDataMain.main (H := elements_order) sample_main_env)
    = BuildSetsDataMain.Finished /\
    sr_id <$> sets_data = ["sv1"].
Proof.
  assert (exists sets_data,
             BuildSetsDataMain.saved
               (BuildSetsDataMain.main (H := elements_order) sample_main_env)
             = Some sets_data) as [sets_data Hsaved].
  { eexists. vm_compute. reflexivity. }
  exists sets_data. split; [exact Hsaved|].
  destruct (proj1 (X7_local_main_saves_complete_results_only (H := elements_order)
                     sample_main_env) sets_data Hsaved)
    as (Hend & _ & skipped_sets & sets & _ & Hsets & Hids).
  split; [exact Hend|].
  rewrite Hids. vm_compute in Hsets. injection Hsets as <-.
  vm_compute. reflexivity.
Defined.

(** * Invariants of the produced records *)

Section ProducedRecords.
Import Py.
Context `{SetOrder}.

Lemma Forall2_Forall_r_impl {A B} (P : A -> B -> Prop) (Q : B -> Prop) l k :
  Forall2 P l k -> (forall x y, P x y -> Q y) -> Forall Q k.
Proof. induction 1; intros HPQ; constructor; eauto. Qed.

(** The entries of one set of the local variant, from the cards of the
    set. *)
Lemma local_record_inv cards pokemon :
  BuildSetsData.aggregate cards = inr pokemon ->
  let groups := BuildSetsData.group_cards cards in
  NoDup groups.*1 /\
  (forall k m, (k, m) ∈ groups <->
               m ≠ [] /\ m = members_of local_key BuildSetsData.card_info_of k cards) /\
  Forall2 (fun g e => BuildSetsData.build_entry g = inr e /\ pe_cards e = g.2)
          groups pokemon /\
  Forall local_entry_ok pokemon /\
  (Forall (fun c => dex_like_name c = false) cards ->
   NoDup (entry_identity <$> pokemon)).
Proof.
  intros Hagg groups.
  pose proof (local_aggregate_inv cards pokemon Hagg) as (Hnd & Hall & Hok).
  split_and!; [done| | |done|].
  - intros k m. subst groups. rewrite local_group_cards. apply group_by_elem_of.
  - eapply Forall2_impl; [exact Hall|]. intros [k m] e He. split; [done|].
    by apply local_build_entry_inv in He as (-> & _).
  - intros Hplain. by apply (plain_identities_NoDup cards).
Qed.

End ProducedRecords.

(** C5. In every record a run produces, [card_count] is the number of
    [cards] of the entry. In the local variant the entries of a record are
    built from the groups of the cards of the set, one group for each
    grouping key with all the cards of that key; [dex_numbers] is strictly
    ascending and holds exactly the dex numbers of the member cards;
    [rarity] is not empty; and no two entries have the same identity (the
    dex number, or the name when there is none) when no creature card
    without dex numbers has a name key that starts with "dex_". The
    entries of the remote variant have pairwise different names and no
    [dex_numbers]; their [rarity] is not empty when no member card has an
    empty rarity. *)
Theorem C5_invariants_of_produced_records `{Py.SetOrder} :
  (forall fs series_filter sets_data skipped,
      BuildSetsData.build_sets_data fs series_filter = inr (sets_data, skipped) ->
      exists sets,
        BuildSetsData.load_sets fs series_filter = inr sets /\
        Forall2
          (fun s sr =>
             exists cards,
               BuildSetsData.load_cards_for_set fs (si_id s) = Some cards /\
               sr_id sr = si_id s /\
               let groups := BuildSetsData.group_cards cards in
               NoDup groups.*1 /\
               (forall k m,
                   (k, m) ∈ groups <->
                   m ≠ [] /\
                   m = members_of local_key BuildSetsData.card_info_of k cards) /\
               Forall2 (fun g e => BuildSetsData.build_entry g = inr e /\
                                   pe_cards e = g.2)
                       groups (sr_pokemon sr) /\
               Forall local_entry_ok (sr_pokemon sr) /\
               (Forall (fun c => dex_like_name c = false) cards ->
                NoDup (entry_identity <$> sr_pokemon sr)))
          (filter (fun s => is_Some (BuildSetsData.load_cards_for_set fs (si_id s))) sets)
          sets_data) /\
  (forall fuel env series_filter w sets_data failed_sets w',
      FetchSets.build_sets_data fuel env series_filter w
      = (FetchSets.Returned (sets_data, failed_sets), w') ->
      exists new,
        sets_data = loaded_records env ++ new /\
        Forall (fun sr =>
                  NoDup (re_name <$> sr_pokemon sr) /\
                  Forall remote_entry_ok (sr_pokemon sr))
               new).
Proof.
  split.
  - intros fs series_filter sets_data skipped Hrun.
    destruct (BuildSetsData.load_sets fs series_filter) as [e|sets] eqn:Hsets.
    { unfold BuildSetsData.build_sets_data in Hrun. by rewrite Hsets in Hrun. }
    exists sets. split; [done|].
    destruct (local_run_spec fs series_filter sets sets_data skipped Hsets Hrun)
      as (Hall & _).
    eapply Forall2_impl; [exact Hall|].
    intros s sr (cards & pokemon & Hcards & Hagg & ->).
    exists cards. split; [done|]. split; [done|].
    cbn [sr_pokemon set_data_of]. by apply local_record_inv.
  - intros fuel env series_filter w sets_data failed_sets w' Hrun.
    destruct (remote_run_built _ _ _ _ _ _ _ Hrun) as (new & -> & Hbuilt).
    exists new. split; [done|].
    eapply Forall_impl; [exact Hbuilt|].
    intros sr (set_info & cards & pokemon & Hagg & ->). simpl.
    by apply remote_aggregate_inv in Hagg as (_ & ? & ?).
Qed.

(** The local run over the sample directory: set "C" holds cards with dex
    numbers [3] and [3; 6], which end up in one entry with [3; 6]; no card
    has a dex-like name, and the entries of each set differ in their
    identities. *)
Lemma C5_witness :
  exists sets_data skipped,
    BuildSetsData.build_sets_data (H := elements_order) sample_files NoFilter
    = inr (sets_data, skipped) /\
    Forall (fun sr => Forall local_entry_ok (sr_pokemon sr) /\
                      NoDup (entry_identity <$> sr_pokemon sr)) sets_data /\
    (fun sr => pe_dex_numbers <$> sr_pokemon sr) <$> sets_data = [[[1]]; [[3; 6]]].
Proof.
  eexists _, _. split; [vm_compute; reflexivity|]. split; [|reflexivity].
  edestruct (proj1 (C5_invariants_of_produced_records (H := elements_order))
               sample_files NoFilter) as (sets & _ & Hall).
  { vm_compute. reflexivity. }
  eapply Forall2_Forall_r_impl; [exact Hall|].
  intros s sr (cards & Hcards & _ & _ & _ & _ & Hok & Hids).
  split; [exact Hok|]. apply Hids.
  unfold BuildSetsData.load_cards_for_set, sample_files in Hcards.
  cbn [BuildSetsData.cards_file] in Hcards.
  destruct (String.eqb (si_id s) "A").
  - injection Hcards as <-. repeat (constructor; [vm_compute; reflexivity|]). constructor.
  - destruct (String.eqb (si_id s) "C"); [|discriminate Hcards].
    injection Hcards as <-. repeat (constructor; [vm_compute; reflexivity|]). constructor.
Defined.

(** Two inputs on which the claim fails. A card whose rarity is the empty
    string: the remote variant takes the empty string as the rarity of the
    entry. A card of dex number 7 and a card without dex numbers named
    "Dex_7_x": the local variant gives two entries, both with dex number
    7. *)
Lemma C5_rarity_may_be_empty_and_dex_numbers_may_repeat :
  (raw_rarity (unrated "Mew") = Some "" /\
   exists e, FetchSets.aggregate (H := elements_order) [unrated "Mew"] = inr [e] /\
             re_rarity e = "") /\
  (exists sr e1 e2,
      BuildSetsData.build_sets_data (H := elements_order) dex_7_files NoFilter
      = inr ([sr], []) /\
      sr_pokemon sr = [e1; e2] /\
      pe_cards e1 = [BuildSetsData.card_info_of squirtle] /\
      pe_cards e2 = [BuildSetsData.card_info_of dex_7_x] /\
      pe_dex_number e1 = Some 7 /\ pe_dex_number e2 = Some 7 /\
      entry_identity e1 = entry_identity e2).
Proof.
  split.
  - split; [reflexivity|]. eexists. split; [vm_compute; reflexivity|reflexivity].
  - eexists _, _, _. split; [vm_compute; reflexivity|].
    split; [reflexivity|]. split; [reflexivity|]. split; [reflexivity|].
    split; [reflexivity|]. split; reflexivity.
Qed.

(** * Further properties of the remote-API variant *)

Section Retries.
Import Py FetchSets.

Lemma world_eta w : {| sent := sent w; writes := writes w; printed := printed w |} = w.
Proof. by destruct w. Qed.

(** [j] refused attempts that are not the last ones are retried. *)
Lemma fetch_attempts_refused {A} req (answer : nat -> Result A) mr j :
  forall a m w,
    refused answer (length (sent w)) j ->
    (a + j + S m = mr)%nat ->
    fetch_attempts req answer mr (seq a (j + S m)) w =
    fetch_attempts req answer mr (seq (a + j) (S m))
      {| sent := sent w ++ replicate j req;
         writes := writes w;
         printed := printed w ++
           ((fun i => Retry (S i) mr (2 ^ Z.of_nat i)) <$> seq a j) |}.
Proof.
  induction j as [|j IH]; intros a m w Href Hmr.
  - cbn [replicate seq fmap list_fmap Nat.add]. rewrite !app_nil_r, Nat.add_0_r.
    by rewrite world_eta.
  - destruct (Href 0%nat) as (e & He & Hr); [lia|]. rewrite Nat.add_0_r in He.
    cbn [Nat.add seq].
    rewrite (fetch_attempts_again req answer mr a _ w e He Hr)
      by (apply Nat.ltb_lt; lia).
    rewrite IH; [|cbn [sent]|lia].
    + cbn [sent writes printed replicate]. rewrite <- !(assoc_L (++)).
      rewrite fmap_cons, Nat.add_1_r, Nat.add_succ_r. done.
    + intros i Hi. destruct (Href (S i)) as (e' & He' & Hr'); [lia|].
      exists e'. split; [|done]. rewrite <- He'. f_equal.
      rewrite length_app. cbn. lia.
Qed.

Lemma fetch_attempts_success {A} req (answer : nat -> Result A) mr attempt rest w r :
  answer (length (sent w)) = inr r ->
  fetch_attempts req answer mr (attempt :: rest) w =
  (Returned (Some r),
   {| sent := sent w ++ [req]; writes := writes w; printed := printed w |}).
Proof.
  intros Ha. cbn [fetch_attempts]. unfold bind at 1, http_get. by rewrite Ha.
Qed.

Lemma fetch_attempts_fatal {A} req (answer : nat -> Result A) mr attempt rest w e :
  answer (length (sent w)) = inl e -> retried e = false ->
  fetch_attempts req answer mr (attempt :: rest) w =
  (Raised e, {| sent := sent w ++ [req]; writes := writes w; printed := printed w |}).
Proof.
  intros Ha Hr. cbn [fetch_attempts]. unfold bind at 1, http_get. by rewrite Ha, Hr.
Qed.

Lemma replicate_snoc {B} (x : B) n : replicate n x ++ [x] = replicate (S n) x.
Proof. induction n as [|n IH]; [done|]. cbn. by rewrite IH. Qed.

(** The world after [j] refused attempts and the attempt that decides. *)
Lemma fetch_with_retry_decided {A} req (answer : nat -> Result A) mr j w :
  (j < mr)%nat ->
  refused answer (length (sent w)) j ->
  exists attempt rest,
    (attempt = j /\ (attempt <? mr - 1)%nat = negb (S j =? mr)%nat) /\
    fetch_with_retry req answer mr w =
    fetch_attempts req answer mr (attempt :: rest)
      {| sent := sent w ++ replicate j req;
         writes := writes w;
         printed := printed w ++ retry_lines mr j |}.
Proof.
  intros Hj Href. exists j, (seq (S j) (mr - S j)). split.
  - split; [done|].
    destruct (Nat.eqb_spec (S j) mr); cbn [negb];
      [apply Nat.ltb_ge|apply Nat.ltb_lt]; lia.
  - unfold fetch_with_retry.
    replace mr with (j + S (mr - S j))%nat at 2 by lia.
    rewrite (fetch_attempts_refused req answer mr j 0 (mr - S j) w Href) by lia.
    done.
Qed.

End Retries.

(** X8. [fetch_with_retry] for any number of attempts: the first answer
    that is not a timeout or an HTTP error decides. After j refused
    attempts, fewer than the maximum, a good answer is returned and any
    other exception is raised at once; the exception of a refused attempt
    is raised when it was the last attempt allowed. In each case j + 1
    requests were sent and j retries announced, the i-th after a wait of
    2^(i-1) seconds. With no attempt allowed nothing is sent and None is
    returned. *)
Theorem X8_fetch_with_retry_stops_at_first_decisive_answer {A : Type} :
  forall (req : FetchSets.Request) (answer : nat -> Result A)
         (max_retries j : nat) (w : FetchSets.World),
    (j < max_retries)%nat ->
    refused answer (length (FetchSets.sent w)) j ->
    let w' := {| FetchSets.sent := FetchSets.sent w ++ replicate (S j) req;
                 FetchSets.writes := FetchSets.writes w;
                 FetchSets.printed := FetchSets.printed w ++ retry_lines max_retries j |} in
    (forall r,
        answer (length (FetchSets.sent w) + j)%nat = inr r ->
        FetchSets.fetch_with_retry req answer max_retries w
        = (FetchSets.Returned (Some r), w')) /\
    (forall e,
        answer (length (FetchSets.sent w) + j)%nat = inl e ->
        FetchSets.retried e = false \/ S j = max_retries ->
        FetchSets.fetch_with_retry req answer max_retries w = (FetchSets.Raised e, w')) /\
    FetchSets.fetch_with_retry req answer 0 w = (FetchSets.Returned None, w).
Proof.
  intros req answer mr j w Hj Href w'.
  destruct (fetch_with_retry_decided req answer mr j w Hj Href)
    as (attempt & rest & [-> Hlast] & ->).
  assert (forall x, answer (length (FetchSets.sent w) + j)%nat = x ->
                    answer (length (FetchSets.sent
                      {| FetchSets.sent := FetchSets.sent w ++ replicate j req;
                         FetchSets.writes := FetchSets.writes w;
                         FetchSets.printed :=
                           FetchSets.printed w ++ retry_lines mr j |})) = x) as Hat.
  { intros x <-. cbn [FetchSets.sent]. by rewrite length_app, length_replicate. }
  assert (FetchSets.sent w ++ replicate j req ++ [req]
          = FetchSets.sent w ++ replicate (S j) req) as Hsent.
  { by rewrite replicate_snoc. }
  split_and!.
  - intros r Hr.
    rewrite (fetch_attempts_success req answer mr j rest _ r (Hat _ Hr)).
    cbn [FetchSets.sent FetchSets.writes FetchSets.printed].
    by rewrite <- (assoc_L (++)), Hsent.
  - intros e He Hwhy. destruct (FetchSets.retried e) eqn:Hretried.
    + destruct Hwhy as [|Hmr]; [done|].
      rewrite (fetch_attempts_last req answer mr j rest _ e (Hat _ He) Hretried).
      * cbn [FetchSets.sent FetchSets.writes FetchSets.printed].
        by rewrite <- (assoc_L (++)), Hsent.
      * rewrite Hlast. apply Nat.eqb_eq in Hmr. by rewrite Hmr.
    + rewrite (fetch_attempts_fatal req answer mr j rest _ e (Hat _ He) Hretried).
      cbn [FetchSets.sent FetchSets.writes FetchSets.printed].
      by rewrite <- (assoc_L (++)), Hsent.
  - done.
Qed.

(** The sample service times out once and then answers: two requests, one
    announced retry. *)
Lemma X8_witness :
  FetchSets.fetch_with_retry FetchSets.GetSets (FetchSets.http_sets sample_env) 3
    FetchSets.start
  = (FetchSets.Returned (Some sample_sets),
     {| FetchSets.sent := [FetchSets.GetSets; FetchSets.GetSets];
        FetchSets.writes := [];
        FetchSets.printed := [FetchSets.Retry 1 3 1] |}).
Proof.
  apply (X8_fetch_with_retry_stops_at_first_decisive_answer FetchSets.GetSets
           (FetchSets.http_sets sample_env) 3 1 FetchSets.start).
  - lia.
  - intros i Hi. assert (i = 0%nat) as -> by lia.
    eexists. split; reflexivity.
  - reflexivity.
Defined.

Section RemoteTrace.
Import Py FetchSets.
Context `{SetOrder}.

(** The writes and the requests of the loop over the sets. *)
Lemma for_each_trace fuel env processed items sets_data failed_sets w
    sets_data' failed_sets' w' :
  for_each (process_set fuel env processed) (sets_data, failed_sets) items w
  = (Returned (sets_data', failed_sets'), w') ->
  exists new reqs,
    sets_data' = sets_data ++ new /\
    writes w' = writes w ++
      ((fun n => take n sets_data') <$> seq (S (length sets_data)) (length new)) /\
    sent w' = sent w ++ reqs /\
    Forall (fun r => exists id, request_set_id r = Some id /\
                                id ∈ (fun it : nat * SetInfo => si_id it.2) <$> items /\
                                id ∉ processed) reqs.
Proof.
  revert sets_data failed_sets w.
  induction items as [|[idx set_info] items IH]; intros sets_data failed_sets w.
  - intros [= <- <- <-]. exists [], []. by rewrite !app_nil_r.
  - cbn [for_each]. unfold bind at 1.
    pose proof (process_set_cases fuel env processed sets_data failed_sets
                  idx set_info w) as Hstep.
    destruct (process_set fuel env processed (sets_data, failed_sets)
                (idx, set_info) w) as [[[sd1 fl1]|e|] w1];
      specialize (Hstep _ _ eq_refl); [|done|done].
    intros (new & reqs & -> & Hw & Hs & Hreqs)%IH.
    assert (Forall (fun r => exists id, request_set_id r = Some id /\
                      id ∈ (fun it : nat * SetInfo => si_id it.2)
                             <$> (idx, set_info) :: items /\
                      id ∉ processed) reqs) as Hreqs'.
    { eapply Forall_impl; [exact Hreqs|]. intros r (id & ? & ? & ?).
      exists id. split_and!; [done| |done]. rewrite fmap_cons. by right. }
    assert (forall r1, si_id set_info ∉ processed ->
              Forall (fun r => request_set_id r = Some (si_id set_info)) r1 ->
              Forall (fun r => exists id, request_set_id r = Some id /\
                        id ∈ (fun it : nat * SetInfo => si_id it.2)
                               <$> (idx, set_info) :: items /\
                        id ∉ processed) (r1 ++ reqs)) as Hmine.
    { intros r1 Hin Hr1. apply Forall_app. split; [|done].
      eapply Forall_impl; [exact Hr1|]. intros r Hr.
      exists (si_id set_info). split_and!; [done| |done]. rewrite fmap_cons. left. }
    destruct Hstep as [(Hin & -> & -> & Hs1 & Hw1)
                      |[(Hin & -> & Hf & sr & -> & Hid & Hsr & Hw1)
                       |(Hin & -> & Hf & err & ->)]].
    + exists new, reqs. rewrite Hw, Hs, Hw1, Hs1. done.
    + destruct Hf as [_ (r1 & Hs1 & Hr1)]. cbn [sent] in Hs1.
      exists (sr :: new), (r1 ++ reqs).
      split_and!.
      * by rewrite <- (assoc_L (++)).
      * rewrite Hw, Hw1, <- (assoc_L (++)). f_equal.
        cbn [length seq fmap list_fmap app]. f_equal.
        -- replace (S (length sets_data)) with (length (sets_data ++ [sr]))
             by (rewrite length_app; cbn; lia).
           by rewrite take_app_length.
        -- rewrite length_app. cbn [length]. by rewrite Nat.add_1_r.
      * by rewrite Hs, Hs1, <- (assoc_L (++)).
      * by apply Hmine.
    + destruct Hf as [Hw1 (r1 & Hs1 & Hr1)].
      exists new, (r1 ++ reqs).
      split_and!; [done| | |by apply Hmine].
      * by rewrite Hw, Hw1.
      * by rewrite Hs, Hs1, <- (assoc_L (++)).
Qed.

(** The run after the set list was fetched, whatever the output file
    held. *)
Lemma build_sets_data_loop fuel env series_filter w sets w1 :
  fetch_all_sets env series_filter w = (Returned sets, w1) ->
  exists w2,
    sent w2 = sent w1 /\ writes w2 = writes w1 /\
    build_sets_data fuel env series_filter w =
    for_each (process_set fuel env (list_to_set (sr_id <$> loaded_records env)))
             (loaded_records env, []) (enumerate1 sets) w2.
Proof.
  intros Hsets.
  destruct (build_sets_data_spec fuel env series_filter w sets w1 Hsets)
    as (w2 & Hs & Hw & ->).
  exists w2. split_and!; [done..|]. unfold loaded_records.
  by destruct (output_file env).
Qed.

Lemma last_fmap_seq {B} (f : nat -> B) a n :
  last (f <$> seq a (S n)) = Some (f (a + n)%nat).
Proof.
  rewrite seq_S, fmap_app. cbn [fmap list_fmap]. apply last_snoc.
Qed.

End RemoteTrace.

(** X9. The checkpoints of a run are cumulative: a run that returns has
    handed the output file one content per set it newly recorded and none
    for a skipped or a failed set, and the content of each write is the
    whole list of records so far, the records loaded at the start
    included. The last content written is the list the run returns. *)
Theorem X9_checkpoints_are_cumulative `{Py.SetOrder} :
  forall fuel env series_filter w sets w1 sets_data failed_sets w',
    FetchSets.fetch_all_sets env series_filter w = (FetchSets.Returned sets, w1) ->
    FetchSets.build_sets_data fuel env series_filter w
    = (FetchSets.Returned (sets_data, failed_sets), w') ->
    exists new,
      sets_data = loaded_records env ++ new /\
      FetchSets.writes w'
      = FetchSets.writes w1 ++
        ((fun n => take n sets_data)
           <$> seq (S (length (loaded_records env))) (length new)) /\
      (new ≠ [] -> last (FetchSets.writes w') = Some sets_data).
Proof.
  intros fuel env series_filter w sets w1 sets_data failed_sets w' Hsets Hrun.
  destruct (build_sets_data_loop fuel env series_filter w sets w1 Hsets)
    as (w2 & _ & Hw2 & Hloop).
  rewrite Hloop in Hrun.
  apply for_each_trace in Hrun as (new & reqs & -> & Hw & _).
  exists new. rewrite Hw, Hw2. split_and!; [done..|].
  intros Hne. destruct new as [|sr new]; [done|].
  rewrite last_app. cbn [length]. rewrite last_fmap_seq.
  rewrite <- (take_app_length (loaded_records env ++ sr :: new) []) at 2.
  rewrite app_nil_r. do 2 f_equal. rewrite length_app. cbn [length]. lia.
Qed.

(** A fresh run on the sample service: the set "A" is recorded and written
    once, the set "C" fails and leaves no write. *)
Lemma X9_witness :
  exists sets_data failed_sets w',
    FetchSets.build_sets_data (H := elements_order) 5 fresh_env (OneSeries "S1")
      FetchSets.start
    = (FetchSets.Returned (sets_data, failed_sets), w') /\
    FetchSets.writes w' = [sets_data] /\
    sr_id <$> sets_data = ["A"] /\
    FetchSets.failed_id <$> failed_sets = ["C"].
Proof.
  assert (exists sets_data failed_sets w',
             FetchSets.build_sets_data (H := elements_order) 5 fresh_env (OneSeries "S1")
               FetchSets.start
             = (FetchSets.Returned (sets_data, failed_sets), w') /\
             sr_id <$> sets_data = ["A"] /\
             FetchSets.failed_id <$> failed_sets = ["C"])
    as (sets_data & failed_sets & w' & Hrun & Hids & Hfailed).
  { eexists _, _, _. split; [vm_compute; reflexivity|]. split; reflexivity. }
  exists sets_data, failed_sets, w'. split; [exact Hrun|].
  split; [|split; [exact Hids|exact Hfailed]].
  edestruct (X9_checkpoints_are_cumulative (H := elements_order)
               5 fresh_env (OneSeries "S1") FetchSets.start)
    as (new & Hdata & Hwrites & _).
  - vm_compute. reflexivity.
  - exact Hrun.
  - rewrite Hwrites. cbn [FetchSets.writes app].
    change (loaded_records fresh_env) with (@nil (SetRecord RemoteEntry)) in *.
    cbn [app length] in *. subst new.
    destruct sets_data as [|sr [|sr' sets_data]]; [discriminate Hids| |discriminate Hids].
    reflexivity.
Defined.

Section RemoteReruns.
Import Py FetchSets.
Context `{SetOrder}.

(** The run in terms of the loop, with everything the loop lemmas say. *)
Lemma build_sets_data_trace fuel env series_filter w sets w1 sets_data failed_sets w' :
  fetch_all_sets env series_filter w = (Returned sets, w1) ->
  build_sets_data fuel env series_filter w = (Returned (sets_data, failed_sets), w') ->
  exists new reqs,
    sets_data = loaded_records env ++ new /\
    sent w' = sent w1 ++ reqs /\
    (sr_id <$> new) ++ (failed_id <$> failed_sets)
      ≡ₚ filter (fun id => id ∉ sr_id <$> loaded_records env) (si_id <$> sets) /\
    Forall (fun r => exists id, request_set_id r = Some id /\
                                id ∈ si_id <$> sets /\
                                id ∉ sr_id <$> loaded_records env) reqs.
Proof.
  intros Hsets Hrun.
  destruct (build_sets_data_loop fuel env series_filter w sets w1 Hsets)
    as (w2 & Hs2 & _ & Hloop).
  rewrite Hloop in Hrun.
  pose proof (for_each_process_set _ _ _ _ _ _ _ _ _ Hrun)
    as (new & newf & _ & Hsd & Hfl & _ & Hperm & _).
  pose proof (for_each_trace _ _ _ _ _ _ _ _ _ _ Hrun)
    as (new' & reqs & Hsd' & _ & Hsent & Hreqs).
  cbn [app] in Hfl. subst newf.
  rewrite enumerate1_ids in Hperm, Hreqs.
  exists new, reqs. split_and!; [done|by rewrite Hsent, Hs2| |].
  - rewrite Hperm. apply reflexive_eq, filter_ext_in, Forall_forall.
    intros id _. by rewrite elem_of_list_to_set.
  - eapply Forall_impl; [exact Hreqs|]. intros r (id & ? & ? & Hid).
    exists id. split_and!; [done..|]. by rewrite elem_of_list_to_set in Hid.
Qed.

(** What a run leaves for the next one, over a set list without
    repeated ids: the failed sets. *)
Lemma left_for_rerun (sets loaded new failed : list string) :
  NoDup sets ->
  new ++ failed ≡ₚ filter (fun id => id ∉ loaded) sets ->
  (forall id, (id ∈ sets /\ id ∉ loaded ++ new) <-> id ∈ failed) /\
  filter (fun id => id ∉ loaded ++ new) sets ≡ₚ failed.
Proof.
  intros Hnd Hperm.
  assert (NoDup (new ++ failed)) as Hnd'.
  { rewrite Hperm. by apply NoDup_filter. }
  apply NoDup_app in Hnd' as (_ & Hdisj & Hndf).
  assert (forall id, (id ∈ sets /\ id ∉ loaded ++ new) <-> id ∈ failed) as Hiff.
  { intros id. split.
    - intros [Hin Hout]. rewrite elem_of_app in Hout.
      assert (id ∈ new ++ failed) as [?|?]%elem_of_app; [|tauto|done].
      rewrite Hperm. apply list_elem_of_filter. tauto.
    - intros Hin.
      assert (id ∈ filter (fun id => id ∉ loaded) sets) as [Hl Hs]%list_elem_of_filter.
      { rewrite <- Hperm. apply elem_of_app. by right. }
      split; [done|]. rewrite elem_of_app. intros [?|Hn]; [done|].
      by apply (Hdisj id). }
  split; [done|].
  apply NoDup_Permutation; [by apply NoDup_filter|done|].
  intros id. rewrite list_elem_of_filter, <- Hiff. tauto.
Qed.

End RemoteReruns.

(** X10. Running the script again retries the failed sets. Let a run over
    a set list without repeated ids return, and let a second run over the
    same list start from an output file that holds the records the first
    run returned. Then the sets the second run records or fails on are
    exactly the sets the first run failed on, its records extend those of
    the first run, and every card request it sends is for one of those
    failed sets. *)
Theorem X10_rerun_retries_the_failed_sets `{Py.SetOrder} :
  forall fuel1 fuel2 env1 env2 series_filter sets
         w1 wa sets_data1 failed1 w1' w2 wb sets_data2 failed2 w2',
    NoDup (si_id <$> sets) ->
    FetchSets.fetch_all_sets env1 series_filter w1 = (FetchSets.Returned sets, wa) ->
    FetchSets.build_sets_data fuel1 env1 series_filter w1
    = (FetchSets.Returned (sets_data1, failed1), w1') ->
    FetchSets.output_file env2 = FetchSets.Stored sets_data1 ->
    FetchSets.fetch_all_sets env2 series_filter w2 = (FetchSets.Returned sets, wb) ->
    FetchSets.build_sets_data fuel2 env2 series_filter w2
    = (FetchSets.Returned (sets_data2, failed2), w2') ->
    exists new reqs,
      sets_data2 = sets_data1 ++ new /\
      (sr_id <$> new) ++ (FetchSets.failed_id <$> failed2)
        ≡ₚ FetchSets.failed_id <$> failed1 /\
      FetchSets.sent w2' = FetchSets.sent wb ++ reqs /\
      Forall (fun r => exists id, request_set_id r = Some id /\
                                  id ∈ FetchSets.failed_id <$> failed1) reqs.
Proof.
  intros fuel1 fuel2 env1 env2 series_filter sets
         w1 wa sd1 fl1 w1' w2 wb sd2 fl2 w2' Hnd Hsets1 Hrun1 Hfile Hsets2 Hrun2.
  destruct (build_sets_data_trace _ _ _ _ _ _ _ _ _ Hsets1 Hrun1)
    as (new1 & _ & Hsd1 & _ & Hperm1 & _).
  destruct (build_sets_data_trace _ _ _ _ _ _ _ _ _ Hsets2 Hrun2)
    as (new2 & reqs & Hsd2 & Hsent & Hperm2 & Hreqs).
  unfold loaded_records in Hsd2, Hperm2, Hreqs. rewrite Hfile in Hsd2, Hperm2, Hreqs.
  destruct (left_for_rerun (si_id <$> sets) (sr_id <$> loaded_records env1)
              (sr_id <$> new1) (FetchSets.failed_id <$> fl1) Hnd Hperm1)
    as [Hiff Hleft].
  rewrite <- fmap_app, <- Hsd1 in Hiff, Hleft.
  exists new2, reqs. split_and!; [done| |done|].
  - by rewrite Hperm2.
  - eapply Forall_impl; [exact Hreqs|]. intros r (id & Hr & Hin & Hout).
    exists id. split; [done|]. by apply Hiff.
Qed.

(** The sample service: the first run records "A" and fails on "C"; the
    second run, started from the record of "A", fails on "C" again and
    asks for no card of "A". *)
Lemma X10_witness :
  exists (new : list (SetRecord RemoteEntry)) reqs failed2,
    (sr_id <$> new) ++ (FetchSets.failed_id <$> failed2) ≡ₚ ["C"] /\
    Forall (fun r => exists id, request_set_id r = Some id /\ id ∈ ["C"]) reqs.
Proof.
  pose (sets := [sample_set "A" "S1"; sample_set "C" "S1"]).
  pose (failed1 := [failure_of (sample_set "C" "S1")
                      (Py.Exc Py.HTTPError "500 Server Error")]).
  assert (exists wa, FetchSets.fetch_all_sets fresh_env (OneSeries "S1") FetchSets.start
                     = (FetchSets.Returned sets, wa)) as [wa Hsets1].
  { eexists. vm_compute. reflexivity. }
  assert (exists w1', FetchSets.build_sets_data (H := elements_order) 5 fresh_env
                        (OneSeries "S1") FetchSets.start
                      = (FetchSets.Returned ([record_A], failed1), w1')) as [w1' Hrun1].
  { eexists. vm_compute. reflexivity. }
  assert (exists wb, FetchSets.fetch_all_sets resumed_env (OneSeries "S1") FetchSets.start
                     = (FetchSets.Returned sets, wb)) as [wb Hsets2].
  { eexists. vm_compute. reflexivity. }
  assert (exists sets_data2 failed2 w2',
             FetchSets.build_sets_data (H := elements_order) 5 resumed_env
               (OneSeries "S1") FetchSets.start
             = (FetchSets.Returned (sets_data2, failed2), w2'))
    as (sets_data2 & failed2 & w2' & Hrun2).
  { eexists _, _, _. vm_compute. reflexivity. }
  assert (NoDup (si_id <$> sets)) as Hnd.
  { apply (bool_decide_unpack _). vm_compute. reflexivity. }
  destruct (X10_rerun_retries_the_failed_sets (H := elements_order)
              5 5 fresh_env resumed_env (OneSeries "S1") sets
              FetchSets.start wa [record_A] failed1 w1'
              FetchSets.start wb sets_data2 failed2 w2'
              Hnd Hsets1 Hrun1 eq_refl Hsets2 Hrun2)
    as (new & reqs & _ & Hperm & _ & Hreqs).
  exists new, reqs, failed2. split; [exact Hperm|exact Hreqs].
Defined.

Section RemoteMain.
Import Py FetchSets FetchSetsMain.
Context `{SetOrder}.

(** Fetching the set list sends requests for the set list only and
    writes nothing. *)
Lemma fetch_all_sets_effects env series_filter w o w1 :
  fetch_all_sets env series_filter w = (o, w1) ->
  o ≠ OutOfFuel /\ writes w1 = writes w /\
  exists n, sent w1 = sent w ++ replicate n GetSets.
Proof.
  unfold fetch_all_sets. unfold bind at 1. cbn [print]. unfold bind at 1.
  unfold fetch_with_retry.
  match goal with |- context [fetch_attempts ?r ?a ?m ?l ?w0] =>
    pose proof (fetch_attempts_effects r a m l w0) as Heff;
    destruct (fetch_attempts r a m l w0) as [o1 w0'] end.
  destruct (Heff _ _ eq_refl) as (Ho & Hw & n & Hs). cbn [sent writes] in Hw, Hs.
  destruct o1 as [[sets|]|e|]; [| |by intros [= <- <-]; eauto|done].
  - unfold bind at 1. cbn [json ret].
    destruct (filter_given series_filter).
    + destruct series_filter as [|name|names].
      * unfold bind. cbn. intros [= <- <-]. cbn. eauto.
      * unfold bind. cbn. intros [= <- <-]. cbn. eauto.
      * destruct sets; unfold bind; cbn; intros [= <- <-]; cbn; eauto.
    + unfold bind. cbn. intros [= <- <-]. cbn. eauto.
  - unfold bind at 1. cbn [json raise]. intros [= <- <-]. eauto.
Qed.

Lemma build_sets_data_no_list fuel env series_filter w e w1 :
  fetch_all_sets env series_filter w = (Raised e, w1) ->
  build_sets_data fuel env series_filter w = (Raised e, w1).
Proof.
  intros Hsets. unfold build_sets_data. unfold bind at 1. by rewrite Hsets.
Qed.

Lemma fetch_all_sets_refused env series_filter w e0 e1 e2 :
  let n := length (sent w) in
  http_sets env n = inl e0 -> http_sets env (S n) = inl e1 ->
  http_sets env (S (S n)) = inl e2 ->
  retried e0 = true -> retried e1 = true -> retried e2 = true ->
  fetch_all_sets env series_filter w =
  (Raised e2,
   {| sent := sent w ++ [GetSets; GetSets; GetSets];
      writes := writes w;
      printed := printed w ++ [Fetching_all_sets; Retry 1 3 1; Retry 2 3 2] |}).
Proof.
  intros n H0 H1 H2 R0 R1 R2.
  unfold fetch_all_sets. unfold bind at 1. cbn [print]. unfold bind at 1.
  rewrite (fetch_with_retry_exhausted GetSets (http_sets env) _ e0 e1 e2)
    by done.
  cbn [sent writes printed]. by rewrite <- (assoc_L (++)).
Qed.

End RemoteMain.

(** X11. When the set list cannot be fetched the remote run stops before
    anything else happens: the exception leaves the run and the script,
    only requests for the set list were sent, and the output file is
    neither read nor written, so that the result of an earlier run stays
    as it was. Three timeouts or HTTP errors in a row are such a case. *)
Theorem X11_no_set_list_leaves_the_output_untouched `{Py.SetOrder} :
  forall fuel env series_filter w,
    (forall e w1,
        FetchSets.fetch_all_sets env series_filter w = (FetchSets.Raised e, w1) ->
        FetchSets.build_sets_data fuel env series_filter w = (FetchSets.Raised e, w1) /\
        FetchSets.writes w1 = FetchSets.writes w /\
        (exists n, FetchSets.sent w1
                   = FetchSets.sent w ++ replicate n FetchSets.GetSets) /\
        (series_filter = OneSeries FetchSetsMain.SERIES_FILTER ->
         FetchSetsMain.main fuel env w
         = (FetchSetsMain.Raises (FetchSetsMain.Propagated e), w1,
            [FetchSetsMain.Banner;
             FetchSetsMain.Filtering_to FetchSetsMain.SERIES_FILTER;
             FetchSetsMain.Error (Py.str_of_exception e)]))) /\
    (forall e0 e1 e2,
        let n := length (FetchSets.sent w) in
        FetchSets.http_sets env n = inl e0 ->
        FetchSets.http_sets env (S n) = inl e1 ->
        FetchSets.http_sets env (S (S n)) = inl e2 ->
        FetchSets.retried e0 = true -> FetchSets.retried e1 = true ->
        FetchSets.retried e2 = true ->
        exists w1,
          FetchSets.fetch_all_sets env series_filter w = (FetchSets.Raised e2, w1)).
Proof.
  intros fuel env series_filter w. split.
  - intros e w1 Hsets.
    pose proof (build_sets_data_no_list fuel env series_filter w e w1 Hsets) as Hrun.
    destruct (fetch_all_sets_effects env series_filter w _ w1 Hsets) as (_ & Hw & Hs).
    split_and!; [done..|].
    intros ->. unfold FetchSetsMain.main. by rewrite Hrun.
  - intros e0 e1 e2 n H0 H1 H2 R0 R1 R2.
    rewrite (fetch_all_sets_refused env series_filter w e0 e1 e2 H0 H1 H2 R0 R1 R2).
    by eexists.
Qed.

(** A service that is down: the script raises the third timeout after
    three requests and no write. *)
Lemma X11_witness :
  exists w1,
    FetchSetsMain.main (H := elements_order) 5 down_env FetchSets.start
    = (FetchSetsMain.Raises (FetchSetsMain.Propagated (Py.Exc Py.Timeout "timed out")),
       w1,
       [FetchSetsMain.Banner;
        FetchSetsMain.Filtering_to FetchSetsMain.SERIES_FILTER;
        FetchSetsMain.Error "timed out"]) /\
    FetchSets.writes w1 = [].
Proof.
  assert (exists w1,
             FetchSets.fetch_all_sets down_env (OneSeries FetchSetsMain.SERIES_FILTER)
               FetchSets.start
             = (FetchSets.Raised (Py.Exc Py.Timeout "timed out"), w1)) as [w1 Hsets].
  { eexists. vm_compute. reflexivity. }
  exists w1.
  destruct (proj1 (X11_no_set_list_leaves_the_output_untouched (H := elements_order)
                     5 down_env (OneSeries FetchSetsMain.SERIES_FILTER) FetchSets.start)
              _ w1 Hsets) as (_ & Hw & _ & Hmain).
  split; [exact (Hmain eq_refl)|exact Hw].
Defined.

(** X12. The entry point of the remote variant divides by the number of
    records without looking at it. When the run returns no record (no
    listed set is of the series, or every set failed) the script writes
    the empty list to the output file and then raises ZeroDivisionError;
    the report of the failed sets, which comes after the average, is never
    printed. A failure of the final write leaves the script as an
    exception, unlike a failure of a checkpoint. When the script ends
    normally the run returned at least one record, the last write holds
    the returned records, and every failed set is reported. *)
Theorem X12_remote_main_fails_without_records `{Py.SetOrder} :
  forall fuel env w,
    let run := FetchSets.build_sets_data fuel env
                 (OneSeries FetchSetsMain.SERIES_FILTER) w in
    (forall failed_sets w1,
        run = (FetchSets.Returned ([], failed_sets), w1) ->
        FetchSets.file_write env (length (FetchSets.writes w1)) [] = None ->
        FetchSetsMain.main fuel env w
        = (FetchSetsMain.Raises FetchSetsMain.ZeroDivisionError,
           {| FetchSets.sent := FetchSets.sent w1;
              FetchSets.writes := FetchSets.writes w1 ++ [[]];
              FetchSets.printed := FetchSets.printed w1 |},
           [FetchSetsMain.Banner;
            FetchSetsMain.Filtering_to FetchSetsMain.SERIES_FILTER;
            FetchSetsMain.Final_save;
            FetchSetsMain.Saved 0; FetchSetsMain.Summary 0 0;
            FetchSetsMain.Error "division by zero"])) /\
    (forall sets_data failed_sets w1 e,
        run = (FetchSets.Returned (sets_data, failed_sets), w1) ->
        FetchSets.file_write env (length (FetchSets.writes w1)) sets_data = Some e ->
        exists w2 out,
          FetchSetsMain.main fuel env w
          = (FetchSetsMain.Raises (FetchSetsMain.Propagated e), w2, out) /\
          FetchSets.writes w2 = FetchSets.writes w1 ++ [sets_data]) /\
    (forall w2 out,
        FetchSetsMain.main fuel env w = (FetchSetsMain.Finished, w2, out) ->
        exists sets_data failed_sets w1,
          run = (FetchSets.Returned (sets_data, failed_sets), w1) /\
          sets_data ≠ [] /\
          FetchSets.writes w2 = FetchSets.writes w1 ++ [sets_data] /\
          forall f, f ∈ failed_sets ->
                    FetchSetsMain.Failed_set (FetchSets.failed_name f)
                      (FetchSets.failed_id f) (FetchSets.failed_error f) ∈ out).
Proof.
  intros fuel env w run. subst run. split_and!.
  - intros failed_sets w1 Hrun Hwrite.
    unfold FetchSetsMain.main. rewrite Hrun.
    unfold FetchSets.write_file. by rewrite Hwrite.
  - intros sets_data failed_sets w1 e Hrun Hwrite.
    unfold FetchSetsMain.main. rewrite Hrun.
    unfold FetchSets.write_file. rewrite Hwrite.
    unfold FetchSetsMain.reraise. by eexists _, _.
  - intros w2 out. unfold FetchSetsMain.main.
    destruct (FetchSets.build_sets_data fuel env _ w)
      as [[[sets_data failed_sets]|e|] w1]; [|done..].
    unfold FetchSets.write_file.
    destruct (FetchSets.file_write env _ sets_data) as [e|]; [done|].
    destruct sets_data as [|sr sets_data]; [done|].
    intros [= <- <-]. exists (sr :: sets_data), failed_sets, w1.
    split_and!; [done..|].
    intros f Hf. do 6 apply list_elem_of_further.
    unfold FetchSetsMain.failed_report.
    destruct failed_sets as [|f0 failed_sets]; [by apply elem_of_nil in Hf|].
    rewrite !elem_of_app. right. left.
    apply list_elem_of_fmap. by exists f.
Qed.

(** Every request for the cards of the only listed set is refused: the
    script ends with ZeroDivisionError, having written the empty list. *)
Lemma X12_witness :
  exists w2 out,
    FetchSetsMain.main (H := elements_order) 5 failing_env FetchSets.start
    = (FetchSetsMain.Raises FetchSetsMain.ZeroDivisionError, w2, out) /\
    FetchSets.writes w2 = [[]] /\
    FetchSetsMain.Failed_sets 1 ∉ out.
Proof.
  assert (exists failed_sets w1,
             FetchSets.build_sets_data (H := elements_order) 5 failing_env
               (OneSeries FetchSetsMain.SERIES_FILTER) FetchSets.start
             = (FetchSets.Returned ([], failed_sets), w1) /\
             FetchSets.writes w1 = [] /\ length failed_sets = 1%nat)
    as (failed_sets & w1 & Hrun & Hw & _).
  { eexists _, _. split; [vm_compute; reflexivity|]. split; reflexivity. }
  eexists _, _. split.
  - apply (proj1 (X12_remote_main_fails_without_records (H := elements_order)
                    5 failing_env FetchSets.start) failed_sets w1 Hrun).
    reflexivity.
  - cbn [FetchSets.writes]. rewrite Hw. split; [reflexivity|].
    intros Hin. repeat (apply elem_of_cons in Hin as [Hin|Hin]; [discriminate Hin|]).
    by apply elem_of_nil in Hin.
Defined.

(** * The API key and the shape of normalized names *)

Section ApiKey.
Import Py FetchSetsMain.

Lemma lstrip_cases s :
  (blank s = true /\ lstrip s = "") \/
  (blank s = false /\ exists c s', lstrip s = String c s' /\ isspace c = false).
Proof.
  induction s as [|c s IH]; [by left|]. cbn [lstrip blank].
  destruct (isspace c) eqn:Hc; cbn [andb]; [done|].
  right. split; [done|]. by exists c, s.
Qed.

Lemma rstrip_nonempty c s : isspace c = false -> rstrip (String c s) ≠ "".
Proof. intros Hc. cbn [rstrip]. rewrite Hc. by destruct (rstrip s). Qed.

Lemma strip_blank s : strip s = "" <-> blank s = true.
Proof.
  unfold strip. destruct (lstrip_cases s) as [[Hb ->]|(Hb & c & s' & -> & Hc)].
  - done.
  - rewrite Hb. split; [|done]. intros Hr. by apply rstrip_nonempty in Hr.
Qed.

Lemma truthy_nonempty k : truthy (Some k) = true <-> k ≠ "".
Proof. by destruct k. Qed.

Lemma get_headers_spec key :
  get_headers key = match key with
                    | Some (String c k) => [("X-Api-Key", String c k)]
                    | _ => []
                    end.
Proof. by destruct key as [[|c k]|]. Qed.

End ApiKey.

(** X13. The API key of the remote variant. A non-empty environment
    variable is the key, as it is, whatever the key file holds. Otherwise
    the key is the content of the key file without the whitespace around
    it. The header "X-Api-Key" is sent exactly when that key is not empty:
    a missing key file and a key file of whitespace only give no header,
    and a header never has an empty value. *)
Theorem X13_api_key_header :
  forall src : FetchSetsMain.KeySources,
    let headers := FetchSetsMain.get_headers (FetchSetsMain.load_api_key src) in
    (forall k, FetchSetsMain.environ_key src = Some k -> k ≠ "" ->
               headers = [("X-Api-Key", k)]) /\
    (Py.truthy (FetchSetsMain.environ_key src) = false ->
     match FetchSetsMain.key_file src with
     | Some content =>
         if blank content then headers = []
         else headers = [("X-Api-Key", Py.strip content)]
     | None => headers = []
     end) /\
    (forall name k, (name, k) ∈ headers -> name = "X-Api-Key" /\ k ≠ "").
Proof.
  intros src headers. subst headers. split_and!.
  - intros k Hk Hne. unfold FetchSetsMain.load_api_key. rewrite Hk.
    apply truthy_nonempty in Hne. rewrite Hne. rewrite get_headers_spec.
    by destruct k.
  - intros Henv. unfold FetchSetsMain.load_api_key. rewrite Henv.
    destruct (FetchSetsMain.key_file src) as [content|]; [|done].
    rewrite get_headers_spec.
    destruct (blank content) eqn:Hb.
    + apply strip_blank in Hb. by rewrite Hb.
    + destruct (Py.strip content) as [|c k] eqn:Hs; [|done].
      apply strip_blank in Hs. congruence.
  - intros name k. rewrite get_headers_spec.
    destruct (FetchSetsMain.load_api_key src) as [[|c k']|];
      [by intros ?%elem_of_nil| |by intros ?%elem_of_nil].
    by intros [= -> ->]%list_elem_of_singleton.
Qed.

(** A key file that ends in a newline, and no environment variable. *)
Lemma X13_witness :
  FetchSetsMain.get_headers
    (FetchSetsMain.load_api_key
       {| FetchSetsMain.environ_key := None;
          FetchSetsMain.key_file := Some (" abc-123" +:+ String "010" "") |})
  = [("X-Api-Key", "abc-123")].
Proof.
  pose proof (proj1 (proj2 (X13_api_key_header
                 {| FetchSetsMain.environ_key := None;
                    FetchSetsMain.key_file := Some (" abc-123" +:+ String "010" "") |}))
                eq_refl) as Hfile.
  exact Hfile.
Defined.

Section NormalizedNames.
Import Py.

Lemma normalized_words s ts :
  filter (fun p => (p ∉ BuildSetsData.suffixes) /\ (p ∉ BuildSetsData.prefixes))
         (lower <$> split s) = ts ->
  Forall (fun t => split t = [t] /\ lower t = t /\
                   (t ∉ BuildSetsData.suffixes) /\ (t ∉ BuildSetsData.prefixes)) ts.
Proof.
  intros <-. apply Forall_forall. intros t [[Hs Hp] Ht]%list_elem_of_filter.
  split_and!; [|  |done..].
  - rewrite <- split_lower in Ht.
    pose proof (split_words (lower s)) as Hw. rewrite Forall_forall in Hw. auto.
  - apply list_elem_of_fmap in Ht as (t' & -> & _). apply lower_idem.
Qed.

Lemma fmap_fixed {B} (f : B -> B) (l : list B) :
  Forall (fun x => f x = x) l -> f <$> l = l.
Proof. induction 1 as [|x l Hx _ IH]; [done|]. by rewrite fmap_cons, Hx, IH. Qed.

End NormalizedNames.

(** X14. The shape of a normalized name, in both variants. When a name
    normalizes to a key, the key is not empty, is its own lower-case form,
    consists of its words joined by single spaces (no whitespace at the
    ends, no two in a row), and none of its words is a marker. A name
    normalizes to nothing exactly when each of its words, in lower case,
    is a marker; an empty or blank name is such a name. *)
Theorem X14_normalized_names_are_canonical :
  forall name : string,
    FetchSets.normalize_pokemon_name (Some name)
    = BuildSetsData.normalize_pokemon_name (Some name) /\
    (forall key,
        BuildSetsData.normalize_pokemon_name (Some name) = Some key ->
        key ≠ "" /\
        Py.lower key = key /\
        key = Py.join " " (Py.split key) /\
        Py.split key ≠ [] /\
        Forall (fun t => t ∉ BuildSetsData.suffixes ++ BuildSetsData.prefixes)
               (Py.split key)) /\
    (BuildSetsData.normalize_pokemon_name (Some name) = None <->
     Forall (fun t => t ∈ BuildSetsData.suffixes ++ BuildSetsData.prefixes)
            (Py.lower <$> Py.split name)).
Proof.
  intros name. split_and!.
  - by rewrite normalize_same.
  - intros key. rewrite normalize_words.
    destruct (filter _ _) as [|t ts] eqn:Hf; [done|]. intros Hkey.
    assert (key = Py.join " " (t :: ts)) as -> by congruence. clear Hkey.
    pose proof (normalized_words name _ Hf) as Hall.
    assert (Py.split (Py.join " " (t :: ts)) = t :: ts) as Hsplit.
    { apply split_join. eapply Forall_impl; [exact Hall|]. by intros ? [? _]. }
    rewrite Hsplit. split_and!; [| |done|done|].
    + apply Forall_cons in Hall as [[Ht _] _].
      pose proof (join_truthy t ts Ht) as Htruthy.
      intros Hempty. by rewrite Hempty in Htruthy.
    + rewrite lower_join. f_equal. apply fmap_fixed.
      eapply Forall_impl; [exact Hall|]. by intros ? (_ & ? & _).
    + eapply Forall_impl; [exact Hall|]. intros x (_ & _ & Hs & Hp).
      rewrite elem_of_app. tauto.
  - rewrite normalize_words.
    destruct (filter _ _) as [|t ts] eqn:Hf.
    + split; [intros _|done]. apply Forall_forall. intros t Ht.
      destruct (decide (t ∈ BuildSetsData.suffixes ++ BuildSetsData.prefixes))
        as [|Hout]; [done|].
      assert (t ∈ filter (fun p => (p ∉ BuildSetsData.suffixes) /\
                                   (p ∉ BuildSetsData.prefixes))
                         (Py.lower <$> Py.split name)) as Hin.
      { apply list_elem_of_filter. split; [|done].
        rewrite elem_of_app in Hout. tauto. }
      rewrite Hf in Hin. by apply elem_of_nil in Hin.
    + split; [done|]. intros Hall.
      assert (t ∈ filter (fun p => (p ∉ BuildSetsData.suffixes) /\
                                   (p ∉ BuildSetsData.prefixes))
                         (Py.lower <$> Py.split name))
        as [[Hs Hp] Hin]%list_elem_of_filter by (rewrite Hf; left).
      rewrite Forall_forall in Hall. specialize (Hall t Hin).
      rewrite elem_of_app in Hall. tauto.
Qed.

(** The name of a card with markers and stray whitespace. *)
Lemma X14_witness :
  BuildSetsData.normalize_pokemon_name (Some "  Dark   Charizard  EX ") = Some "charizard" /\
  Py.lower "charizard" = "charizard" /\
  "charizard" = Py.join " " (Py.split "charizard").
Proof.
  assert (BuildSetsData.normalize_pokemon_name (Some "  Dark   Charizard  EX ")
          = Some "charizard") as Hkey.
  { vm_compute. reflexivity. }
  split; [exact Hkey|].
  destruct (proj1 (proj2 (X14_normalized_names_are_canonical "  Dark   Charizard  EX "))
              "charizard" Hkey) as (_ & Hlower & Hjoin & _).
  split; [exact Hlower|exact Hjoin].
Defined.

Section FreshRun.
Import Py FetchSets.
Context `{SetOrder}.

Lemma build_sets_data_fresh fuel env series_filter w sets w1 sets_data failed_sets w' :
  fetch_all_sets env series_filter w = (Returned sets, w1) ->
  loaded_records env = [] ->
  build_sets_data fuel env series_filter w = (Returned (sets_data, failed_sets), w') ->
  (sr_id <$> sets_data) ++ (failed_id <$> failed_sets) ≡ₚ si_id <$> sets /\
  sr_id <$> sets_data `sublist_of` si_id <$> sets.
Proof.
  intros Hsets Hloaded Hrun.
  destruct (build_sets_data_loop fuel env series_filter w sets w1 Hsets)
    as (w2 & _ & _ & Hloop).
  rewrite Hloop, Hloaded in Hrun.
  apply for_each_process_set in Hrun
    as (new & newf & _ & -> & -> & _ & Hperm & Hsub & _).
  rewrite enumerate1_ids in Hperm, Hsub. cbn [app]. split; [|done].
  rewrite Hperm. apply reflexive_eq, filter_all, Forall_forall.
  intros id _. cbn. set_solver.
Qed.

End FreshRun.

(** X15. A run of the remote variant that finds no output file, or one it
    cannot read, starts from nothing: when it returns, every set of the
    fetched list has been attempted, once per occurrence in the list, and
    is either among the records, which keep the order of the list, or
    among the failed sets; the two lists together are as long as the set
    list. *)
Theorem X15_fresh_run_attempts_every_listed_set `{Py.SetOrder} :
  forall fuel env series_filter w sets w1 sets_data failed_sets w',
    FetchSets.fetch_all_sets env series_filter w = (FetchSets.Returned sets, w1) ->
    (FetchSets.output_file env = FetchSets.Absent \/
     exists e, FetchSets.output_file env = FetchSets.Unreadable e) ->
    FetchSets.build_sets_data fuel env series_filter w
    = (FetchSets.Returned (sets_data, failed_sets), w') ->
    (sr_id <$> sets_data) ++ (FetchSets.failed_id <$> failed_sets) ≡ₚ si_id <$> sets /\
    sr_id <$> sets_data `sublist_of` si_id <$> sets /\
    (length sets_data + length failed_sets = length sets)%nat.
Proof.
  intros fuel env series_filter w sets w1 sets_data failed_sets w' Hsets Hfile Hrun.
  assert (loaded_records env = []) as Hloaded.
  { unfold loaded_records. by destruct Hfile as [->|[e ->]]. }
  destruct (build_sets_data_fresh _ _ _ _ _ _ _ _ _ Hsets Hloaded Hrun) as [Hperm Hsub].
  split_and!; [done..|].
  apply Permutation_length in Hperm. by rewrite length_app, !length_fmap in Hperm.
Qed.

(** The sample service without an output file: "A" is recorded, "C"
    fails. *)
Lemma X15_witness :
  exists sets_data failed_sets,
    (sr_id <$> sets_data) ++ (FetchSets.failed_id <$> failed_sets) ≡ₚ ["A"; "C"] /\
    (length (sets_data : list (SetRecord RemoteEntry)) + length failed_sets = 2)%nat.
Proof.
  assert (exists w1, FetchSets.fetch_all_sets fresh_env (OneSeries "S1") FetchSets.start
                     = (FetchSets.Returned [sample_set "A" "S1"; sample_set "C" "S1"], w1))
    as [w1 Hsets].
  { eexists. vm_compute. reflexivity. }
  assert (exists sets_data failed_sets w',
             FetchSets.build_sets_data (H := elements_order) 5 fresh_env
               (OneSeries "S1") FetchSets.start
             = (FetchSets.Returned (sets_data, failed_sets), w'))
    as (sets_data & failed_sets & w' & Hrun).
  { eexists _, _, _. vm_compute. reflexivity. }
  exists sets_data, failed_sets.
  destruct (X15_fresh_run_attempts_every_listed_set (H := elements_order)
              5 fresh_env (OneSeries "S1") FetchSets.start _ w1 sets_data failed_sets w'
              Hsets (or_introl eq_refl) Hrun) as (Hperm & _ & Hlen).
  split; [exact Hperm|exact Hlen].
Defined.

(** X16. The cards of a set are the cards of its pages in page order,
    whatever the service answers. When the page loop returns, it has
    taken the answers to consecutive pages from the first one on (each
    after any retries), appended their cards in that order, and stopped at
    the first page whose number has reached totalCount // 50 + 1 for the
    totalCount that this page reports; every earlier page was below that
    bound of its own answer. *)
Theorem X16_pages_are_collected_in_order :
  forall fuel env set_id page all_cards w cards w',
    FetchSets.fetch_pages fuel env set_id page all_cards w
    = (FetchSets.Returned cards, w') ->
    exists (earlier : list FetchSets.CardsPage) (final : FetchSets.CardsPage),
      cards = all_cards ++ concat (FetchSets.data <$> (earlier ++ [final])) /\
      Forall2 (fun pg p => exists k, FetchSets.http_cards env k set_id pg 50 = inr p)
              (pages_from page (S (length earlier))) (earlier ++ [final]) /\
      Forall2 (fun pg p => pg < FetchSets.totalCount p / 50 + 1)
              (pages_from page (length earlier)) earlier /\
      page + Z.of_nat (length earlier) >= FetchSets.totalCount final / 50 + 1 /\
      (length earlier < fuel)%nat.
Proof.
  intros fuel env set_id.
  induction fuel as [|fuel IH]; intros page all_cards w cards w'; [done|].
  cbn [FetchSets.fetch_pages]. unfold FetchSets.bind at 1. cbn [FetchSets.print].
  unfold FetchSets.bind.
  match goal with
  | |- context [FetchSets.fetch_cards_for_set env set_id page FetchSets.page_size ?w0] =>
      pose proof (fetch_cards_for_set_answer env set_id page FetchSets.page_size w0)
        as Hans;
      destruct (FetchSets.fetch_cards_for_set env set_id page FetchSets.page_size w0)
        as [[result|e|] w1]
  end; [|done..].
  destruct (Hans _ _ eq_refl) as [k Hk].
  unfold FetchSets.page_size in *.
  destruct (Z.geb_spec page (FetchSets.totalCount result / 50 + 1)) as [Hge|Hlt].
  - intros [= <- <-]. exists [], result.
    cbn [length app fmap list_fmap concat pages_from].
    rewrite app_nil_r. split_and!; [done| |constructor|lia|lia].
    repeat constructor. by exists k.
  - intros (earlier & final & -> & Hpages & Hearly & Hstop & Hfuel)%IH.
    exists (result :: earlier), final.
    cbn [length app fmap list_fmap concat pages_from].
    split_and!; [by rewrite <- (assoc_L (++))| | |lia|lia].
    + constructor; [by exists k|done].
    + constructor; [lia|done].
Qed.

(** The sample service reports 50 cards in all: the first page is below
    its bound 2, the second page ends the loop. *)
Lemma X16_witness :
  exists (earlier : list FetchSets.CardsPage) (final : FetchSets.CardsPage),
    [pikachu; flying_pikachu]
    = [] ++ concat (FetchSets.data <$> (earlier ++ [final])) /\
    1 + Z.of_nat (length earlier) >= FetchSets.totalCount final / 50 + 1.
Proof.
  assert (exists w',
             FetchSets.fetch_pages 5 fresh_env "A" 1 [] FetchSets.start
             = (FetchSets.Returned [pikachu; flying_pikachu], w')) as [w' Hrun].
  { eexists. vm_compute. reflexivity. }
  destruct (X16_pages_are_collected_in_order 5 fresh_env "A" 1 [] FetchSets.start
              _ w' Hrun) as (earlier & final & Hcards & _ & _ & Hstop & _).
  exists earlier, final. split; [exact Hcards|exact Hstop].
Defined.
